(** * Dithered pattern generator: layer compositing and pattern rendering

    A shallow embedding of the TypeScript engine (layer manager, shape
    influence resolver, the five pattern renderers, the layer compositor,
    the drop state and the frame stepper) together with the properties
    the design document states about it.

    Modelling conventions.
    - A JavaScript [number] that holds a count, an index, a frame or a
      pixel size is a [Z]; one that holds a measure (brightness, density,
      position of a drop, opacity) is an exact rational [Q].  Rounding of
      IEEE doubles, infinities and NaN are outside the model; the places
      where the source would produce NaN or throw are explicit outcomes.
    - [Math.sin], [Math.cos], [Math.sqrt] and [Math.random] belong to the
      host: they are parameters ([Host.t]) of everything that calls them.
    - A 2D drawing context is the log of the property writes and drawing
      calls made on it; the pixels of a surface are a function of its log.
    - Mutable objects shared by reference (the drop array, the drawing
      context) live in an explicit state threaded by a small monad that
      keeps the state when an exception is thrown. *)

From Stdlib Require Import ZArith QArith Qround List String Ascii Bool Lia Lqa.
From Stdlib Require Import DecimalString HexadecimalString Permutation.

#[local] Set Warnings "-register-all".

Import ListNotations.

Set Implicit Arguments.

(* ================================================================= *)
(** ** JavaScript values *)

Module JS.

(** Abnormal outcomes: a thrown [TypeError] (property read on
    [undefined]) and a NaN that the rational model cannot carry. *)
Inductive error : Type :=
| TypeError
| NotANumber.

Inductive result (A : Type) : Type :=
| Ok (a : A)
| Throw (e : error).
Arguments Ok {A} a.
Arguments Throw {A} e.

(** [a < b] on numbers. *)
Definition ltb (a b : Q) : bool := negb (Qle_bool b a).
(** [a > b] on numbers. *)
Definition gtb (a b : Q) : bool := ltb b a.
(** [a >= b] on numbers. *)
Definition geb (a b : Q) : bool := Qle_bool b a.

(** [a % n] on integers: the remainder has the sign of the dividend,
    and the result is NaN ([None]) when [n] is zero. *)
Definition rem (a : option Z) (n : Z) : option Z :=
  match a with
  | None => None
  | Some a' => if (n =? 0)%Z then None else Some (Z.rem a' n)
  end.

(** [a + b] on integers, one of which may be NaN. *)
Definition add (a : option Z) (b : option Z) : option Z :=
  match a, b with
  | Some a', Some b' => Some (a' + b')%Z
  | _, _ => None
  end.

(** [arr[i]]: [undefined] ([None]) for a NaN, negative or too large
    index. *)
Definition index {A : Type} (arr : list A) (i : option Z) : option A :=
  match i with
  | Some i' => if (i' <? 0)%Z then None else nth_error arr (Z.to_nat i')
  | None => None
  end.

(** [s.split('')]: the characters of [s], each as a string. *)
Definition split (s : string) : list string :=
  map (fun c => String c EmptyString) (list_ascii_of_string s).

(** [n.toString(16)] for an integer [n]. *)
Definition toString16 (n : Z) : string :=
  HexadecimalString.NilZero.string_of_int (Z.to_hex_int n).

(** [n.toString()] for an integer [n]. *)
Definition toString10 (n : Z) : string :=
  DecimalString.NilZero.string_of_int (Z.to_int n).

(** [s.padStart(2, '0')]. *)
Definition padStart2 (s : string) : string :=
  match String.length s with
  | O => "00"
  | S O => String "0"%char s
  | _ => s
  end.

(** [s || d] on strings: the empty string is falsy. *)
Definition orDefault (s : option string) (d : string) : string :=
  match s with
  | Some (String c r) => String c r
  | _ => d
  end.

(** Where [arr.splice(start, ...)] starts on an array of [len]
    elements: a negative [start] counts from the end, and the result is
    kept within [0, len]. *)
Definition spliceStart (len start : Z) : Z :=
  if (start <? 0)%Z then Z.max (len + start) 0 else Z.min start len.

(** [const [removed] = arr.splice(start, 1)]: the element removed
    ([undefined] when [start] is at the end) and the array left. *)
Definition spliceOut {A : Type} (arr : list A) (start : Z) : option A * list A :=
  let k := Z.to_nat (spliceStart (Z.of_nat (List.length arr)) start) in
  (nth_error arr k, firstn k arr ++ skipn (S k) arr).

(** [arr.splice(start, 0, a)]. *)
Definition spliceIn {A : Type} (arr : list A) (start : Z) (a : A) : list A :=
  let k := Z.to_nat (spliceStart (Z.of_nat (List.length arr)) start) in
  firstn k arr ++ a :: skipn k arr.

(** [arr.findIndex(p)]: the first index at which [p] holds, or -1. *)
Fixpoint findIndex {A : Type} (p : A -> bool) (arr : list A) : Z :=
  match arr with
  | [] => (-1)%Z
  | a :: arr' =>
    if p a then 0%Z
    else
      let i := findIndex p arr' in
      if (i <? 0)%Z then (-1)%Z else (i + 1)%Z
  end.

End JS.

(** The host functions the engine calls. [random n] is the value of the
  [n]-th call of [Math.random] since the program started. *)
Module Host.
Record t : Type := {
  sin : Q -> Q;
  cos : Q -> Q;
  sqrt : Q -> Q;
  random : nat -> Q
}.
End Host.

(* ================================================================= *)
(** ** Data model ([types/index.ts]) *)

Module Drop.
Record t : Type := {
  x : Z;
  y : Q;
  speed : Q;
  length : Q
}.
End Drop.

Module RandomSeed.
Record t : Type := {
  r1 : Q;
  r2 : Q;
  r3 : Q
}.
End RandomSeed.

Module LayerConfig.
Record t : Type := {
  symbolSet : string;
  density : Q;
  cellSize : Z;
  color : string;
  bgColor : string;
  animationSpeed : Z;
  pattern : string;
  gradient : bool;
  glowEffect : bool;
  shapeInfluence : Q;
  gradientStrength : Q;
  glowIntensity : Q;
  glowRadius : Q
}.

(** [Partial<LayerConfig>]: the keys present in an update object, each
    with a value of the field's type. *)
Record partial : Type := {
  p_symbolSet : option string;
  p_density : option Q;
  p_cellSize : option Z;
  p_color : option string;
  p_bgColor : option string;
  p_animationSpeed : option Z;
  p_pattern : option string;
  p_gradient : option bool;
  p_glowEffect : option bool;
  p_shapeInfluence : option Q;
  p_gradientStrength : option Q;
  p_glowIntensity : option Q;
  p_glowRadius : option Q
}.

Definition pick {A : Type} (upd : option A) (old : A) : A :=
  match upd with
  | Some v => v
  | None => old
  end.

(** [{ ...c, ...u }]. *)
Definition spread (c : t) (u : partial) : t :=
  {| symbolSet := pick (p_symbolSet u) (symbolSet c);
     density := pick (p_density u) (density c);
     cellSize := pick (p_cellSize u) (cellSize c);
     color := pick (p_color u) (color c);
     bgColor := pick (p_bgColor u) (bgColor c);
     animationSpeed := pick (p_animationSpeed u) (animationSpeed c);
     pattern := pick (p_pattern u) (pattern c);
     gradient := pick (p_gradient u) (gradient c);
     glowEffect := pick (p_glowEffect u) (glowEffect c);
     shapeInfluence := pick (p_shapeInfluence u) (shapeInfluence c);
     gradientStrength := pick (p_gradientStrength u) (gradientStrength c);
     glowIntensity := pick (p_glowIntensity u) (glowIntensity c);
     glowRadius := pick (p_glowRadius u) (glowRadius c) |}.
End LayerConfig.

Module Layer.
(** An [HTMLImageElement] is known by its source only. *)
Definition HTMLImageElement : Type := string.

Record t : Type := {
  id : string;
  name : string;
  visible : bool;
  opacity : Q;
  config : LayerConfig.t;
  shapeImage : option HTMLImageElement;
  shapeData : option (list (list Q))
}.

Definition withConfig (l : t) (c : LayerConfig.t) : t :=
  {| id := id l; name := name l; visible := visible l;
     opacity := opacity l; config := c;
     shapeImage := shapeImage l; shapeData := shapeData l |}.

Definition withVisible (l : t) (v : bool) : t :=
  {| id := id l; name := name l; visible := v;
     opacity := opacity l; config := config l;
     shapeImage := shapeImage l; shapeData := shapeData l |}.
(** [Partial<Layer>]: the keys present in an update object.  For
    [shapeImage] and [shapeData] the value given may be [null]. *)
Record partial : Type := {
  p_id : option string;
  p_name : option string;
  p_visible : option bool;
  p_opacity : option Q;
  p_config : option LayerConfig.t;
  p_shapeImage : option (option HTMLImageElement);
  p_shapeData : option (option (list (list Q)))
}.

(** [{ ...l, ...u }]. *)
Definition spread (l : t) (u : partial) : t :=
  {| id := LayerConfig.pick (p_id u) (id l);
     name := LayerConfig.pick (p_name u) (name l);
     visible := LayerConfig.pick (p_visible u) (visible l);
     opacity := LayerConfig.pick (p_opacity u) (opacity l);
     config := LayerConfig.pick (p_config u) (config l);
     shapeImage := LayerConfig.pick (p_shapeImage u) (shapeImage l);
     shapeData := LayerConfig.pick (p_shapeData u) (shapeData l) |}.

(** The update object without any key. *)
Definition noUpdate : partial :=
  {| p_id := None; p_name := None; p_visible := None; p_opacity := None;
     p_config := None; p_shapeImage := None; p_shapeData := None |}.

End Layer.

(* ================================================================= *)
(** ** [utils/constants.ts] *)

Module Constants.
Open Scope string_scope.

Definition DEFAULT_LAYER_CONFIG : LayerConfig.t :=
  {| LayerConfig.symbolSet := "01";
     LayerConfig.density := 0.7;
     LayerConfig.cellSize := 12;
     LayerConfig.color := "#00ff9f";
     LayerConfig.bgColor := "#0a0e27";
     LayerConfig.animationSpeed := 50;
     LayerConfig.pattern := "rain";
     LayerConfig.gradient := true;
     LayerConfig.glowEffect := true;
     LayerConfig.shapeInfluence := 0.8;
     LayerConfig.gradientStrength := 0.8;
     LayerConfig.glowIntensity := 10;
     LayerConfig.glowRadius := 10 |}.
End Constants.

(* ================================================================= *)
(** ** [utils/colorUtils.ts] *)

Module ColorUtils.
Import JS.
Open Scope Q_scope.

(** The shape influence resolver.  [shapeData[0]] of an empty grid is
    [undefined], whose [length] throws; a row shorter than the first
    one yields an [undefined] brightness, hence NaN. *)
Definition getShapeBrightnessForLayer
    (x y cols rows : Z) (layer : Layer.t) : result Q :=
  match Layer.shapeData layer with
  | None => Ok 1
  | Some shapeData =>
    match shapeData with
    | [] => Throw TypeError
    | row0 :: _ =>
      let shapeWidth := Z.of_nat (List.length row0) in
      let shapeHeight := Z.of_nat (List.length shapeData) in
      let offsetX := ((cols - shapeWidth) / 2)%Z in
      let offsetY := ((rows - shapeHeight) / 2)%Z in
      let shapeX := (x - offsetX)%Z in
      let shapeY := (y - offsetY)%Z in
      if (shapeX <? 0)%Z || (shapeX >=? shapeWidth)%Z
         || (shapeY <? 0)%Z || (shapeY >=? shapeHeight)%Z
      then Ok (1 - LayerConfig.shapeInfluence (Layer.config layer))
      else
        match index shapeData (Some shapeY) with
        | None => Throw TypeError
        | Some row =>
          match index row (Some shapeX) with
          | None => Throw NotANumber
          | Some brightness =>
            Ok (brightness * LayerConfig.shapeInfluence (Layer.config layer)
                + (1 - LayerConfig.shapeInfluence (Layer.config layer)))
          end
        end
    end
  end.

Definition brightnessToHex (brightness : Q) : string :=
  padStart2 (toString16 (Qfloor (brightness * 255))).

Definition calculateGlowBlur (glowIntensity brightness glowRadius : Q) : Z :=
  Qfloor (glowIntensity * brightness * (glowRadius / 10)).
End ColorUtils.

(* ================================================================= *)
(** ** Drawing surfaces and the rendering monad *)

Module Canvas.
(** What can be asked of a [CanvasRenderingContext2D], in the order
    asked.  [DrawImage] carries the log of the source surface. *)
Inductive op : Type :=
| SetFillStyle (style : string)
| SetShadowColor (color : string)
| SetShadowBlur (blur : Z)
| SetFont (font : string)
| SetTextAlign (align : string)
| SetTextBaseline (baseline : string)
| SetGlobalAlpha (alpha : Q)
| ClearRect (x y w h : Z)
| FillRect (x y w h : Z)
| FillText (text : string) (x y : Q)
| DrawImage (image : list op) (x y : Z).

Definition log : Type := list op.

(** The colour of every pixel of a [w] by [h] surface whose log only
    sets the fill style and fills the whole surface; [None] when the
    log does anything else, or fills nothing. *)
Fixpoint uniformFill (w h : Z) (style : option string) (painted : option string)
    (l : log) : option string :=
  match l with
  | [] => painted
  | SetFillStyle s :: l' => uniformFill w h (Some s) painted l'
  | FillRect x y w' h' :: l' =>
    if ((x =? 0) && (y =? 0) && (w' =? w) && (h' =? h))%Z
    then uniformFill w h style style l'
    else None
  | _ :: _ => None
  end.
End Canvas.

Module Render.
Import JS.

(** The objects a composite pass can reach: the drawing context it is
    painting on, the shared drop array, and how many times
    [Math.random] has been called. *)
Record state : Type := {
  ctx : Canvas.log;
  drops : list Drop.t;
  randomCalls : nat
}.

Definition M (A : Type) : Type := state -> result A * state.

Definition ret {A : Type} (a : A) : M A := fun s => (Ok a, s).

Definition bind {A B : Type} (m : M A) (k : A -> M B) : M B :=
  fun s =>
    match m s with
    | (Ok a, s') => k a s'
    | (Throw e, s') => (Throw e, s')
    end.

Definition throw {A : Type} (e : error) : M A := fun s => (Throw e, s).

Definition lift {A : Type} (r : result A) : M A := fun s => (r, s).

(** One call or property write on the current context. *)
Definition emit (o : Canvas.op) : M unit :=
  fun s => (Ok tt, {| ctx := ctx s ++ [o]; drops := drops s;
                      randomCalls := randomCalls s |}).

Definition getDrops : M (list Drop.t) := fun s => (Ok (drops s), s).

Definition setDrops (ds : list Drop.t) : M unit :=
  fun s => (Ok tt, {| ctx := ctx s; drops := ds;
                      randomCalls := randomCalls s |}).

(** [Math.random()]. *)
Definition random (host : Host.t) : M Q :=
  fun s => (Ok (Host.random host (randomCalls s)),
            {| ctx := ctx s; drops := drops s;
               randomCalls := S (randomCalls s) |}).

(** Runs [m] on a fresh surface and hands back that surface's log;
    the context painted on before is current again afterwards. *)
Definition onNewCanvas (m : M unit) : M Canvas.log :=
  fun s =>
    match m {| ctx := []; drops := drops s; randomCalls := randomCalls s |} with
    | (Ok _, s') =>
      (Ok (ctx s'), {| ctx := ctx s; drops := drops s';
                       randomCalls := randomCalls s' |})
    | (Throw e, s') =>
      (Throw e, {| ctx := ctx s; drops := drops s';
                   randomCalls := randomCalls s' |})
    end.

Declare Scope render_scope.
Delimit Scope render_scope with render.
Notation "x <- m ;; k" := (bind m (fun x => k))
  (at level 61, m at next level, right associativity) : render_scope.
Notation "m ;; k" := (bind m (fun _ => k))
  (at level 61, right associativity) : render_scope.
Open Scope render_scope.

(** A loop over [l] that carries a local variable. *)
Fixpoint forEach {A B : Type} (l : list A) (body : A -> B -> M B) (acc : B) : M B :=
  match l with
  | [] => ret acc
  | a :: l' => acc' <- body a acc ;; forEach l' body acc'
  end.

(** [for (let i = 0; i < n; i++)]: the values [i] takes. *)
Definition range (n : Z) : list Z := map Z.of_nat (seq 0 (Z.to_nat n)).

(** [f(a)] for every element, in order, collecting the results. *)
Fixpoint mapM {A B : Type} (f : A -> M B) (l : list A) : M (list B) :=
  match l with
  | [] => ret []
  | a :: l' => b <- f a ;; bs <- mapM f l' ;; ret (b :: bs)
  end.

(** [randomSeeds[i]] followed by a property read. *)
Definition seedAt (randomSeeds : list RandomSeed.t) (i : option Z) : M RandomSeed.t :=
  match index randomSeeds i with
  | Some seed => ret seed
  | None => throw TypeError
  end.
End Render.

(* ================================================================= *)
(** ** [utils/renderPatterns.ts] *)

Module RenderPatterns.
Import JS Render ColorUtils.
Open Scope Q_scope.
Open Scope string_scope.

(** [RenderPatternParams]; the [ctx] member is the current context of
    the rendering monad. *)
Record RenderPatternParams : Type := {
  layer : Layer.t;
  cols : Z;
  rows : Z;
  cellSize : Z;
  frame : Z;
  randomSeeds : list RandomSeed.t
}.

(** The block every renderer runs for a cell it draws: the fill style
    gets the brightness as its alpha suffix, and the shadow blur is
    written only when it differs from the one written last.  The value
    is the new [currentShadowBlur]. *)
Definition setColorAndGlow (layerConfig : LayerConfig.t) (brightness : Q)
    (currentShadowBlur : Z) : M Z :=
  let brightnessHex := brightnessToHex brightness in
  emit (Canvas.SetFillStyle (LayerConfig.color layerConfig ++ brightnessHex)) ;;
  let targetBlur :=
    if LayerConfig.glowEffect layerConfig
    then calculateGlowBlur (LayerConfig.glowIntensity layerConfig) brightness
           (LayerConfig.glowRadius layerConfig)
    else 0%Z in
  if (currentShadowBlur =? targetBlur)%Z
  then ret currentShadowBlur
  else (emit (Canvas.SetShadowBlur targetBlur) ;; ret targetBlur).

(** [ctx.fillText(layerSymbols[Math.floor(r * layerSymbols.length)], px, py)];
    an [undefined] symbol is drawn as the text "undefined". *)
Definition fillSymbol (layerSymbols : list string) (r : Q) (px py : Q) : M unit :=
  let symbolIndex := Qfloor (r * inject_Z (Z.of_nat (List.length layerSymbols))) in
  let text := match index layerSymbols (Some symbolIndex) with
              | Some sym => sym
              | None => "undefined"
              end in
  emit (Canvas.FillText text px py).

(** [if (layerConfig.glowEffect) ctx.shadowColor = layerConfig.color]. *)
Definition setShadowColor (layerConfig : LayerConfig.t) : M unit :=
  if LayerConfig.glowEffect layerConfig
  then emit (Canvas.SetShadowColor (LayerConfig.color layerConfig))
  else ret tt.

Section Renderers.
Variable host : Host.t.
Variable params : RenderPatternParams.

Let layerConfig : LayerConfig.t := Layer.config (layer params).
Let layerSymbols : list string := split (LayerConfig.symbolSet layerConfig).
Let halfCell : Z := (cellSize params / 2)%Z.
Let seedLen : Z := Z.of_nat (List.length (randomSeeds params)).

(** *** Rain *)

(** One step [j] of the trail of [drop]. *)
Definition rainCell (drop : Drop.t) (j : Z) (currentShadowBlur : Z) : M Z :=
  let dropX := Drop.x drop in
  let y := Drop.y drop - inject_Z j in
  if ltb y 0 || geb y (inject_Z (rows params)) then ret currentShadowBlur
  else
    let yInt := Qfloor y in
    shapeBrightness <-
      lift (getShapeBrightnessForLayer dropX yInt (cols params) (rows params)
              (layer params)) ;;
    let alpha := (1 - (inject_Z j / Drop.length drop)) * shapeBrightness in
    let brightness :=
      if LayerConfig.gradient layerConfig
      then alpha * LayerConfig.gradientStrength layerConfig
           + (1 - LayerConfig.gradientStrength layerConfig)
      else shapeBrightness in
    if gtb brightness 0.1 then
      blur <- setColorAndGlow layerConfig brightness currentShadowBlur ;;
      let seedIndex := rem (Some (dropX + yInt)%Z) seedLen in
      seed <- seedAt (randomSeeds params) seedIndex ;;
      fillSymbol layerSymbols (RandomSeed.r1 seed)
        (inject_Z (dropX * cellSize params + halfCell))
        (inject_Z (yInt * cellSize params + halfCell)) ;;
      ret blur
    else ret currentShadowBlur.

(** [drops] is the shared array the caller passes by reference. *)
Definition renderRainPattern : M unit :=
  setShadowColor layerConfig ;;
  drops <- getDrops ;;
  forEach drops
    (fun drop currentShadowBlur =>
       forEach (range (Qceiling (Drop.length drop))) (rainCell drop)
         currentShadowBlur)
    (-1)%Z ;;
  ret tt.

(** *** Wave *)

Definition waveAlpha (i j : Z) : Q :=
  let wave :=
    Host.sin host ((inject_Z i + inject_Z (frame params) * 0.1) * 0.3)
    * Host.cos host ((inject_Z j + inject_Z (frame params) * 0.1) * 0.3) in
  (wave + 1) / 2.

(** The brightness of a cell the wave renderer draws. *)
Definition waveBrightness (waveAlpha shapeBrightness : Q) : Q :=
  let alpha := waveAlpha * shapeBrightness in
  if LayerConfig.gradient layerConfig
  then alpha * LayerConfig.gradientStrength layerConfig
       + (1 - LayerConfig.gradientStrength layerConfig) * shapeBrightness
  else shapeBrightness.

Definition waveCell (i j : Z) (currentShadowBlur : Z) : M Z :=
  let iCellPos := (i * cellSize params + halfCell)%Z in
  let waveAlpha := waveAlpha i j in
  shapeBrightness <-
    lift (getShapeBrightnessForLayer i j (cols params) (rows params)
            (layer params)) ;;
  let alpha := waveAlpha * shapeBrightness in
  let seedIndex := rem (Some (i * rows params + j)%Z) seedLen in
  seed <- seedAt (randomSeeds params) seedIndex ;;
  if ltb (RandomSeed.r1 seed) (LayerConfig.density layerConfig * alpha) then
    let brightness := waveBrightness waveAlpha shapeBrightness in
    blur <- setColorAndGlow layerConfig brightness currentShadowBlur ;;
    fillSymbol layerSymbols (RandomSeed.r2 seed)
      (inject_Z iCellPos) (inject_Z (j * cellSize params + halfCell)) ;;
    ret blur
  else ret currentShadowBlur.

(** The two nested loops over the grid every cell renderer shares. *)
Definition forEachCell (cell : Z -> Z -> Z -> M Z) : M unit :=
  forEach (range (cols params))
    (fun i currentShadowBlur =>
       forEach (range (rows params)) (cell i) currentShadowBlur)
    (-1)%Z ;;
  ret tt.

Definition renderWavePattern : M unit :=
  setShadowColor layerConfig ;;
  forEachCell waveCell.

(** *** Static *)

Definition staticCell (frameOffset : option Z) (i j : Z) (currentShadowBlur : Z) : M Z :=
  let iCellPos := (i * cellSize params + halfCell)%Z in
  shapeBrightness <-
    lift (getShapeBrightnessForLayer i j (cols params) (rows params)
            (layer params)) ;;
  let baseSeedIndex := rem (Some (i * rows params + j)%Z) seedLen in
  let seedIndex := rem (add baseSeedIndex frameOffset) seedLen in
  seed <- seedAt (randomSeeds params) seedIndex ;;
  if ltb (RandomSeed.r1 seed) (LayerConfig.density layerConfig * shapeBrightness) then
    let brightness :=
      if LayerConfig.gradient layerConfig
      then RandomSeed.r2 seed * shapeBrightness
             * LayerConfig.gradientStrength layerConfig
           + (1 - LayerConfig.gradientStrength layerConfig) * shapeBrightness
      else shapeBrightness in
    blur <- setColorAndGlow layerConfig brightness currentShadowBlur ;;
    fillSymbol layerSymbols (RandomSeed.r3 seed)
      (inject_Z iCellPos) (inject_Z (j * cellSize params + halfCell)) ;;
    ret blur
  else ret currentShadowBlur.

Definition renderStaticPattern : M unit :=
  let frameOffset := rem (Some (frame params * 17)%Z) seedLen in
  setShadowColor layerConfig ;;
  forEachCell (staticCell frameOffset).

(** *** Glitch *)

Definition glitchCycle : Z := Z.rem (frame params) 80.

Definition isGlitching : bool :=
  (glitchCycle <? 5)%Z || ((glitchCycle >? 30)%Z && (glitchCycle <? 35)%Z).

Definition glitchIntensity : Q :=
  if isGlitching
  then (Host.sin host (inject_Z (frame params) * 0.5) + 1) / 2
  else 0.

(** [offsetX] and [offsetY] of the cell whose seed index is [seedIndex]. *)
Definition glitchOffsets (seedIndex : option Z) : M (Q * Q) :=
  if isGlitching then
    let glitchSeedIndex := rem (add seedIndex (Some (frame params))) seedLen in
    glitchSeed <- seedAt (randomSeeds params) glitchSeedIndex ;;
    let shouldGlitch := ltb (RandomSeed.r1 glitchSeed) 0.15 in
    if shouldGlitch
    then ret ((RandomSeed.r2 glitchSeed - 0.5) * 30 * glitchIntensity,
              (RandomSeed.r3 glitchSeed - 0.5) * 10 * glitchIntensity)
    else ret (0, 0)
  else ret (0, 0).

Definition glitchCell (i j : Z) (currentShadowBlur : Z) : M Z :=
  let iCellPos := (i * cellSize params + halfCell)%Z in
  shapeBrightness <-
    lift (getShapeBrightnessForLayer i j (cols params) (rows params)
            (layer params)) ;;
  let seedIndex := rem (Some (i * rows params + j)%Z) seedLen in
  offsets <- glitchOffsets seedIndex ;;
  let offsetX := fst offsets in
  let offsetY := snd offsets in
  seed <- seedAt (randomSeeds params) seedIndex ;;
  if ltb (RandomSeed.r2 seed) (LayerConfig.density layerConfig * shapeBrightness) then
    let brightness :=
      if LayerConfig.gradient layerConfig
      then (0.5 + RandomSeed.r3 seed * 0.5) * shapeBrightness
             * LayerConfig.gradientStrength layerConfig
           + (1 - LayerConfig.gradientStrength layerConfig) * shapeBrightness
      else shapeBrightness in
    blur <- setColorAndGlow layerConfig brightness currentShadowBlur ;;
    fillSymbol layerSymbols (RandomSeed.r1 seed)
      (inject_Z iCellPos + offsetX)
      (inject_Z (j * cellSize params + halfCell) + offsetY) ;;
    ret blur
  else ret currentShadowBlur.

Definition renderGlitchPattern : M unit :=
  setShadowColor layerConfig ;;
  forEachCell glitchCell.

(** *** Pulse *)

Definition pulseCell (pulse centerX centerY maxDist : Q) (i j : Z)
    (currentShadowBlur : Z) : M Z :=
  let dx := inject_Z i - centerX in
  let iCellPos := (i * cellSize params + halfCell)%Z in
  shapeBrightness <-
    lift (getShapeBrightnessForLayer i j (cols params) (rows params)
            (layer params)) ;;
  let dy := inject_Z j - centerY in
  let dist := Host.sqrt host (dx * dx + dy * dy) in
  let normalizedDist := dist / maxDist in
  let seedIndex := rem (Some (i * rows params + j)%Z) seedLen in
  seed <- seedAt (randomSeeds params) seedIndex ;;
  if ltb (RandomSeed.r1 seed)
       (LayerConfig.density layerConfig * (1 - normalizedDist) * pulse
        * shapeBrightness) then
    let brightness :=
      if LayerConfig.gradient layerConfig
      then (1 - normalizedDist) * pulse * shapeBrightness
             * LayerConfig.gradientStrength layerConfig
           + (1 - LayerConfig.gradientStrength layerConfig) * shapeBrightness
      else shapeBrightness in
    blur <- setColorAndGlow layerConfig brightness currentShadowBlur ;;
    fillSymbol layerSymbols (RandomSeed.r2 seed)
      (inject_Z iCellPos) (inject_Z (j * cellSize params + halfCell)) ;;
    ret blur
  else ret currentShadowBlur.

Definition renderPulsePattern : M unit :=
  let pulse := (Host.sin host (inject_Z (frame params) * 0.05) + 1) / 2 in
  let centerX := inject_Z (cols params) / 2 in
  let centerY := inject_Z (rows params) / 2 in
  let maxDist := Host.sqrt host (centerX * centerX + centerY * centerY) in
  setShadowColor layerConfig ;;
  forEachCell (pulseCell pulse centerX centerY maxDist).

End Renderers.
End RenderPatterns.

(* ================================================================= *)
(** ** [hooks/useCanvasRenderer.ts] *)

Module CanvasRenderer.
Import JS Render.
Open Scope Q_scope.
Open Scope string_scope.

Record CanvasSize : Type := {
  width : Z;
  height : Z
}.

(** [UseCanvasRendererParams].  [canvasReady] tells whether
    [canvasRef.current] is set and gives a 2D context; the [drops]
    member is the shared array of the rendering state. *)
Record UseCanvasRendererParams : Type := {
  canvasReady : bool;
  canvasSize : CanvasSize;
  layers : list Layer.t;
  randomSeeds : list RandomSeed.t;
  cellSize : Z
}.

(** [Math.floor(a / b)] for two integers.  [b] is a cell size, which
    the configuration boundary keeps positive; at [b = 0] the source
    has an infinity the model does not carry. *)
Definition floorDiv (a b : Z) : Z := Qfloor (inject_Z a / inject_Z b).

Section Hook.
Variable host : Host.t.
Variable params : UseCanvasRendererParams.

(** Paints one layer on the current (offscreen) context, which is
    assumed to be available. *)
Definition renderLayerToCanvas (layer : Layer.t) (frame : Z) : M unit :=
  let width := width (canvasSize params) in
  let height := height (canvasSize params) in
  if (width =? 0)%Z || (height =? 0)%Z then ret tt
  else
    let layerConfig := Layer.config layer in
    let cols := floorDiv width (LayerConfig.cellSize layerConfig) in
    let rows := floorDiv height (LayerConfig.cellSize layerConfig) in
    emit (Canvas.ClearRect 0 0 width height) ;;
    emit (Canvas.SetFont
            (toString10 (LayerConfig.cellSize layerConfig - 2) ++ "px monospace")) ;;
    emit (Canvas.SetTextAlign "center") ;;
    emit (Canvas.SetTextBaseline "middle") ;;
    let renderParams :=
      {| RenderPatterns.layer := layer;
         RenderPatterns.cols := cols;
         RenderPatterns.rows := rows;
         RenderPatterns.cellSize := LayerConfig.cellSize layerConfig;
         RenderPatterns.frame := frame;
         RenderPatterns.randomSeeds := randomSeeds params |} in
    let pattern := LayerConfig.pattern layerConfig in
    if String.eqb pattern "rain" then RenderPatterns.renderRainPattern renderParams
    else if String.eqb pattern "wave" then RenderPatterns.renderWavePattern host renderParams
    else if String.eqb pattern "static" then RenderPatterns.renderStaticPattern renderParams
    else if String.eqb pattern "glitch" then RenderPatterns.renderGlitchPattern host renderParams
    else if String.eqb pattern "pulse" then RenderPatterns.renderPulsePattern host renderParams
    else ret tt.

(** The body of the first [forEach] of [renderFrame]. *)
Definition compositeLayer (frame : Z) (layer : Layer.t) : M unit :=
  offscreenCanvas <- onNewCanvas (renderLayerToCanvas layer frame) ;;
  emit (Canvas.SetGlobalAlpha (Layer.opacity layer)) ;;
  emit (Canvas.DrawImage offscreenCanvas 0 0) ;;
  emit (Canvas.SetGlobalAlpha 1).

(** The body of the second [forEach] of [renderFrame]. *)
Definition updateDrop (drop : Drop.t) : M Drop.t :=
  let rows := floorDiv (height (canvasSize params)) (cellSize params) in
  let y := Drop.y drop + Drop.speed drop * 0.3 in
  if gtb y (inject_Z rows + Drop.length drop) then
    r <- random host ;;
    ret {| Drop.x := Drop.x drop;
           Drop.y := - Drop.length drop;
           Drop.speed := 0.5 + r * 1.5;
           Drop.length := Drop.length drop |}
  else
    ret {| Drop.x := Drop.x drop;
           Drop.y := y;
           Drop.speed := Drop.speed drop;
           Drop.length := Drop.length drop |}.

(** [drops.forEach(...)] of [renderFrame]: every drop is updated in
    place, in order. *)
Definition updateDrops : M unit :=
  drops <- getDrops ;;
  drops' <- mapM updateDrop drops ;;
  setDrops drops'.

(** The colour the main canvas is cleared with. *)
Definition backgroundOf (layers : list Layer.t) : string :=
  orDefault (option_map (fun bottomLayer => LayerConfig.bgColor (Layer.config bottomLayer))
               (hd_error layers))
    "#0a0e27".

(** [renderFrame] up to and including the first [forEach]: the main
    canvas is cleared and every visible layer is painted on a canvas of
    its own and merged. *)
Definition paintLayers (frame : Z) : M unit :=
  let width := width (canvasSize params) in
  let height := height (canvasSize params) in
  emit (Canvas.SetFillStyle (backgroundOf (layers params))) ;;
  emit (Canvas.FillRect 0 0 width height) ;;
  let visibleLayers := filter Layer.visible (layers params) in
  forEach visibleLayers (fun layer _ => compositeLayer frame layer) tt.

Definition renderFrame (frame : Z) : M unit :=
  if negb (canvasReady params) then ret tt
  else
    let width := width (canvasSize params) in
    let height := height (canvasSize params) in
    if (width =? 0)%Z || (height =? 0)%Z then ret tt
    else
      paintLayers frame ;;
      updateDrops.

End Hook.
(** The same hook parameters with another layer list. *)
Definition withLayers (params : UseCanvasRendererParams) (ls : list Layer.t)
    : UseCanvasRendererParams :=
  {| canvasReady := canvasReady params;
     canvasSize := canvasSize params;
     layers := ls;
     randomSeeds := randomSeeds params;
     cellSize := cellSize params |}.

End CanvasRenderer.

(* ================================================================= *)
(** ** [hooks/useDrops.ts] *)

Module DropsHook.
Import JS.
Open Scope Q_scope.

(** A computation that calls [Math.random]: from the number of calls
    made so far to a value and the number of calls made then. *)
Definition R (A : Type) : Type := nat -> A * nat.

Definition ret {A : Type} (a : A) : R A := fun n => (a, n).

Definition bind {A B : Type} (m : R A) (k : A -> R B) : R B :=
  fun n => let (a, n') := m n in k a n'.

(** [Math.random()]. *)
Definition random (host : Host.t) : R Q := fun n => (Host.random host n, S n).

(** [arr.push(f(i))] for [i] in the list, in order. *)
Fixpoint pushAll {A B : Type} (f : A -> R B) (l : list A) : R (list B) :=
  match l with
  | [] => ret []
  | a :: l' => bind (f a) (fun b => bind (pushAll f l') (fun bs => ret (b :: bs)))
  end.

(** The two refs of the hook. *)
Record refs : Type := {
  dropsRef : list Drop.t;
  randomSeedsRef : list RandomSeed.t
}.

Section Hook.
Variable host : Host.t.

(** The object pushed for column [i]; its members are evaluated in the
    order written. *)
Definition newDrop (rows : Z) (i : Z) : R Drop.t :=
  bind (random host) (fun r1 =>
  bind (random host) (fun r2 =>
  bind (random host) (fun r3 =>
  ret {| Drop.x := i;
         Drop.y := r1 * inject_Z rows;
         Drop.speed := 0.5 + r2 * 1.5;
         Drop.length := 10 + r3 * 20 |}))).

Definition newSeed (i : Z) : R RandomSeed.t :=
  bind (random host) (fun r1 =>
  bind (random host) (fun r2 =>
  bind (random host) (fun r3 =>
  ret {| RandomSeed.r1 := r1; RandomSeed.r2 := r2; RandomSeed.r3 := r3 |}))).

(** The effect of the hook, run when [width], [height] or [cellSize]
    changes. *)
Definition initialise (width height cellSize : Z) (current : refs) : R refs :=
  if (width =? 0)%Z || (height =? 0)%Z then ret current
  else
    let cols := CanvasRenderer.floorDiv width cellSize in
    let rows := CanvasRenderer.floorDiv height cellSize in
    bind (pushAll (newDrop rows) (Render.range cols)) (fun drops =>
    bind (pushAll newSeed (Render.range (cols * rows))) (fun seeds =>
    ret {| dropsRef := drops; randomSeedsRef := seeds |})).

End Hook.
End DropsHook.

(* ================================================================= *)
(** ** [hooks/useImageUpload.ts] *)

Module ImageUpload.
Import JS.
Open Scope Q_scope.

(** The brightness pushed for pixel [(x, y)] of image data [data] of a
    canvas [width] wide: [None] stands for NaN, which arises when a
    channel read is [undefined]. *)
Definition pixelBrightness (data : list Z) (width x y : Z) : option Q :=
  let i := ((y * width + x) * 4)%Z in
  let r := index data (Some i) in
  let g := index data (Some (i + 1)%Z) in
  let b := index data (Some (i + 2)%Z) in
  let a := index data (Some (i + 3)%Z) in
  match a with
  | Some 0%Z => Some 0
  | _ =>
    match r, g, b with
    | Some r', Some g', Some b' => Some (inject_Z (r' + g' + b') / 3 / 255)
    | _, _, _ => None
    end
  end.

(** All the values, when none is NaN. *)
Fixpoint allNumbers {A : Type} (l : list (option A)) : option (list A) :=
  match l with
  | [] => Some []
  | Some a :: l' => option_map (cons a) (allNumbers l')
  | None :: _ => None
  end.

(** The two loops of [processShapeImage] over the image data of a
    canvas of [width] by [height] pixels. *)
Definition brightnessMapOf (width height : Z) (data : list Z) : option (list (list Q)) :=
  allNumbers
    (map (fun y => allNumbers (map (fun x => pixelBrightness data width x y)
                                 (Render.range width)))
         (Render.range height)).

End ImageUpload.

(* ================================================================= *)
(** ** [components/ControlPanel/SymbolControls.tsx] *)

Module SymbolControls.


End SymbolControls.

(* ================================================================= *)
(** ** [hooks/useLayerManager.ts] *)

Module LayerManager.
Open Scope string_scope.

(** The three pieces of React state of the hook.  A [Set<string>] is
    the list of its members in insertion order. *)
Record state : Type := {
  layers : list Layer.t;
  activeLayerId : string;
  expandedLayerIds : list string
}.

Definition createDefaultLayerConfig : LayerConfig.t := Constants.DEFAULT_LAYER_CONFIG.

Definition initial : state :=
  {| layers := [ {| Layer.id := "layer-1";
                    Layer.name := "Layer 1";
                    Layer.visible := true;
                    Layer.opacity := 1;
                    Layer.config := createDefaultLayerConfig;
                    Layer.shapeImage := None;
                    Layer.shapeData := None |} ];
     activeLayerId := "layer-1";
     expandedLayerIds := ["layer-1"] |}.

(** [new Set([...s, id])]. *)
Definition setAdd (s : list string) (id : string) : list string :=
  if existsb (String.eqb id) s then s else s ++ [id].

(** [s.delete(id)] on a copy of [s]. *)
Definition setDelete (s : list string) (id : string) : list string :=
  filter (fun e => negb (String.eqb e id)) s.


(** [now] is the value of [Date.now()] at the call. *)
Definition addLayer (now : Z) (st : state) : state :=
  if (3 <=? List.length (layers st))%nat then st
  else
    let newId := "layer-" ++ JS.toString10 now in
    let newLayer :=
      {| Layer.id := newId;
         Layer.name :=
           "Layer " ++ JS.toString10 (Z.of_nat (List.length (layers st)) + 1);
         Layer.visible := true;
         Layer.opacity := 1;
         Layer.config := createDefaultLayerConfig;
         Layer.shapeImage := None;
         Layer.shapeData := None |} in
    {| layers := layers st ++ [newLayer];
       activeLayerId := newId;
       expandedLayerIds := setAdd (expandedLayerIds st) newId |}.

(** [newLayers[0].id] throws when nothing is left; the state update
    made before it ([setLayers]) stands, the ones after it are not
    reached. *)
Definition removeLayer (layerId : string) (st : state) : JS.result unit * state :=
  if (List.length (layers st) =? 1)%nat then (JS.Ok tt, st)
  else
    let newLayers :=
      filter (fun l => negb (String.eqb (Layer.id l) layerId)) (layers st) in
    if String.eqb (activeLayerId st) layerId then
      match newLayers with
      | first :: _ =>
        (JS.Ok tt,
         {| layers := newLayers;
            activeLayerId := Layer.id first;
            expandedLayerIds := setDelete (expandedLayerIds st) layerId |})
      | [] =>
        (JS.Throw JS.TypeError,
         {| layers := newLayers;
            activeLayerId := activeLayerId st;
            expandedLayerIds := expandedLayerIds st |})
      end
    else
      (JS.Ok tt,
       {| layers := newLayers;
          activeLayerId := activeLayerId st;
          expandedLayerIds := setDelete (expandedLayerIds st) layerId |}).

Definition updateActiveLayerConfig (configUpdate : LayerConfig.partial)
    (st : state) : state :=
  {| layers :=
       map (fun layer =>
              if String.eqb (Layer.id layer) (activeLayerId st)
              then Layer.withConfig layer
                     (LayerConfig.spread (Layer.config layer) configUpdate)
              else layer)
           (layers st);
     activeLayerId := activeLayerId st;
     expandedLayerIds := expandedLayerIds st |}.


Definition updateLayerProperty (layerId : string) (updates : Layer.partial)
    (st : state) : state :=
  {| layers :=
       map (fun layer =>
              if String.eqb (Layer.id layer) layerId
              then Layer.spread layer updates
              else layer)
           (layers st);
     activeLayerId := activeLayerId st;
     expandedLayerIds := expandedLayerIds st |}.

(** When the first [splice] removes nothing, [removed] is [undefined]
    and the second one puts it in the array, which is then no list of
    layers any more: [None]. *)
Definition reorderLayers (fromIndex toIndex : Z) (st : state) : option state :=
  let (removed, newLayers) := JS.spliceOut (layers st) fromIndex in
  match removed with
  | Some layer =>
    Some {| layers := JS.spliceIn newLayers toIndex layer;
            activeLayerId := activeLayerId st;
            expandedLayerIds := expandedLayerIds st |}
  | None => None
  end.

Definition toggleLayerExpand (layerId : string) (st : state) : state :=
  {| layers := layers st;
     activeLayerId := activeLayerId st;
     expandedLayerIds :=
       if existsb (String.eqb layerId) (expandedLayerIds st)
       then setDelete (expandedLayerIds st) layerId
       else (expandedLayerIds st ++ [layerId])%list |}.

End LayerManager.

(* ================================================================= *)
(** ** [components/ControlPanel/LayersSection.tsx] *)

Module LayersSection.

(** The [onDrop] handler of the row at [index], while the layer
    [draggedLayerId] is being dragged ([None]: nothing is). *)
Definition onDrop (draggedLayerId : option string) (index : Z)
    (st : LayerManager.state) : option LayerManager.state :=
  match draggedLayerId with
  | Some dragged =>
    let fromIndex :=
      JS.findIndex (fun l => String.eqb (Layer.id l) dragged)
        (LayerManager.layers st) in
    LayerManager.reorderLayers fromIndex index st
  | None => Some st
  end.

End LayersSection.

(* ================================================================= *)
(** ** [components/DitheredPatternGenerator.tsx] *)

Module PatternGenerator.

(** The callback [onImageUpload] hands to the image hook. *)
Definition shapeLoaded (img : Layer.HTMLImageElement) (brightnessMap : list (list Q))
    (st : LayerManager.state) : LayerManager.state :=
  LayerManager.updateLayerProperty (LayerManager.activeLayerId st)
    {| Layer.p_id := None; Layer.p_name := None; Layer.p_visible := None;
       Layer.p_opacity := None; Layer.p_config := None;
       Layer.p_shapeImage := Some (Some img);
       Layer.p_shapeData := Some (Some brightnessMap) |}
    st.

Definition clearShape (st : LayerManager.state) : LayerManager.state :=
  LayerManager.updateLayerProperty (LayerManager.activeLayerId st)
    {| Layer.p_id := None; Layer.p_name := None; Layer.p_visible := None;
       Layer.p_opacity := None; Layer.p_config := None;
       Layer.p_shapeImage := Some None;
       Layer.p_shapeData := Some None |}
    st.

End PatternGenerator.

(* ================================================================= *)
(** ** [hooks/useCanvasAnimation.ts] *)

Module CanvasAnimation.

(** The state and the refs of the hook.  Time stamps are in
    milliseconds. *)
Record state : Type := {
  isAnimating : bool;
  currentFrame : Z;
  frameCounterRef : Z;
  lastFrameTimeRef : Q
}.

Definition initial (startPlaying : bool) : state :=
  {| isAnimating := startPlaying;
     currentFrame := 0;
     frameCounterRef := 0;
     lastFrameTimeRef := 0 |}.

Definition toggleAnimation (st : state) : state :=
  {| isAnimating := negb (isAnimating st);
     currentFrame := currentFrame st;
     frameCounterRef := frameCounterRef st;
     lastFrameTimeRef := lastFrameTimeRef st |}.

Section Hook.
(** What [onRenderFrame] acts on, and the callback itself. *)
Variable World : Type.
Variable onRenderFrame : Z -> World -> World.
Variable animationSpeed : Z.

Definition stepFrame (direction : Z) (sw : state * World) : state * World :=
  let (st, w) := sw in
  let counter := (frameCounterRef st + direction)%Z in
  ({| isAnimating := isAnimating st;
      currentFrame := counter;
      frameCounterRef := counter;
      lastFrameTimeRef := lastFrameTimeRef st |},
   onRenderFrame counter w).

(** One call of [animate] by the host while the effect is active. *)
Definition animate (timestamp : Q) (sw : state * World) : state * World :=
  let (st, w) := sw in
  let elapsed := (timestamp - lastFrameTimeRef st)%Q in
  if JS.geb elapsed (inject_Z animationSpeed) then
    let counter := (frameCounterRef st + 1)%Z in
    ({| isAnimating := isAnimating st;
        currentFrame :=
          if (Z.rem counter 10 =? 0)%Z then counter else currentFrame st;
        frameCounterRef := counter;
        lastFrameTimeRef := timestamp |},
     onRenderFrame counter w)
  else sw.

End Hook.
End CanvasAnimation.

(* ================================================================= *)
(** ** The design document's own terms *)

Module Design.
Open Scope Q_scope.

(** A brightness grid: at least one row, every row as long as the
    first, every entry within [0,1]. *)
Definition brightnessGrid (g : list (list Q)) : Prop :=
  g <> []
  /\ Forall (fun row => List.length row = List.length (hd [] g)) g
  /\ Forall (Forall (fun b => 0 <= b <= 1)) g.

(** A layer's shape data is absent or a brightness grid. *)
Definition shapeOk (layer : Layer.t) : Prop :=
  match Layer.shapeData layer with
  | None => True
  | Some g => brightnessGrid g
  end.

(** The brightness under cell [(x, y)] when the grid [g] is centred in
    a [cols] by [rows] cell grid with offset
    [floor((gridDim - shapeDim) / 2)]; [None] outside the shape. *)
Definition centredBrightness (g : list (list Q)) (x y cols rows : Z) : option Q :=
  let shapeWidth := Z.of_nat (List.length (hd [] g)) in
  let shapeHeight := Z.of_nat (List.length g) in
  let offsetX := ((cols - shapeWidth) / 2)%Z in
  let offsetY := ((rows - shapeHeight) / 2)%Z in
  if ((offsetX <=? x) && (x <? offsetX + shapeWidth)
      && (offsetY <=? y) && (y <? offsetY + shapeHeight))%Z
  then nth_error (nth (Z.to_nat (y - offsetY)) g []) (Z.to_nat (x - offsetX))
  else None.

(** The resolver as section 4.2 words it. *)
Definition shapeInfluenceResolver (x y cols rows : Z) (layer : Layer.t) : Q :=
  let influence := LayerConfig.shapeInfluence (Layer.config layer) in
  match Layer.shapeData layer with
  | None => 1
  | Some g =>
    match centredBrightness g x y cols rows with
    | None => 1 - influence
    | Some brightness => brightness * influence + (1 - influence)
    end
  end.

(** A layer list of the data model: one to three layers, whose
    identifiers are unique. *)
Definition wellFormed (st : LayerManager.state) : Prop :=
  (1 <= List.length (LayerManager.layers st) <= 3)%nat
  /\ NoDup (map Layer.id (LayerManager.layers st)).

Definition remaining (layerId : string) (ls : list Layer.t) : list Layer.t :=
  filter (fun l => negb (String.eqb (Layer.id l) layerId)) ls.

(** Adding and removing layers, one operation after the other. *)
Inductive layerOp : Type :=
| AddLayer (now : Z)
| RemoveLayer (layerId : string).

Definition applyOp (o : layerOp) (st : LayerManager.state) : LayerManager.state :=
  match o with
  | AddLayer now => LayerManager.addLayer now st
  | RemoveLayer layerId => snd (LayerManager.removeLayer layerId st)
  end.

(** The identifier an [AddLayer] makes from the clock is not in use. *)
Definition freshOp (o : layerOp) (st : LayerManager.state) : Prop :=
  match o with
  | AddLayer now =>
    ~ In ("layer-" ++ JS.toString10 now)%string
         (map Layer.id (LayerManager.layers st))
  | RemoveLayer _ => True
  end.

Fixpoint applyOps (ops : list layerOp) (st : LayerManager.state) : LayerManager.state :=
  match ops with
  | [] => st
  | o :: ops' => applyOps ops' (applyOp o st)
  end.

Fixpoint freshOps (ops : list layerOp) (st : LayerManager.state) : Prop :=
  match ops with
  | [] => True
  | o :: ops' => freshOp o st /\ freshOps ops' (applyOp o st)
  end.

(** A field named in an update takes the value given; a field that is
    not named keeps its own. *)
Definition namedOrKept {A : Type} (named : option A) (old new : A) : Prop :=
  match named with
  | Some v => new = v
  | None => new = old
  end.

(** Configuration [c'] differs from [c] in the fields [u] names only. *)
Definition onlyNamedFieldsChange (u : LayerConfig.partial) (c c' : LayerConfig.t) : Prop :=
  namedOrKept (LayerConfig.p_symbolSet u) (LayerConfig.symbolSet c) (LayerConfig.symbolSet c')
  /\ namedOrKept (LayerConfig.p_density u) (LayerConfig.density c) (LayerConfig.density c')
  /\ namedOrKept (LayerConfig.p_cellSize u) (LayerConfig.cellSize c) (LayerConfig.cellSize c')
  /\ namedOrKept (LayerConfig.p_color u) (LayerConfig.color c) (LayerConfig.color c')
  /\ namedOrKept (LayerConfig.p_bgColor u) (LayerConfig.bgColor c) (LayerConfig.bgColor c')
  /\ namedOrKept (LayerConfig.p_animationSpeed u) (LayerConfig.animationSpeed c)
       (LayerConfig.animationSpeed c')
  /\ namedOrKept (LayerConfig.p_pattern u) (LayerConfig.pattern c) (LayerConfig.pattern c')
  /\ namedOrKept (LayerConfig.p_gradient u) (LayerConfig.gradient c) (LayerConfig.gradient c')
  /\ namedOrKept (LayerConfig.p_glowEffect u) (LayerConfig.glowEffect c)
       (LayerConfig.glowEffect c')
  /\ namedOrKept (LayerConfig.p_shapeInfluence u) (LayerConfig.shapeInfluence c)
       (LayerConfig.shapeInfluence c')
  /\ namedOrKept (LayerConfig.p_gradientStrength u) (LayerConfig.gradientStrength c)
       (LayerConfig.gradientStrength c')
  /\ namedOrKept (LayerConfig.p_glowIntensity u) (LayerConfig.glowIntensity c)
       (LayerConfig.glowIntensity c')
  /\ namedOrKept (LayerConfig.p_glowRadius u) (LayerConfig.glowRadius c)
       (LayerConfig.glowRadius c').

(** The callback that only records the frame numbers it is called
    with. *)
Definition recordCall (frame : Z) (calls : list Z) : list Z := calls ++ [frame].

(** The mutation rule of section 4.4 for one drop on a grid of [rows]
    rows: [y] advances by [speed * 0.3]; past [rows + length] it is
    reset to [-length] with a new speed in [0.5, 2.0]. *)
Definition dropAdvanced (rows : Z) (d d' : Drop.t) : Prop :=
  Drop.x d' = Drop.x d
  /\ Drop.length d' = Drop.length d
  /\ (inject_Z rows + Drop.length d < Drop.y d + Drop.speed d * 0.3 ->
      Drop.y d' = - Drop.length d /\ 0.5 <= Drop.speed d' <= 2.0)
  /\ (Drop.y d + Drop.speed d * 0.3 <= inject_Z rows + Drop.length d ->
      Drop.y d' = Drop.y d + Drop.speed d * 0.3 /\ Drop.speed d' = Drop.speed d).

(** The brightness of a drawn wave cell as the table of section 4.5
    gives it (gradient on). *)
Definition waveBrightnessAsStated (waveAlpha shapeInfluence gradientStrength : Q) : Q :=
  waveAlpha * gradientStrength + (1 - gradientStrength) * shapeInfluence.

(** A text drawn by a renderer sits at the centre of a cell of the
    grid, with offset 0 in both directions. *)
Definition atCellCentre (params : RenderPatterns.RenderPatternParams)
    (o : Canvas.op) : Prop :=
  match o with
  | Canvas.FillText _ px py =>
    exists i j : Z,
      (0 <= i < RenderPatterns.cols params)%Z
      /\ (0 <= j < RenderPatterns.rows params)%Z
      /\ px = inject_Z (i * RenderPatterns.cellSize params
                        + RenderPatterns.cellSize params / 2) + 0
      /\ py = inject_Z (j * RenderPatterns.cellSize params
                        + RenderPatterns.cellSize params / 2) + 0
  | _ => True
  end.

(** [m] leaves the drop array and the random source as they are. *)
Definition keepsDrops {A : Type} (m : Render.M A) : Prop :=
  forall s : Render.state,
    Render.drops (snd (m s)) = Render.drops s
    /\ Render.randomCalls (snd (m s)) = Render.randomCalls s.

(** [m] only adds to the log of the current context, and what it adds
    satisfies [P]. *)
Definition paintsOnly {A : Type} (P : Canvas.op -> Prop) (m : Render.M A) : Prop :=
  forall s : Render.state,
    exists painted : Canvas.log,
      Render.ctx (snd (m s)) = Render.ctx s ++ painted /\ Forall P painted.

(** The layer list with [visible = false] on the layer at index [i]. *)
Fixpoint hideAt (i : nat) (ls : list Layer.t) : list Layer.t :=
  match ls, i with
  | [], _ => []
  | l :: ls', O => Layer.withVisible l false :: ls'
  | l :: ls', S i' => l :: hideAt i' ls'
  end.

(** The layer list without the layer at index [i]. *)
Fixpoint removeAt (i : nat) (ls : list Layer.t) : list Layer.t :=
  match ls, i with
  | [], _ => []
  | _ :: ls', O => ls'
  | l :: ls', S i' => l :: removeAt i' ls'
  end.

(** [m] returns normally from every state. *)
Definition completes {A : Type} (m : Render.M A) : Prop :=
  forall s : Render.state,
    exists (a : A) (s' : Render.state), m s = (JS.Ok a, s').

(** Inputs on which no renderer throws: a seed table that is not
    empty, a frame that is not negative, shape data that is absent or
    a brightness grid, and drops in columns that are not negative. *)
Definition renderable (params : CanvasRenderer.UseCanvasRendererParams)
    (frame : Z) (s : Render.state) : Prop :=
  CanvasRenderer.randomSeeds params <> []
  /\ (0 <= frame)%Z
  /\ Forall shapeOk (CanvasRenderer.layers params)
  /\ Forall (fun d => (0 <= Drop.x d)%Z) (Render.drops s).

(** The active identifier is the identifier of a layer of the list. *)
Definition activeExists (st : LayerManager.state) : Prop :=
  In (LayerManager.activeLayerId st) (map Layer.id (LayerManager.layers st)).

(** The host calling [animate] at each of the [timestamps], in order,
    while the animation effect is active. *)
Fixpoint animateAt (World : Type) (onRenderFrame : Z -> World -> World)
    (animationSpeed : Z) (timestamps : list Q)
    (sw : CanvasAnimation.state * World) : CanvasAnimation.state * World :=
  match timestamps with
  | [] => sw
  | timestamp :: later =>
    animateAt onRenderFrame animationSpeed later
      (CanvasAnimation.animate onRenderFrame animationSpeed timestamp sw)
  end.

(** The frame shown is not ahead of the frame counter, and no multiple
    of ten lies between them. *)
Definition displayInStep (st : CanvasAnimation.state) : Prop :=
  (0 <= CanvasAnimation.frameCounterRef st - CanvasAnimation.currentFrame st
   <= CanvasAnimation.frameCounterRef st mod 10)%Z.

(** The number a string of lower-case hexadecimal digits stands for. *)
Definition hexValue (s : string) : option Z :=
  option_map Z.of_hex_int (HexadecimalString.NilZero.int_of_string s).

(** The brightness of pixel [(x, y)] of RGBA image data of a canvas
    [width] wide: the mean of red, green and blue over 255, and 0 for a
    pixel whose alpha is 0. *)
Definition pixelOf (data : list Z) (width x y : Z) : Q :=
  let i := Z.to_nat ((y * width + x) * 4) in
  if (nth (i + 3) data 0 =? 0)%Z then 0
  else inject_Z (nth i data 0 + nth (i + 1) data 0 + nth (i + 2) data 0)%Z / 3 / 255.

(** A drop as the drops hook makes it for a grid of [rows] rows. *)
Definition freshDrop (rows : Z) (d : Drop.t) : Prop :=
  0 <= Drop.y d <= inject_Z rows
  /\ 0.5 <= Drop.speed d <= 2
  /\ 10 <= Drop.length d <= 30.

(** A seed whose three components are within [0,1). *)
Definition unitSeed (seed : RandomSeed.t) : Prop :=
  (0 <= RandomSeed.r1 seed /\ RandomSeed.r1 seed < 1)
  /\ (0 <= RandomSeed.r2 seed /\ RandomSeed.r2 seed < 1)
  /\ (0 <= RandomSeed.r3 seed /\ RandomSeed.r3 seed < 1).

(** Composite passes for the frames of the list, one after the other;
    a pass that throws ends the run. *)
Fixpoint renderFrames (host : Host.t) (params : CanvasRenderer.UseCanvasRendererParams)
    (frames : list Z) : Render.M unit :=
  match frames with
  | [] => Render.ret tt
  | frame :: later =>
    Render.bind (CanvasRenderer.renderFrame host params frame)
      (fun _ => renderFrames host params later)
  end.

(** What a pattern renderer may ask of the context: fill style,
    shadow colour, shadow blur, and a text at the centre of a cell of
    the grid. *)
Definition cellText (params : RenderPatterns.RenderPatternParams)
    (o : Canvas.op) : Prop :=
  match o with
  | Canvas.SetFillStyle _ | Canvas.SetShadowColor _ | Canvas.SetShadowBlur _ => True
  | Canvas.FillText _ px py =>
    exists i j : Z,
      (0 <= i < RenderPatterns.cols params)%Z
      /\ (0 <= j < RenderPatterns.rows params)%Z
      /\ px = inject_Z (i * RenderPatterns.cellSize params
                        + RenderPatterns.cellSize params / 2)
      /\ py = inject_Z (j * RenderPatterns.cellSize params
                        + RenderPatterns.cellSize params / 2)
  | _ => False
  end.

(** What the rain renderer may ask of the context, given the drops: a
    fill style whose alpha is that of a brightness above 0.1, shadow
    colour, shadow blur, and a text in the column of a drop and in a
    row of the grid. *)
Definition rainText (params : RenderPatterns.RenderPatternParams)
    (drops : list Drop.t) (o : Canvas.op) : Prop :=
  match o with
  | Canvas.SetFillStyle style =>
    exists brightness : Q,
      0.1 < brightness
      /\ style = (LayerConfig.color (Layer.config (RenderPatterns.layer params))
                  ++ ColorUtils.brightnessToHex brightness)%string
  | Canvas.SetShadowColor _ | Canvas.SetShadowBlur _ => True
  | Canvas.FillText _ px py =>
    exists (drop : Drop.t) (row : Z),
      In drop drops
      /\ (0 <= row < RenderPatterns.rows params)%Z
      /\ px = inject_Z (Drop.x drop * RenderPatterns.cellSize params
                        + RenderPatterns.cellSize params / 2)
      /\ py = inject_Z (row * RenderPatterns.cellSize params
                        + RenderPatterns.cellSize params / 2)
  | _ => False
  end.

Definition isText (o : Canvas.op) : bool :=
  match o with
  | Canvas.FillText _ _ _ => true
  | _ => false
  end.

(** The number of texts drawn in a log. *)
Definition texts (l : Canvas.log) : nat := List.length (filter isText l).

(** [m] only adds to the log, at most [n] texts. *)
Definition paintsAtMost {A : Type} (n : nat) (m : Render.M A) : Prop :=
  forall s : Render.state,
    exists painted : Canvas.log,
      Render.ctx (snd (m s)) = Render.ctx s ++ painted /\ (texts painted <= n)%nat.

(** [m] returns normally, leaves drops and random source alone, and
    adds to the log exactly [n] texts and only operations that satisfy
    [P]. *)
Definition paintsExactly {A : Type} (n : nat) (P : Canvas.op -> Prop)
    (m : Render.M A) : Prop :=
  forall s : Render.state,
    exists (a : A) (painted : Canvas.log),
      m s = (JS.Ok a, {| Render.ctx := Render.ctx s ++ painted;
                         Render.drops := Render.drops s;
                         Render.randomCalls := Render.randomCalls s |})
      /\ texts painted = n
      /\ Forall P painted.

(** A cell text, or a fill style of full brightness. *)
Definition litText (params : RenderPatterns.RenderPatternParams)
    (o : Canvas.op) : Prop :=
  cellText params o
  /\ match o with
     | Canvas.SetFillStyle style =>
       style = (LayerConfig.color (Layer.config (RenderPatterns.layer params))
                ++ "ff")%string
     | _ => True
     end.

(** [m] throws a [TypeError] whatever the state. *)
Definition throwsTypeError {A : Type} (m : Render.M A) : Prop :=
  forall s : Render.state, fst (m s) = JS.Throw JS.TypeError.

(** What painting [layer] on a surface of its own leaves on that
    surface, with the drops and the random source as they are in [s]. *)
Definition offscreen (host : Host.t) (params : CanvasRenderer.UseCanvasRendererParams)
    (frame : Z) (s : Render.state) (layer : Layer.t) : Canvas.log :=
  Render.ctx
    (snd (CanvasRenderer.renderLayerToCanvas host params layer frame
            {| Render.ctx := [];
               Render.drops := Render.drops s;
               Render.randomCalls := Render.randomCalls s |})).

(** What merging [layer] asks of the main context. *)
Definition merged (host : Host.t) (params : CanvasRenderer.UseCanvasRendererParams)
    (frame : Z) (s : Render.state) (layer : Layer.t) : Canvas.log :=
  [ Canvas.SetGlobalAlpha (Layer.opacity layer);
    Canvas.DrawImage (offscreen host params frame s layer) 0 0;
    Canvas.SetGlobalAlpha 1 ].

(** The drop leaves the trail zone of a grid of [rows] rows with its
    next step. *)
Definition wraps (rows : Z) (d : Drop.t) : bool :=
  JS.gtb (Drop.y d + Drop.speed d * 0.3) (inject_Z rows + Drop.length d).

(** Every cell size the compositor divides by is positive. *)
Definition cellSizesPositive (params : CanvasRenderer.UseCanvasRendererParams) : Prop :=
  (0 < CanvasRenderer.cellSize params)%Z
  /\ Forall (fun layer => (0 < LayerConfig.cellSize (Layer.config layer))%Z)
       (CanvasRenderer.layers params).

(** A fill style, if it is one, is the layer colour followed by the
    alpha of a brightness within [0,1]. *)
Definition alphaStyle (params : RenderPatterns.RenderPatternParams)
    (o : Canvas.op) : Prop :=
  match o with
  | Canvas.SetFillStyle style =>
    exists brightness : Q,
      0 <= brightness <= 1
      /\ style = (LayerConfig.color (Layer.config (RenderPatterns.layer params))
                  ++ ColorUtils.brightnessToHex brightness)%string
  | _ => True
  end.

(** A text, if it is one, sits within 15 pixels horizontally and 5
    pixels vertically of the centre of a cell of the grid. *)
Definition nearCellCentre (params : RenderPatterns.RenderPatternParams)
    (o : Canvas.op) : Prop :=
  match o with
  | Canvas.FillText _ px py =>
    exists i j : Z,
      (0 <= i < RenderPatterns.cols params)%Z
      /\ (0 <= j < RenderPatterns.rows params)%Z
      /\ -15 <= px - inject_Z (i * RenderPatterns.cellSize params
                               + RenderPatterns.cellSize params / 2) <= 15
      /\ -5 <= py - inject_Z (j * RenderPatterns.cellSize params
                              + RenderPatterns.cellSize params / 2) <= 5
  | _ => True
  end.

(** The same parameters at another frame. *)
Definition atFrame (params : RenderPatterns.RenderPatternParams) (frame : Z)
    : RenderPatterns.RenderPatternParams :=
  {| RenderPatterns.layer := RenderPatterns.layer params;
     RenderPatterns.cols := RenderPatterns.cols params;
     RenderPatterns.rows := RenderPatterns.rows params;
     RenderPatterns.cellSize := RenderPatterns.cellSize params;
     RenderPatterns.frame := frame;
     RenderPatterns.randomSeeds := RenderPatterns.randomSeeds params |}.

End Design.

(* ================================================================= *)
(** ** Concrete inputs *)

Module Sample.
Open Scope Q_scope.
Open Scope string_scope.

(** The layer the layer manager starts with. *)
Definition layer1 : Layer.t :=
  {| Layer.id := "layer-1";
     Layer.name := "Layer 1";
     Layer.visible := true;
     Layer.opacity := 1;
     Layer.config := Constants.DEFAULT_LAYER_CONFIG;
     Layer.shapeImage := None;
     Layer.shapeData := None |}.

(** A second layer, with a two by two brightness grid. *)
Definition layer2 : Layer.t :=
  {| Layer.id := "layer-1700000000000";
     Layer.name := "Layer 2";
     Layer.visible := true;
     Layer.opacity := 0.5;
     Layer.config := Constants.DEFAULT_LAYER_CONFIG;
     Layer.shapeImage := Some "data:image/png;base64,";
     Layer.shapeData := Some [[0; 0.5]; [1; 0.25]] |}.

Definition twoLayers : LayerManager.state :=
  {| LayerManager.layers := [layer1; layer2];
     LayerManager.activeLayerId := "layer-1";
     LayerManager.expandedLayerIds := ["layer-1"; "layer-1700000000000"] |}.

(** The update object [{ density: 0.25 }]. *)
Definition densityOnly : LayerConfig.partial :=
  {| LayerConfig.p_symbolSet := None;
     LayerConfig.p_density := Some 0.25;
     LayerConfig.p_cellSize := None;
     LayerConfig.p_color := None;
     LayerConfig.p_bgColor := None;
     LayerConfig.p_animationSpeed := None;
     LayerConfig.p_pattern := None;
     LayerConfig.p_gradient := None;
     LayerConfig.p_glowEffect := None;
     LayerConfig.p_shapeInfluence := None;
     LayerConfig.p_gradientStrength := None;
     LayerConfig.p_glowIntensity := None;
     LayerConfig.p_glowRadius := None |}.

(** A host whose functions are rational stand-ins: the first terms of
    the series of sine and cosine (exact at 0), an integer square root
    on hundredths, and a random source that stays within (0, 1/2]. *)
Definition host : Host.t :=
  {| Host.sin := fun x => x - x * x * x / 6;
     Host.cos := fun x => 1 - x * x / 2;
     Host.sqrt := fun x => inject_Z (Z.sqrt (Qfloor (x * 10000))) / 100;
     Host.random := fun n => 1 # Pos.of_succ_nat (S n) |}.

Definition config (pattern : string) : LayerConfig.t :=
  {| LayerConfig.symbolSet := "01";
     LayerConfig.density := 1;
     LayerConfig.cellSize := 12;
     LayerConfig.color := "#00ff9f";
     LayerConfig.bgColor := "#0a0e27";
     LayerConfig.animationSpeed := 50;
     LayerConfig.pattern := pattern;
     LayerConfig.gradient := true;
     LayerConfig.glowEffect := true;
     LayerConfig.shapeInfluence := 1;
     LayerConfig.gradientStrength := 1;
     LayerConfig.glowIntensity := 10;
     LayerConfig.glowRadius := 10 |}.

(** A layer whose shape is a single pixel of brightness one half. *)
Definition dimmed (pattern : string) : Layer.t :=
  {| Layer.id := "layer-2";
     Layer.name := "Layer 2";
     Layer.visible := true;
     Layer.opacity := 1;
     Layer.config := config pattern;
     Layer.shapeImage := Some "data:image/png;base64,";
     Layer.shapeData := Some [[0.5]] |}.

Definition seeds : list RandomSeed.t :=
  [ {| RandomSeed.r1 := 0; RandomSeed.r2 := 0.25; RandomSeed.r3 := 0.5 |} ].

(** A grid of a single cell, at frame [frame]. *)
Definition oneCell (pattern : string) (frame : Z) : RenderPatterns.RenderPatternParams :=
  {| RenderPatterns.layer := dimmed pattern;
     RenderPatterns.cols := 1;
     RenderPatterns.rows := 1;
     RenderPatterns.cellSize := 12;
     RenderPatterns.frame := frame;
     RenderPatterns.randomSeeds := seeds |}.

Definition blank : Render.state :=
  {| Render.ctx := []; Render.drops := []; Render.randomCalls := 0 |}.

(** A layer that differs from the first one in identifier, visibility
    and background colour. *)
Definition coloured (id : string) (visible : bool) (bgColor : string) : Layer.t :=
  {| Layer.id := id;
     Layer.name := "Layer";
     Layer.visible := visible;
     Layer.opacity := 1;
     Layer.config :=
       {| LayerConfig.symbolSet := "01";
          LayerConfig.density := 0.7;
          LayerConfig.cellSize := 12;
          LayerConfig.color := "#00ff9f";
          LayerConfig.bgColor := bgColor;
          LayerConfig.animationSpeed := 50;
          LayerConfig.pattern := "rain";
          LayerConfig.gradient := true;
          LayerConfig.glowEffect := true;
          LayerConfig.shapeInfluence := 0.8;
          LayerConfig.gradientStrength := 0.8;
          LayerConfig.glowIntensity := 10;
          LayerConfig.glowRadius := 10 |};
     Layer.shapeImage := None;
     Layer.shapeData := None |}.

Definition fourSeeds : list RandomSeed.t :=
  [ {| RandomSeed.r1 := 0; RandomSeed.r2 := 0.25; RandomSeed.r3 := 0.5 |};
    {| RandomSeed.r1 := 0.9; RandomSeed.r2 := 0.1; RandomSeed.r3 := 0.2 |};
    {| RandomSeed.r1 := 0.4; RandomSeed.r2 := 0.6; RandomSeed.r3 := 0.8 |};
    {| RandomSeed.r1 := 0.6; RandomSeed.r2 := 0.3; RandomSeed.r3 := 0.1 |} ].

(** A canvas of 24 by 24 pixels, that is two by two cells of 12. *)
Definition canvas (ls : list Layer.t) : CanvasRenderer.UseCanvasRendererParams :=
  {| CanvasRenderer.canvasReady := true;
     CanvasRenderer.canvasSize :=
       {| CanvasRenderer.width := 24; CanvasRenderer.height := 24 |};
     CanvasRenderer.layers := ls;
     CanvasRenderer.randomSeeds := fourSeeds;
     CanvasRenderer.cellSize := 12 |}.

(** Two drops: one in the grid, one about to leave it. *)
Definition raining : Render.state :=
  {| Render.ctx := [];
     Render.drops :=
       [ {| Drop.x := 0; Drop.y := 1.5; Drop.speed := 1; Drop.length := 10 |};
         {| Drop.x := 1; Drop.y := 21.5; Drop.speed := 2; Drop.length := 20 |} ];
     Render.randomCalls := 0 |}.

(** Three layers, the middle one active. *)
Definition threeLayers : LayerManager.state :=
  {| LayerManager.layers :=
       [coloured "a" true "#ff0000"; coloured "b" true "#00ff00";
        coloured "c" false "#0000ff"];
     LayerManager.activeLayerId := "b";
     LayerManager.expandedLayerIds := ["a"; "b"] |}.

(** A host whose sine and cosine stay within [-1,1] everywhere (the
    rational parametrisation of the circle) and whose square root
    stand-in is monotone. *)
Definition bounded : Host.t :=
  {| Host.sin := fun x => 2 * x / (1 + x * x);
     Host.cos := fun x => (1 - x * x) / (1 + x * x);
     Host.sqrt := fun x => x;
     Host.random := fun n => 1 # Pos.of_succ_nat (S n) |}.

(** A layer without shape and without gradient, at full density. *)
Definition solid : Layer.t :=
  {| Layer.id := "layer-3";
     Layer.name := "Layer 3";
     Layer.visible := true;
     Layer.opacity := 1;
     Layer.config :=
       {| LayerConfig.symbolSet := "01";
          LayerConfig.density := 1;
          LayerConfig.cellSize := 12;
          LayerConfig.color := "#00ff9f";
          LayerConfig.bgColor := "#0a0e27";
          LayerConfig.animationSpeed := 50;
          LayerConfig.pattern := "static";
          LayerConfig.gradient := false;
          LayerConfig.glowEffect := false;
          LayerConfig.shapeInfluence := 0.8;
          LayerConfig.gradientStrength := 0.8;
          LayerConfig.glowIntensity := 10;
          LayerConfig.glowRadius := 10 |};
     Layer.shapeImage := None;
     Layer.shapeData := None |}.

(** A grid of two by two cells for the solid layer. *)
Definition twoByTwo (frame : Z) : RenderPatterns.RenderPatternParams :=
  {| RenderPatterns.layer := solid;
     RenderPatterns.cols := 2;
     RenderPatterns.rows := 2;
     RenderPatterns.cellSize := 12;
     RenderPatterns.frame := frame;
     RenderPatterns.randomSeeds := fourSeeds |}.

(** A grid of a single cell with an empty seed table. *)
Definition noSeeds (pattern : string) : RenderPatterns.RenderPatternParams :=
  {| RenderPatterns.layer := dimmed pattern;
     RenderPatterns.cols := 1;
     RenderPatterns.rows := 1;
     RenderPatterns.cellSize := 12;
     RenderPatterns.frame := 0;
     RenderPatterns.randomSeeds := [] |}.

End Sample.

(* ================================================================= *)
(** * Properties *)

(** ** Comparisons of numbers *)

Section Numbers.
Import JS.
Open Scope Q_scope.

Lemma ltb_lt (a b : Q) : ltb a b = true <-> a < b.
Proof.
  unfold ltb. rewrite negb_true_iff, <- not_true_iff_false, Qle_bool_iff.
  split; [apply Qnot_le_lt | apply Qlt_not_le].
Qed.

Lemma ltb_ge (a b : Q) : ltb a b = false <-> b <= a.
Proof.
  unfold ltb. rewrite negb_false_iff. apply Qle_bool_iff.
Qed.

End Numbers.

(** The random source of the sample host stays within [0,1). *)
Lemma sample_random_range (n : nat) : (0 <= Host.random Sample.host n < 1)%Q.
Proof.
  cbn [Host.random Sample.host]. unfold Qle, Qlt. cbn [Qnum Qden]. lia.
Qed.


(** ** The rendering monad *)

Section RenderFacts.
Import JS Render Design.
Open Scope render_scope.

Lemma bind_Ok (A B : Type) (m : M A) (k : A -> M B) (s s' : state) (a : A) :
  m s = (Ok a, s') -> bind m k s = k a s'.
Proof. intros H. unfold bind. rewrite H. reflexivity. Qed.

Lemma bind_Throw (A B : Type) (m : M A) (k : A -> M B) (s s' : state) (e : error) :
  m s = (Throw e, s') -> bind m k s = (Throw e, s').
Proof. intros H. unfold bind. rewrite H. reflexivity. Qed.

Lemma range_In (n i : Z) : In i (range n) <-> (0 <= i < n)%Z.
Proof.
  unfold range. rewrite in_map_iff. split.
  - intros (k & <- & Hk). apply in_seq in Hk. lia.
  - intros Hi. exists (Z.to_nat i). split; [lia |]. apply in_seq. lia.
Qed.

(** *** Frame: what leaves the drops alone *)

Lemma keepsDrops_ret (A : Type) (a : A) : keepsDrops (ret a).
Proof. intros s. split; reflexivity. Qed.

Lemma keepsDrops_throw (A : Type) (e : error) : keepsDrops (@throw A e).
Proof. intros s. split; reflexivity. Qed.

Lemma keepsDrops_lift (A : Type) (r : result A) : keepsDrops (lift r).
Proof. intros s. split; reflexivity. Qed.

Lemma keepsDrops_emit (o : Canvas.op) : keepsDrops (emit o).
Proof. intros s. split; reflexivity. Qed.

Lemma keepsDrops_getDrops : keepsDrops getDrops.
Proof. intros s. split; reflexivity. Qed.

Lemma keepsDrops_seedAt (seeds : list RandomSeed.t) (i : option Z) :
  keepsDrops (seedAt seeds i).
Proof. intros s. unfold seedAt. destruct (index seeds i); split; reflexivity. Qed.

Lemma keepsDrops_bind (A B : Type) (m : M A) (k : A -> M B) :
  keepsDrops m -> (forall a : A, keepsDrops (k a)) -> keepsDrops (bind m k).
Proof.
  intros Hm Hk s. unfold bind. specialize (Hm s).
  destruct (m s) as [[a | e] s1]; cbn [snd] in *.
  - destruct Hm as [Hd1 Hr1]. destruct (Hk a s1) as [Hd Hr]. split; congruence.
  - exact Hm.
Qed.

Lemma keepsDrops_forEach (A B : Type) (l : list A) (body : A -> B -> M B) :
  (forall (a : A) (b : B), keepsDrops (body a b)) ->
  forall acc : B, keepsDrops (forEach l body acc).
Proof.
  intros Hbody. induction l as [| a l IH]; intros acc; cbn [forEach].
  - apply keepsDrops_ret.
  - apply keepsDrops_bind; [apply Hbody | exact IH].
Qed.

Lemma keepsDrops_onNewCanvas (m : M unit) : keepsDrops m -> keepsDrops (onNewCanvas m).
Proof.
  intros Hm s. unfold onNewCanvas.
  specialize (Hm {| ctx := []; drops := drops s; randomCalls := randomCalls s |}).
  destruct (m _) as [[u | e] s1]; cbn [snd drops randomCalls] in *; exact Hm.
Qed.

(** *** Painting: what a computation adds to the log *)

Lemma paintsOnly_ret (A : Type) (P : Canvas.op -> Prop) (a : A) : paintsOnly P (ret a).
Proof. intros s. exists []. split; [symmetry; apply app_nil_r | constructor]. Qed.

Lemma paintsOnly_throw (A : Type) (P : Canvas.op -> Prop) (e : error) :
  paintsOnly P (@throw A e).
Proof. intros s. exists []. split; [symmetry; apply app_nil_r | constructor]. Qed.

Lemma paintsOnly_lift (A : Type) (P : Canvas.op -> Prop) (r : result A) :
  paintsOnly P (lift r).
Proof. intros s. exists []. split; [symmetry; apply app_nil_r | constructor]. Qed.

Lemma paintsOnly_seedAt (P : Canvas.op -> Prop) (seeds : list RandomSeed.t)
    (i : option Z) :
  paintsOnly P (seedAt seeds i).
Proof.
  unfold seedAt. destruct (index seeds i); [apply paintsOnly_ret | apply paintsOnly_throw].
Qed.

Lemma paintsOnly_emit (P : Canvas.op -> Prop) (o : Canvas.op) :
  P o -> paintsOnly P (emit o).
Proof. intros Ho s. exists [o]. split; [reflexivity | constructor; [exact Ho | constructor]]. Qed.

Lemma paintsOnly_bind (A B : Type) (P : Canvas.op -> Prop) (m : M A) (k : A -> M B) :
  paintsOnly P m -> (forall a : A, paintsOnly P (k a)) -> paintsOnly P (bind m k).
Proof.
  intros Hm Hk s. unfold bind. destruct (Hm s) as (p1 & Hc1 & Hp1).
  destruct (m s) as [[a | e] s1]; cbn [snd] in *.
  - destruct (Hk a s1) as (p2 & Hc2 & Hp2).
    exists (p1 ++ p2). split; [rewrite Hc2, Hc1, app_assoc; reflexivity |].
    apply Forall_app. split; assumption.
  - exists p1. split; assumption.
Qed.

(** The same, when the values [m] can return are known to satisfy [R]. *)
Lemma paintsOnly_bind_val (A B : Type) (P : Canvas.op -> Prop) (R : A -> Prop)
    (m : M A) (k : A -> M B) :
  (forall (s s' : state) (a : A), m s = (Ok a, s') -> R a) ->
  paintsOnly P m -> (forall a : A, R a -> paintsOnly P (k a)) ->
  paintsOnly P (bind m k).
Proof.
  intros HR Hm Hk s. unfold bind. destruct (Hm s) as (p1 & Hc1 & Hp1).
  specialize (HR s).
  destruct (m s) as [[a | e] s1]; cbn [snd] in *.
  - destruct (Hk a (HR s1 a eq_refl) s1) as (p2 & Hc2 & Hp2).
    exists (p1 ++ p2). split; [rewrite Hc2, Hc1, app_assoc; reflexivity |].
    apply Forall_app. split; assumption.
  - exists p1. split; assumption.
Qed.

Lemma paintsOnly_forEach (A B : Type) (P : Canvas.op -> Prop) (l : list A)
    (body : A -> B -> M B) :
  (forall (a : A) (b : B), In a l -> paintsOnly P (body a b)) ->
  forall acc : B, paintsOnly P (forEach l body acc).
Proof.
  induction l as [| a l IH]; intros Hbody acc; cbn [forEach].
  - apply paintsOnly_ret.
  - apply paintsOnly_bind; [apply Hbody; left; reflexivity |].
    apply IH. intros a' b Hin. apply Hbody. right. exact Hin.
Qed.

(** *** Completion: what never throws *)

Lemma completes_ret (A : Type) (a : A) : completes (ret a).
Proof. intros s. exists a, s. reflexivity. Qed.

Lemma completes_emit (o : Canvas.op) : completes (emit o).
Proof. intros s. eexists. eexists. reflexivity. Qed.

Lemma completes_bind (A B : Type) (m : M A) (k : A -> M B) :
  completes m -> (forall a : A, completes (k a)) -> completes (bind m k).
Proof.
  intros Hm Hk s. destruct (Hm s) as (a & s1 & Hrun).
  rewrite (@bind_Ok _ _ _ _ _ _ _ Hrun). apply Hk.
Qed.

Lemma completes_forEach (A B : Type) (l : list A) (body : A -> B -> M B) :
  (forall (a : A) (b : B), In a l -> completes (body a b)) ->
  forall acc : B, completes (forEach l body acc).
Proof.
  induction l as [| a l IH]; intros Hbody acc; cbn [forEach].
  - apply completes_ret.
  - apply completes_bind; [apply Hbody; left; reflexivity |].
    apply IH. intros a' b Hin. apply Hbody. right. exact Hin.
Qed.

Lemma completes_onNewCanvas (m : M unit) : completes m -> completes (onNewCanvas m).
Proof.
  intros Hm s. unfold onNewCanvas.
  destruct (Hm {| ctx := []; drops := drops s; randomCalls := randomCalls s |})
    as (u & s1 & Hrun).
  rewrite Hrun. eexists. eexists. reflexivity.
Qed.

(** A remainder of a non-negative number by the length of a table that
    is not empty is an index of the table. *)
Lemma rem_in_table (A : Type) (table : list A) (n : Z) :
  table <> [] -> (0 <= n)%Z ->
  exists r : Z,
    rem (Some n) (Z.of_nat (List.length table)) = Some r
    /\ (0 <= r < Z.of_nat (List.length table))%Z.
Proof.
  intros Hne Hn. unfold rem.
  assert (Hlen : (0 < Z.of_nat (List.length table))%Z).
  { destruct table; [congruence | cbn [List.length]; lia]. }
  destruct (Z.eqb_spec (Z.of_nat (List.length table)) 0); [lia |].
  exists (Z.rem n (Z.of_nat (List.length table))). split; [reflexivity |].
  apply Z.rem_bound_pos; lia.
Qed.

Lemma completes_seedAt (seeds : list RandomSeed.t) (r : Z) :
  (0 <= r < Z.of_nat (List.length seeds))%Z -> completes (seedAt seeds (Some r)).
Proof.
  intros Hr s. unfold seedAt, index.
  destruct (Z.ltb_spec r 0); [lia |].
  destruct (nth_error seeds (Z.to_nat r)) as [seed |] eqn:Hnth.
  - exists seed, s. reflexivity.
  - apply nth_error_None in Hnth. lia.
Qed.

End RenderFacts.

Create HintDb frame.
Create HintDb paint.

#[local] Hint Resolve keepsDrops_ret keepsDrops_throw keepsDrops_lift keepsDrops_emit
  keepsDrops_getDrops keepsDrops_seedAt keepsDrops_onNewCanvas : frame.
#[local] Hint Resolve paintsOnly_ret paintsOnly_throw paintsOnly_lift paintsOnly_seedAt
  : paint.

(** ** Shape influence resolver *)

Section ShapeInfluence.
Import JS ColorUtils Design.
Open Scope Q_scope.

(** The two-digit alpha suffix of colours. *)
Example brightnessToHex_full : brightnessToHex 1 = "ff"%string.
Proof. reflexivity. Qed.

Example brightnessToHex_dark : brightnessToHex 0.02 = "05"%string.
Proof. reflexivity. Qed.

Lemma index_nth_error (A : Type) (l : list A) (i : Z) :
  (0 <= i)%Z -> index l (Some i) = nth_error l (Z.to_nat i).
Proof.
  intros Hi. unfold index.
  destruct (Z.ltb_spec i 0); [lia | reflexivity].
Qed.

Lemma centredBrightness_range (g : list (list Q)) (x y cols rows : Z) (b : Q) :
  brightnessGrid g -> centredBrightness g x y cols rows = Some b -> 0 <= b <= 1.
Proof.
  intros (_ & _ & Hall) Hc. unfold centredBrightness in Hc.
  destruct (_ && _)%bool in Hc; [| discriminate].
  apply nth_error_In in Hc.
  set (n := Z.to_nat _) in Hc.
  destruct (Nat.lt_ge_cases n (List.length g)) as [Hlt | Hge].
  - pose proof (nth_In g [] Hlt) as Hin.
    rewrite Forall_forall in Hall. specialize (Hall _ Hin).
    rewrite Forall_forall in Hall. exact (Hall _ Hc).
  - rewrite nth_overflow in Hc by exact Hge. contradiction.
Qed.

(** The resolver of the source returns, without throwing, what the
    design's resolver says, on every layer whose shape data is absent
    or a brightness grid. *)
Lemma getShapeBrightnessForLayer_refines (x y cols rows : Z) (layer : Layer.t) :
  shapeOk layer ->
  getShapeBrightnessForLayer x y cols rows layer
  = Ok (shapeInfluenceResolver x y cols rows layer).
Proof.
  unfold shapeOk, getShapeBrightnessForLayer, shapeInfluenceResolver.
  destruct (Layer.shapeData layer) as [g |]; [| reflexivity].
  intros (Hne & Hrect & _).
  destruct g as [| row0 g']; [congruence |].
  unfold centredBrightness. cbn [hd].
  set (w := Z.of_nat (List.length row0)).
  set (h := Z.of_nat (List.length (row0 :: g'))).
  set (ox := ((cols - w) / 2)%Z). set (oy := ((rows - h) / 2)%Z).
  destruct (Z.ltb_spec (x - ox) 0); cbn [orb].
  { replace (ox <=? x)%Z with false by (symmetry; apply Z.leb_gt; lia).
    reflexivity. }
  destruct (Z.geb_spec (x - ox) w); cbn [orb].
  { replace (x <? ox + w)%Z with false by (symmetry; apply Z.ltb_ge; lia).
    rewrite andb_false_r. reflexivity. }
  destruct (Z.ltb_spec (y - oy) 0); cbn [orb].
  { replace (oy <=? y)%Z with false by (symmetry; apply Z.leb_gt; lia).
    rewrite andb_false_r. reflexivity. }
  destruct (Z.geb_spec (y - oy) h); cbn [orb].
  { replace (y <? oy + h)%Z with false by (symmetry; apply Z.ltb_ge; lia).
    rewrite andb_false_r. reflexivity. }
  replace (ox <=? x)%Z with true by (symmetry; apply Z.leb_le; lia).
  replace (x <? ox + w)%Z with true by (symmetry; apply Z.ltb_lt; lia).
  replace (oy <=? y)%Z with true by (symmetry; apply Z.leb_le; lia).
  replace (y <? oy + h)%Z with true by (symmetry; apply Z.ltb_lt; lia).
  cbn [andb].
  rewrite index_nth_error by lia.
  assert (Hy : (Z.to_nat (y - oy) < List.length (row0 :: g'))%nat) by (subst h; lia).
  destruct (nth_error (row0 :: g') (Z.to_nat (y - oy))) as [row |] eqn:Hrow.
  2: { apply nth_error_None in Hrow. lia. }
  rewrite (nth_error_nth _ _ [] Hrow).
  rewrite index_nth_error by lia.
  destruct (nth_error row (Z.to_nat (x - ox))) as [b |] eqn:Hb; [reflexivity |].
  apply nth_error_None in Hb.
  rewrite Forall_forall in Hrect.
  specialize (Hrect row (nth_error_In _ _ Hrow)). cbn [hd] in Hrect.
  subst w. lia.
Qed.

(** C3. For every cell, grid size and layer whose shape data is absent
    or a brightness grid with entries in [0,1], and whose shape
    influence [k] is in [0,1], the resolver returns a value within
    [1-k, 1]: 1 without shape data, [1-k] outside the centred shape and
    [brightness*k + (1-k)] inside. *)
Theorem shape_influence_within_bounds (x y cols rows : Z) (layer : Layer.t) :
  let k := LayerConfig.shapeInfluence (Layer.config layer) in
  0 <= k <= 1 ->
  shapeOk layer ->
  exists v : Q,
    getShapeBrightnessForLayer x y cols rows layer = Ok v
    /\ 1 - k <= v <= 1
    /\ v = match Layer.shapeData layer with
           | None => 1
           | Some g =>
             match centredBrightness g x y cols rows with
             | None => 1 - k
             | Some brightness => brightness * k + (1 - k)
             end
           end.
Proof.
  intros k Hk Hok.
  exists (shapeInfluenceResolver x y cols rows layer).
  split; [apply getShapeBrightnessForLayer_refines; exact Hok |].
  split; [| reflexivity].
  unfold shapeInfluenceResolver, shapeOk in *. fold k.
  destruct (Layer.shapeData layer) as [g |]; [| lra].
  destruct (centredBrightness g x y cols rows) as [b |] eqn:Hb; [| lra].
  pose proof (centredBrightness_range _ _ _ _ Hok Hb) as Hrange.
  split; nra.
Qed.

(** C8. Without shape data the resolver returns exactly 1, whatever the
    cell and the grid size, and does not throw. *)
Theorem shape_absent_is_neutral (x y cols rows : Z) (layer : Layer.t) :
  Layer.shapeData layer = None ->
  getShapeBrightnessForLayer x y cols rows layer = Ok 1.
Proof.
  intros Habsent. unfold getShapeBrightnessForLayer. rewrite Habsent. reflexivity.
Qed.

End ShapeInfluence.

(** The two theorems at the second sample layer. *)
Lemma shape_influence_within_bounds_witness :
  (0 <= 0.8 <= 1)%Q
  /\ Design.shapeOk Sample.layer2
  /\ exists v : Q,
       ColorUtils.getShapeBrightnessForLayer 2 2 4 4 Sample.layer2 = JS.Ok v
       /\ (1 - 0.8 <= v <= 1)%Q
       /\ v = (0.25 * 0.8 + (1 - 0.8))%Q.
Proof.
  assert (Hk : (0 <= 0.8 <= 1)%Q) by (split; discriminate).
  assert (Hok : Design.shapeOk Sample.layer2).
  { cbv [Design.shapeOk Sample.layer2 Layer.shapeData Design.brightnessGrid].
    split; [discriminate |].
    split; repeat constructor; discriminate. }
  split; [exact Hk |]. split; [exact Hok |].
  exact (shape_influence_within_bounds 2 2 4 4 Sample.layer2 Hk Hok).
Defined.

Lemma shape_absent_is_neutral_witness :
  Layer.shapeData Sample.layer1 = None
  /\ ColorUtils.getShapeBrightnessForLayer 7 (-3) 10 10 Sample.layer1 = JS.Ok 1%Q.
Proof.
  split; [reflexivity |].
  exact (shape_absent_is_neutral 7 (-3) 10 10 Sample.layer1 eq_refl).
Defined.

(** ** Colour, glow and symbols *)

Section ColourAndGlow.
Import JS ColorUtils Design.
Open Scope Q_scope.

(** Every byte is written with two digits that read back as the byte. *)
Lemma byte_two_digits (n : Z) :
  (0 <= n <= 255)%Z ->
  String.length (padStart2 (toString16 n)) = 2%nat
  /\ hexValue (padStart2 (toString16 n)) = Some n.
Proof.
  intros Hn.
  assert (Hall : forallb
                   (fun m => Nat.eqb (String.length (padStart2 (toString16 m))) 2
                             && match hexValue (padStart2 (toString16 m)) with
                                | Some v => (v =? m)%Z
                                | None => false
                                end)
                   (map Z.of_nat (seq 0 256)) = true) by (vm_compute; reflexivity).
  rewrite forallb_forall in Hall.
  specialize (Hall n). cbv beta in Hall.
  assert (Hin : In n (map Z.of_nat (seq 0 256))).
  { apply in_map_iff. exists (Z.to_nat n). split; [lia |]. apply in_seq. lia. }
  apply Hall in Hin. apply andb_true_iff in Hin. destruct Hin as [Hlen Hval].
  split; [apply Nat.eqb_eq; exact Hlen |].
  destruct (hexValue (padStart2 (toString16 n))) as [v |]; [| discriminate].
  apply Z.eqb_eq in Hval. congruence.
Qed.

Lemma alpha_byte (brightness : Q) :
  0 <= brightness <= 1 -> (0 <= Qfloor (brightness * 255) <= 255)%Z.
Proof.
  intros [Hlo Hhi]. split.
  - change 0%Z with (Qfloor 0). apply Qfloor_resp_le. lra.
  - change (Qfloor (brightness * 255) <= Qfloor 255)%Z. apply Qfloor_resp_le. lra.
Qed.

(** X10. For a brightness within [0,1] the alpha suffix has exactly two
    hexadecimal digits, which read back as [floor(255 * brightness)], a
    byte; a brighter cell never gets a smaller alpha. *)
Theorem brightnessToHex_reads_back (brightness : Q) :
  0 <= brightness <= 1 ->
  String.length (brightnessToHex brightness) = 2%nat
  /\ hexValue (brightnessToHex brightness) = Some (Qfloor (brightness * 255))
  /\ (0 <= Qfloor (brightness * 255) <= 255)%Z
  /\ forall brighter : Q,
       brightness <= brighter <= 1 ->
       exists alpha : Z,
         hexValue (brightnessToHex brighter) = Some alpha
         /\ (Qfloor (brightness * 255) <= alpha)%Z.
Proof.
  intros Hb. pose proof (alpha_byte Hb) as Hbyte.
  destruct (byte_two_digits Hbyte) as [Hlen Hval].
  unfold brightnessToHex. split; [exact Hlen |]. split; [exact Hval |].
  split; [exact Hbyte |].
  intros brighter [Hle Hhi].
  assert (Hb' : 0 <= brighter <= 1) by (split; [lra | exact Hhi]).
  destruct (byte_two_digits (alpha_byte Hb')) as [_ Hval'].
  exists (Qfloor (brighter * 255)). split; [exact Hval' |].
  apply Qfloor_resp_le. nra.
Qed.

Lemma brightnessToHex_reads_back_witness :
  0 <= 0.5 <= 1
  /\ brightnessToHex 0.5 = "7f"%string
  /\ hexValue (brightnessToHex 0.5) = Some 127%Z.
Proof.
  assert (Hb : 0 <= 0.5 <= 1) by (split; discriminate).
  split; [exact Hb |]. split; [reflexivity |].
  exact (proj1 (proj2 (brightnessToHex_reads_back Hb))).
Defined.

(** X11. For a glow intensity within [0,20], a brightness within [0,1]
    and a glow radius within [0,30] the blur radius is an integer from
    0 to 60; it is 0 when the intensity or the radius is 0, and it does
    not decrease when the brightness grows. *)
Theorem calculateGlowBlur_bounds (glowIntensity brightness glowRadius : Q) :
  0 <= glowIntensity <= 20 ->
  0 <= brightness <= 1 ->
  0 <= glowRadius <= 30 ->
  (0 <= calculateGlowBlur glowIntensity brightness glowRadius <= 60)%Z
  /\ (glowIntensity == 0 \/ glowRadius == 0 ->
      calculateGlowBlur glowIntensity brightness glowRadius = 0%Z)
  /\ forall brighter : Q,
       brightness <= brighter ->
       (calculateGlowBlur glowIntensity brightness glowRadius
        <= calculateGlowBlur glowIntensity brighter glowRadius)%Z.
Proof.
  intros Hi Hb Hr. unfold calculateGlowBlur.
  assert (Hdiv : glowRadius / 10 == glowRadius * (1 # 10)) by (field).
  assert (Hr10 : 0 <= glowRadius / 10 <= 3) by (rewrite Hdiv; lra).
  assert (Hib : 0 <= glowIntensity * brightness <= 20) by (split; nra).
  split; [split |].
  - change 0%Z with (Qfloor 0). apply Qfloor_resp_le. nra.
  - change (Qfloor (glowIntensity * brightness * (glowRadius / 10)) <= Qfloor 60)%Z.
    apply Qfloor_resp_le. nra.
  - split.
    + intros [Hzero | Hzero]; change 0%Z with (Qfloor 0); apply Qfloor_comp.
      * rewrite Hzero. ring.
      * rewrite Hdiv, Hzero. ring.
    + intros brighter Hle. apply Qfloor_resp_le.
      set (c := glowRadius / 10) in *.
      assert (Hic : 0 <= glowIntensity * c) by nra.
      nra.
Qed.

Lemma calculateGlowBlur_bounds_witness :
  0 <= 10 <= 20
  /\ 0 <= 0.5 <= 1
  /\ 0 <= 10 <= 30
  /\ (0 <= calculateGlowBlur 10 0.5 10 <= 60)%Z.
Proof.
  assert (Hi : 0 <= 10 <= 20) by (split; discriminate).
  assert (Hb : 0 <= 0.5 <= 1) by (split; discriminate).
  assert (Hr : 0 <= 10 <= 30) by (split; discriminate).
  split; [exact Hi |]. split; [exact Hb |]. split; [exact Hr |].
  exact (proj1 (calculateGlowBlur_bounds Hi Hb Hr)).
Defined.

(** X12. On a layer whose shape data is absent or a brightness grid,
    a shape influence of 0 makes the resolver 1 at every cell (the
    shape has no effect), and a shape influence of 1 makes it the
    brightness of the shape inside the shape and 0 outside. *)
Theorem shape_influence_extremes (x y cols rows : Z) (layer : Layer.t) :
  shapeOk layer ->
  exists v : Q,
    getShapeBrightnessForLayer x y cols rows layer = Ok v
    /\ (LayerConfig.shapeInfluence (Layer.config layer) == 0 -> v == 1)
    /\ (LayerConfig.shapeInfluence (Layer.config layer) == 1 ->
        forall g : list (list Q),
          Layer.shapeData layer = Some g ->
          match centredBrightness g x y cols rows with
          | Some brightness => v == brightness
          | None => v == 0
          end).
Proof.
  intros Hok. exists (shapeInfluenceResolver x y cols rows layer).
  split; [apply getShapeBrightnessForLayer_refines; exact Hok |].
  unfold shapeInfluenceResolver.
  set (k := LayerConfig.shapeInfluence (Layer.config layer)).
  split.
  - intros Hk. destruct (Layer.shapeData layer) as [g |]; [| reflexivity].
    destruct (centredBrightness g x y cols rows); rewrite Hk; ring.
  - intros Hk g Hg. rewrite Hg.
    destruct (centredBrightness g x y cols rows); rewrite Hk; ring.
Qed.

Lemma shape_influence_extremes_witness :
  shapeOk (Sample.dimmed "wave")
  /\ exists v : Q,
       getShapeBrightnessForLayer 0 0 1 1 (Sample.dimmed "wave") = Ok v
       /\ v == 0.5.
Proof.
  assert (Hok : shapeOk (Sample.dimmed "wave")).
  { cbv [shapeOk Sample.dimmed Layer.shapeData brightnessGrid].
    split; [discriminate |]. split; repeat constructor; discriminate. }
  split; [exact Hok |].
  destruct (@shape_influence_extremes 0 0 1 1 (Sample.dimmed "wave") Hok) as (v & Hrun & _ & Hone).
  exists v. split; [exact Hrun |].
  exact (Hone ltac:(reflexivity) [[0.5]] eq_refl).
Defined.

End ColourAndGlow.

(** ** Brightness map of an uploaded image *)

Section BrightnessMap.
Import JS ImageUpload Design.
Open Scope Q_scope.

Lemma allNumbers_map (A B : Type) (f : A -> option B) (g : A -> B) (l : list A) :
  (forall a : A, In a l -> f a = Some (g a)) ->
  allNumbers (map f l) = Some (map g l).
Proof.
  induction l as [| a l IH]; intros Hall; [reflexivity |].
  cbn [map allNumbers]. rewrite (Hall a (or_introl eq_refl)).
  rewrite IH by (intros a' Hin; apply Hall; right; exact Hin). reflexivity.
Qed.

Lemma byte_mean_range (s : Z) :
  (0 <= s <= 765)%Z -> 0 <= inject_Z s / 3 / 255 <= 1.
Proof.
  intros [Hlo Hhi].
  assert (Heq : inject_Z s / 3 / 255 == inject_Z s * (1 # 765)) by field.
  rewrite Heq.
  assert (H0 : 0 <= inject_Z s) by (change 0 with (inject_Z 0); rewrite <- Zle_Qle; lia).
  assert (H1 : inject_Z s <= 765)
    by (change 765 with (inject_Z 765); rewrite <- Zle_Qle; lia).
  split; lra.
Qed.

Variables (width height : Z) (data : list Z).
Hypothesis width_not_negative : (0 <= width)%Z.
Hypothesis height_not_negative : (0 <= height)%Z.
Hypothesis data_length : Z.of_nat (List.length data) = (4 * width * height)%Z.
Hypothesis data_bytes : Forall (fun v => (0 <= v <= 255)%Z) data.

Lemma byte_at (i : nat) : (0 <= nth i data 0 <= 255)%Z.
Proof.
  destruct (Nat.lt_ge_cases i (List.length data)) as [Hlt | Hge].
  - rewrite Forall_forall in data_bytes. apply data_bytes, nth_In. exact Hlt.
  - rewrite nth_overflow by exact Hge. lia.
Qed.

Lemma pixelBrightness_in_canvas (x y : Z) :
  (0 <= x < width)%Z -> (0 <= y < height)%Z ->
  pixelBrightness data width x y = Some (pixelOf data width x y).
Proof.
  intros Hx Hy. unfold pixelBrightness, pixelOf.
  set (i := ((y * width + x) * 4)%Z).
  assert (Hi : (0 <= i /\ i + 3 < Z.of_nat (List.length data))%Z).
  { subst i. rewrite data_length. nia. }
  rewrite !index_nth_error by lia.
  assert (Hnth : forall k : Z, (0 <= k <= 3)%Z ->
             nth_error data (Z.to_nat (i + k)) = Some (nth (Z.to_nat i + Z.to_nat k) data 0%Z)).
  { intros k Hk. replace (Z.to_nat (i + k)) with (Z.to_nat i + Z.to_nat k)%nat by lia.
    apply nth_error_nth'. lia. }
  rewrite (Hnth 3%Z), (Hnth 2%Z), (Hnth 1%Z) by lia.
  replace (nth_error data (Z.to_nat i)) with (Some (nth (Z.to_nat i) data 0%Z))
    by (symmetry; apply nth_error_nth'; lia).
  change (Z.to_nat 3) with 3%nat. change (Z.to_nat 2) with 2%nat.
  change (Z.to_nat 1) with 1%nat.
  destruct (nth (Z.to_nat i + 3) data 0%Z) as [| p | p] eqn:Ha; reflexivity.
Qed.

Lemma pixelOf_range (x y : Z) : 0 <= pixelOf data width x y <= 1.
Proof.
  unfold pixelOf. destruct (_ =? 0)%Z; [split; discriminate |].
  apply byte_mean_range.
  pose proof (byte_at (Z.to_nat ((y * width + x) * 4))).
  pose proof (byte_at (Z.to_nat ((y * width + x) * 4) + 1)).
  pose proof (byte_at (Z.to_nat ((y * width + x) * 4) + 2)).
  lia.
Qed.

(** X14. From the image data of a canvas of [width] by [height] pixels
    (four bytes per pixel) the hook builds a map of [height] rows of
    [width] brightness values, each the mean of red, green and blue
    over 255, or 0 where alpha is 0, hence within [0,1]; no entry is
    NaN.  When the canvas is not empty the map is a brightness grid, so
    the resolver returns a value at every cell of a layer that holds
    it. *)
Theorem brightnessMapOf_is_a_brightness_grid :
  exists g : list (list Q),
    brightnessMapOf width height data = Some g
    /\ Z.of_nat (List.length g) = height
    /\ Forall (fun row => Z.of_nat (List.length row) = width) g
    /\ Forall (Forall (fun b => 0 <= b <= 1)) g
    /\ (forall x y : Z,
           (0 <= x < width)%Z -> (0 <= y < height)%Z ->
           nth_error (nth (Z.to_nat y) g []) (Z.to_nat x)
           = Some (pixelOf data width x y))
    /\ ((0 < width)%Z -> (0 < height)%Z ->
        brightnessGrid g
        /\ forall (layer : Layer.t) (x y cols rows : Z),
             Layer.shapeData layer = Some g ->
             exists v : Q,
               ColorUtils.getShapeBrightnessForLayer x y cols rows layer = Ok v).
Proof.
  set (row := fun y => map (fun x => pixelOf data width x y) (Render.range width)).
  exists (map row (Render.range height)).
  assert (Hrows : Forall (fun r => Z.of_nat (List.length r) = width)
                    (map row (Render.range height))).
  { apply Forall_map, Forall_forall. intros y _. unfold row, Render.range.
    rewrite !length_map, length_seq. lia. }
  assert (Hrange : Forall (Forall (fun b => 0 <= b <= 1)) (map row (Render.range height))).
  { apply Forall_map, Forall_forall. intros y _. unfold row.
    apply Forall_map, Forall_forall. intros x _. apply pixelOf_range. }
  assert (Hlen : Z.of_nat (List.length (map row (Render.range height))) = height).
  { unfold Render.range. rewrite !length_map, length_seq. lia. }
  split.
  { unfold brightnessMapOf. apply allNumbers_map. intros y Hy.
    apply range_In in Hy. unfold row. apply allNumbers_map. intros x Hx.
    apply range_In in Hx. apply pixelBrightness_in_canvas; assumption. }
  split; [exact Hlen |]. split; [exact Hrows |]. split; [exact Hrange |].
  assert (Hat : forall (f : Z -> Q) (n i : Z),
             (0 <= i < n)%Z -> nth_error (map f (Render.range n)) (Z.to_nat i) = Some (f i)).
  { intros f n i Hi. unfold Render.range. rewrite map_map, nth_error_map.
    rewrite nth_error_seq. destruct (Nat.ltb_spec (Z.to_nat i) (Z.to_nat n)); [| lia].
    cbn. f_equal. f_equal. lia. }
  assert (Hrow : forall y : Z, (0 <= y < height)%Z ->
             nth (Z.to_nat y) (map row (Render.range height)) [] = row y).
  { intros y Hy. apply nth_error_nth. unfold Render.range.
    rewrite map_map, nth_error_map, nth_error_seq.
    destruct (Nat.ltb_spec (Z.to_nat y) (Z.to_nat height)); [| lia].
    cbn. f_equal. f_equal. lia. }
  split.
  { intros x y Hx Hy. rewrite (Hrow y Hy). unfold row.
    exact (Hat (fun x0 => pixelOf data width x0 y) width x Hx). }
  intros Hw Hh.
  assert (Hgrid : brightnessGrid (map row (Render.range height))).
  { split; [| split; [| exact Hrange]].
    - intros Hnil. apply (f_equal (@List.length _)) in Hnil.
      cbn [List.length] in Hnil. lia.
    - eapply Forall_impl; [| exact Hrows]. cbn beta. intros r Hr.
      assert (Hhd : Z.of_nat (List.length (hd [] (map row (Render.range height)))) = width).
      { destruct (map row (Render.range height)) as [| r0 rest] eqn:Hm.
        - cbn [List.length] in Hlen. lia.
        - inversion Hrows; subst. cbn [hd]. assumption. }
      lia. }
  split; [exact Hgrid |].
  intros layer x y cols rows Hdata.
  eexists. apply getShapeBrightnessForLayer_refines.
  unfold shapeOk. rewrite Hdata. exact Hgrid.
Qed.

End BrightnessMap.

Lemma brightnessMapOf_is_a_brightness_grid_witness :
  (0 <= 2)%Z
  /\ (0 <= 1)%Z
  /\ Z.of_nat (List.length [255; 255; 255; 255; 30; 60; 90; 0]%Z) = (4 * 2 * 1)%Z
  /\ Forall (fun v => (0 <= v <= 255)%Z) [255; 255; 255; 255; 30; 60; 90; 0]%Z
  /\ exists g : list (list Q),
       ImageUpload.brightnessMapOf 2 1 [255; 255; 255; 255; 30; 60; 90; 0]%Z = Some g
       /\ Z.of_nat (List.length g) = 1%Z.
Proof.
  assert (Hw : (0 <= 2)%Z) by lia.
  assert (Hh : (0 <= 1)%Z) by lia.
  assert (Hlen : Z.of_nat (List.length [255; 255; 255; 255; 30; 60; 90; 0]%Z)
                 = (4 * 2 * 1)%Z) by reflexivity.
  assert (Hbytes : Forall (fun v => (0 <= v <= 255)%Z)
                     [255; 255; 255; 255; 30; 60; 90; 0]%Z)
    by (repeat constructor; lia).
  split; [exact Hw |]. split; [exact Hh |]. split; [exact Hlen |].
  split; [exact Hbytes |].
  destruct (brightnessMapOf_is_a_brightness_grid Hw Hh Hlen Hbytes)
    as (g & Hrun & Hheight & _).
  exists g. split; [exact Hrun | exact Hheight].
Defined.

(** ** Layer manager *)

Section LayerManagerProperties.
Import LayerManager Design.
Open Scope string_scope.

Lemma remaining_length_le (layerId : string) (ls : list Layer.t) :
  (List.length (remaining layerId ls) <= List.length ls)%nat.
Proof. apply filter_length_le. Qed.

Lemma remaining_all_when_absent (layerId : string) (ls : list Layer.t) :
  ~ In layerId (map Layer.id ls) -> remaining layerId ls = ls.
Proof.
  induction ls as [| l ls IH]; intros Hnot; [reflexivity |].
  cbn in *. destruct (String.eqb_spec (Layer.id l) layerId) as [Heq | Hne].
  - exfalso. apply Hnot. left. exact Heq.
  - cbn. f_equal. apply IH. intros Hin. apply Hnot. right. exact Hin.
Qed.

(** With unique identifiers a removal takes away at most one layer. *)
Lemma remaining_length_ge (layerId : string) (ls : list Layer.t) :
  NoDup (map Layer.id ls) ->
  (List.length ls <= S (List.length (remaining layerId ls)))%nat.
Proof.
  induction ls as [| l ls IH]; intros Hnd; [cbn; lia |].
  cbn in Hnd. inversion Hnd as [| ? ? Hnotin Hnd']; subst.
  cbn. destruct (String.eqb_spec (Layer.id l) layerId) as [Heq | Hne]; cbn.
  - subst layerId. fold (remaining (Layer.id l) ls).
    rewrite (remaining_all_when_absent _ _ Hnotin). lia.
  - specialize (IH Hnd'). fold (remaining layerId ls). lia.
Qed.

Lemma remaining_ids_incl (layerId : string) (ls : list Layer.t) (i : string) :
  In i (map Layer.id (remaining layerId ls)) -> In i (map Layer.id ls).
Proof.
  rewrite !in_map_iff. intros (l & Hid & Hin).
  apply filter_In in Hin. exists l. tauto.
Qed.

Lemma remaining_NoDup (layerId : string) (ls : list Layer.t) :
  NoDup (map Layer.id ls) -> NoDup (map Layer.id (remaining layerId ls)).
Proof.
  induction ls as [| l ls IH]; intros Hnd; [constructor |].
  cbn in Hnd. inversion Hnd as [| ? ? Hnotin Hnd']; subst.
  cbn. destruct (negb _); cbn.
  - constructor; [| apply IH; exact Hnd'].
    intros Hin. apply Hnotin. eapply remaining_ids_incl. exact Hin.
  - apply IH. exact Hnd'.
Qed.

(** C1. On a layer list of one to three layers with unique identifiers,
    adding and removing keep the list between one and three layers:
    adding to three layers changes nothing, removing from a single
    layer changes nothing, and removing the active layer makes the
    first remaining layer the active one. *)
Theorem layer_count_stays_between_1_and_3 (st : state) :
  wellFormed st ->
  (forall now : Z,
      let st' := addLayer now st in
      (1 <= List.length (layers st') <= 3)%nat
      /\ (List.length (layers st) = 3%nat -> st' = st)
      /\ (~ In ("layer-" ++ JS.toString10 now) (map Layer.id (layers st)) ->
          wellFormed st'))
  /\ (forall layerId : string,
      exists st' : state,
        removeLayer layerId st = (JS.Ok tt, st')
        /\ wellFormed st'
        /\ (List.length (layers st) = 1%nat -> st' = st)
        /\ (List.length (layers st) <> 1%nat ->
            layers st' = remaining layerId (layers st)
            /\ (activeLayerId st = layerId ->
                exists first : Layer.t,
                  hd_error (layers st') = Some first
                  /\ activeLayerId st' = Layer.id first))).
Proof.
  intros ((Hlo & Hhi) & Hnd). split.
  - intros now st'. subst st'. unfold addLayer.
    destruct (Nat.leb_spec 3 (List.length (layers st))) as [Hfull | Hroom].
    + repeat split; try assumption.
    + cbn [layers]. rewrite length_app. cbn [List.length].
      split; [lia |]. split; [lia |].
      intros Hfresh.
      split; cbn [layers]; [rewrite length_app; cbn [List.length]; lia |].
      rewrite map_app. cbn [map Layer.id].
      apply NoDup_app; [exact Hnd | repeat constructor; intros [] | ].
      intros a Ha [Hin | []]. subst a. exact (Hfresh Ha).
  - intros layerId. unfold removeLayer. fold (remaining layerId (layers st)).
    destruct (Nat.eqb_spec (List.length (layers st)) 1) as [Hone | Hmore].
    + exists st. repeat split; try assumption; try lia.
    + pose proof (remaining_length_le layerId (layers st)) as Hle.
      pose proof (remaining_length_ge layerId _ Hnd) as Hge.
      pose proof (remaining_NoDup layerId _ Hnd) as Hnd'.
      destruct (String.eqb_spec (activeLayerId st) layerId) as [Hact | Hinact].
      * destruct (remaining layerId (layers st)) as [| first rest] eqn:Hrem.
        { cbn in Hge. lia. }
        eexists. split; [reflexivity |]. unfold wellFormed. cbn [layers activeLayerId].
        split; [split; [cbn in *; lia | exact Hnd'] |].
        split; [intros; contradiction |].
        intros _. split; [reflexivity |].
        intros _. exists first. split; reflexivity.
      * eexists. split; [reflexivity |]. unfold wellFormed. cbn [layers activeLayerId].
        split; [split; [lia | exact Hnd'] |].
        split; [intros; contradiction |].
        intros _. split; [reflexivity |]. intros; contradiction.
Qed.

Lemma initial_wellFormed : wellFormed initial.
Proof.
  split; [cbn; lia |]. cbn. repeat constructor. intros [].
Qed.

Lemma layer_count_stays_between_1_and_3_witness :
  wellFormed Sample.twoLayers
  /\ (1 <= List.length (layers (addLayer 1700000000123 Sample.twoLayers)) <= 3)%nat
  /\ exists st' : state,
       removeLayer "layer-1" Sample.twoLayers = (JS.Ok tt, st')
       /\ wellFormed st'.
Proof.
  assert (Hwf : wellFormed Sample.twoLayers).
  { split; [cbn; lia |].
    cbn. constructor; [| repeat constructor; intros []].
    intros [Heq | []]. discriminate Heq. }
  split; [exact Hwf |].
  destruct (layer_count_stays_between_1_and_3 Hwf) as [Hadd Hremove].
  split; [exact (proj1 (Hadd 1700000000123%Z)) |].
  destruct (Hremove "layer-1") as (st' & Hrun & Hwf' & _).
  exists st'. split; [exact Hrun | exact Hwf'].
Defined.

(** Every state that adding (with identifiers not in use) and removing
    layers lead to from the initial state has one to three layers with
    unique identifiers. *)
Lemma applyOps_wellFormed (ops : list layerOp) (st : state) :
  wellFormed st -> freshOps ops st -> wellFormed (applyOps ops st).
Proof.
  revert st. induction ops as [| o ops IH]; intros st Hwf Hfresh; [exact Hwf |].
  destruct Hfresh as [Ho Hrest]. cbn [applyOps]. apply IH; [| exact Hrest].
  pose proof Hwf as ((Hlo & Hhi) & Hnd).
  destruct o as [now | layerId]; cbn [applyOp freshOp] in *.
  - unfold addLayer.
    destruct (Nat.leb_spec 3 (List.length (layers st))); [exact Hwf |].
    split; cbn [layers]; [rewrite length_app; cbn [List.length]; lia |].
    rewrite map_app. cbn [map Layer.id].
    apply NoDup_app; [exact Hnd | repeat constructor; intros [] |].
    intros a Ha [Hin | []]. subst a. exact (Ho Ha).
  - unfold removeLayer. fold (remaining layerId (layers st)).
    destruct (Nat.eqb_spec (List.length (layers st)) 1); [exact Hwf |].
    pose proof (remaining_length_le layerId (layers st)).
    pose proof (remaining_length_ge layerId _ Hnd).
    pose proof (remaining_NoDup layerId _ Hnd).
    destruct (String.eqb (activeLayerId st) layerId);
      [destruct (remaining layerId (layers st)) eqn:Hrem |];
      cbn [snd]; split; cbn [layers] in *; try assumption; cbn [List.length] in *; lia.
Qed.

(** C10. [updateActiveLayerConfig] keeps the length and the order of
    the list, leaves every layer whose identifier is not the active
    one as it is, and on a layer with the active identifier keeps
    id, name, visible, opacity, shapeImage and shapeData and every
    configuration field the update does not name, the named ones
    taking the values of the update. *)
Theorem updateActiveLayerConfig_changes_named_fields_only
    (configUpdate : LayerConfig.partial) (st : state) :
  let st' := updateActiveLayerConfig configUpdate st in
  List.length (layers st') = List.length (layers st)
  /\ map Layer.id (layers st') = map Layer.id (layers st)
  /\ activeLayerId st' = activeLayerId st
  /\ expandedLayerIds st' = expandedLayerIds st
  /\ forall (i : nat) (layer : Layer.t),
      nth_error (layers st) i = Some layer ->
      exists layer' : Layer.t,
        nth_error (layers st') i = Some layer'
        /\ (Layer.id layer <> activeLayerId st -> layer' = layer)
        /\ (Layer.id layer = activeLayerId st ->
            Layer.id layer' = Layer.id layer
            /\ Layer.name layer' = Layer.name layer
            /\ Layer.visible layer' = Layer.visible layer
            /\ Layer.opacity layer' = Layer.opacity layer
            /\ Layer.shapeImage layer' = Layer.shapeImage layer
            /\ Layer.shapeData layer' = Layer.shapeData layer
            /\ onlyNamedFieldsChange configUpdate
                 (Layer.config layer) (Layer.config layer')).
Proof.
  intros st'. subst st'. unfold updateActiveLayerConfig.
  cbn [layers activeLayerId expandedLayerIds].
  split; [apply length_map |].
  split.
  { rewrite map_map. apply map_ext. intros l.
    destruct (String.eqb (Layer.id l) (activeLayerId st)); reflexivity. }
  split; [reflexivity |]. split; [reflexivity |].
  intros i layer Hnth.
  rewrite nth_error_map, Hnth. cbn [option_map].
  eexists. split; [reflexivity |].
  destruct (String.eqb_spec (Layer.id layer) (activeLayerId st)) as [Hact | Hother].
  - split; [intros Hne; contradiction |]. intros _.
    cbn [Layer.withConfig Layer.id Layer.name Layer.visible Layer.opacity
         Layer.shapeImage Layer.shapeData Layer.config].
    repeat (split; [reflexivity |]).
    unfold onlyNamedFieldsChange, namedOrKept, LayerConfig.spread, LayerConfig.pick.
    cbn.
    repeat split;
      match goal with
      | |- match ?u with _ => _ end => destruct u; reflexivity
      end.
  - split; [reflexivity | intros Heq; contradiction].
Qed.

Lemma updateActiveLayerConfig_changes_named_fields_only_witness :
  nth_error (layers Sample.twoLayers) 0 = Some Sample.layer1
  /\ nth_error (layers Sample.twoLayers) 1 = Some Sample.layer2
  /\ exists layer' : Layer.t,
       nth_error (layers (updateActiveLayerConfig Sample.densityOnly Sample.twoLayers)) 0
       = Some layer'
       /\ LayerConfig.density (Layer.config layer') = 0.25%Q
       /\ LayerConfig.pattern (Layer.config layer') = "rain"
       /\ nth_error (layers (updateActiveLayerConfig Sample.densityOnly Sample.twoLayers)) 1
          = Some Sample.layer2.
Proof.
  split; [reflexivity |]. split; [reflexivity |].
  destruct (updateActiveLayerConfig_changes_named_fields_only
              Sample.densityOnly Sample.twoLayers) as (_ & _ & _ & _ & Hlayers).
  destruct (Hlayers 0%nat Sample.layer1 eq_refl) as (l0 & Hl0 & _ & Hactive).
  destruct (Hlayers 1%nat Sample.layer2 eq_refl) as (l1 & Hl1 & Hkept & _).
  destruct (Hactive eq_refl) as (_ & _ & _ & _ & _ & _ & Hcfg).
  exists l0. split; [exact Hl0 |].
  split; [exact (proj1 (proj2 Hcfg)) |].
  split; [exact (proj1 (proj2 (proj2 (proj2 (proj2 (proj2 (proj2 Hcfg))))))) |].
  rewrite Hl1. f_equal. apply Hkept. discriminate.
Defined.

End LayerManagerProperties.

(** ** Layer manager: reordering, updating, expanding *)

Section Splicing.
Import JS.
Variable A : Type.
Implicit Types (arr rest : list A) (a : A) (k : nat).

Lemma spliceStart_within (len i : Z) :
  (0 <= i <= len)%Z -> spliceStart len i = i.
Proof.
  intros Hi. unfold spliceStart. destruct (Z.ltb_spec i 0); lia.
Qed.

Lemma spliceStart_bounds (len i : Z) :
  (0 <= len)%Z -> (0 <= spliceStart len i <= len)%Z.
Proof.
  intros Hlen. unfold spliceStart. destruct (Z.ltb_spec i 0); lia.
Qed.

Lemma inserted_at arr a k :
  (k <= List.length arr)%nat ->
  nth_error (firstn k arr ++ a :: skipn k arr) k = Some a.
Proof.
  intros Hk. rewrite nth_error_app2 by (rewrite length_firstn; lia).
  rewrite length_firstn, Nat.min_l by exact Hk.
  rewrite Nat.sub_diag. reflexivity.
Qed.

Lemma inserted_then_removed arr a k :
  (k <= List.length arr)%nat ->
  firstn k (firstn k arr ++ a :: skipn k arr)
  ++ skipn (S k) (firstn k arr ++ a :: skipn k arr)
  = arr.
Proof.
  intros Hk.
  assert (Hlen : List.length (firstn k arr) = k)
    by (rewrite length_firstn; lia).
  rewrite firstn_app, Hlen, Nat.sub_diag, firstn_O, app_nil_r.
  rewrite firstn_firstn, Nat.min_id.
  rewrite skipn_app, Hlen.
  rewrite (skipn_all2 (firstn k arr)) by lia.
  replace (S k - k)%nat with 1%nat by lia. cbn [skipn app].
  apply firstn_skipn.
Qed.

Lemma removed_then_inserted arr a k :
  nth_error arr k = Some a ->
  firstn k (firstn k arr ++ skipn (S k) arr) ++ a :: skipn k (firstn k arr ++ skipn (S k) arr)
  = arr.
Proof.
  intros Hnth.
  assert (Hk : (k < List.length arr)%nat) by (apply nth_error_Some; congruence).
  assert (Hlen : List.length (firstn k arr) = k)
    by (rewrite length_firstn; lia).
  rewrite firstn_app, Hlen, Nat.sub_diag, firstn_O, app_nil_r.
  rewrite firstn_firstn, Nat.min_id.
  rewrite skipn_app, Hlen, Nat.sub_diag.
  rewrite (skipn_all2 (firstn k arr)) by lia. rewrite skipn_O. cbn [app].
  rewrite <- (firstn_skipn k arr) at 3. f_equal.
  destruct (skipn k arr) as [| a' rest] eqn:Hskip.
  - apply (f_equal (@List.length A)) in Hskip. rewrite length_skipn in Hskip.
    cbn in Hskip. lia.
  - assert (Ha : nth_error (skipn k arr) 0 = Some a).
    { rewrite nth_error_skipn, Nat.add_0_r. exact Hnth. }
    rewrite Hskip in Ha. cbn in Ha. inversion Ha; subst a'. f_equal.
    change (S k) with (1 + k)%nat.
    rewrite <- (skipn_skipn 1 k arr), Hskip. reflexivity.
Qed.

Lemma removed_length arr k :
  (k < List.length arr)%nat ->
  List.length (firstn k arr ++ skipn (S k) arr) = (List.length arr - 1)%nat.
Proof.
  intros Hk. rewrite length_app, length_firstn, length_skipn. lia.
Qed.

Lemma split_at arr a k :
  nth_error arr k = Some a -> arr = firstn k arr ++ a :: skipn (S k) arr.
Proof.
  revert k. induction arr as [| a' arr IH]; intros [| k] Hnth; cbn in *;
    try discriminate.
  - congruence.
  - f_equal. apply IH. exact Hnth.
Qed.

Lemma removed_Permutation arr a k :
  nth_error arr k = Some a ->
  Permutation.Permutation arr (a :: firstn k arr ++ skipn (S k) arr).
Proof.
  intros Hnth. pose proof Hnth as Hsplit. apply split_at in Hsplit.
  rewrite Hsplit at 1. symmetry. apply Permutation.Permutation_middle.
Qed.

Lemma inserted_Permutation arr a k :
  Permutation.Permutation (a :: arr) (firstn k arr ++ a :: skipn k arr).
Proof.
  rewrite <- (firstn_skipn k arr) at 1. apply Permutation.Permutation_middle.
Qed.

End Splicing.

Section Reordering.
Import JS LayerManager Design.
Open Scope string_scope.

Lemma reorderLayers_at (fromIndex toIndex : Z) (st : state) (moved : Layer.t) :
  (0 <= fromIndex)%Z ->
  nth_error (layers st) (Z.to_nat fromIndex) = Some moved ->
  reorderLayers fromIndex toIndex st
  = Some {| layers :=
              spliceIn (firstn (Z.to_nat fromIndex) (layers st)
                        ++ skipn (S (Z.to_nat fromIndex)) (layers st))
                toIndex moved;
            activeLayerId := activeLayerId st;
            expandedLayerIds := expandedLayerIds st |}.
Proof.
  intros Hfrom Hnth.
  assert (Hlt : (Z.to_nat fromIndex < List.length (layers st))%nat)
    by (apply nth_error_Some; congruence).
  unfold reorderLayers, spliceOut.
  rewrite spliceStart_within by lia. rewrite Hnth. reflexivity.
Qed.

(** X1. Moving the layer at a valid index keeps the layers (the new
    list is a permutation of the old one, so one to three layers with
    unique identifiers stay so), the active layer and the expanded set;
    the layer lands at the target index and the others keep their
    order.  An index at or past the end removes nothing and puts
    [undefined] in the list. *)
Theorem reorderLayers_moves_one_layer (fromIndex toIndex : Z) (st : state) :
  let len := Z.of_nat (List.length (layers st)) in
  ((0 <= fromIndex < len)%Z ->
   exists (moved : Layer.t) (st' : state),
     nth_error (layers st) (Z.to_nat fromIndex) = Some moved
     /\ reorderLayers fromIndex toIndex st = Some st'
     /\ Permutation (layers st) (layers st')
     /\ activeLayerId st' = activeLayerId st
     /\ expandedLayerIds st' = expandedLayerIds st
     /\ (wellFormed st -> wellFormed st')
     /\ ((0 <= toIndex < len)%Z ->
         nth_error (layers st') (Z.to_nat toIndex) = Some moved
         /\ snd (spliceOut (layers st') toIndex) = snd (spliceOut (layers st) fromIndex)))
  /\ ((len <= fromIndex)%Z -> reorderLayers fromIndex toIndex st = None).
Proof.
  intros len. split.
  - intros Hfrom.
    destruct (nth_error (layers st) (Z.to_nat fromIndex)) as [moved |] eqn:Hnth.
    2: { apply nth_error_None in Hnth. lia. }
    exists moved. eexists. split; [reflexivity |].
    split; [apply reorderLayers_at; [lia | exact Hnth] |].
    cbn [layers activeLayerId expandedLayerIds].
    set (rest := (firstn _ _ ++ skipn _ _)%list).
    assert (Hrest : List.length rest = (List.length (layers st) - 1)%nat)
      by (apply removed_length; lia).
    assert (Hperm : Permutation (layers st) (spliceIn rest toIndex moved)).
    { etransitivity; [apply removed_Permutation; exact Hnth |].
      apply inserted_Permutation. }
    split; [exact Hperm |]. split; [reflexivity |]. split; [reflexivity |].
    split.
    + intros [Hcount Hnd]. split; cbn [layers].
      * rewrite <- (Permutation_length Hperm). exact Hcount.
      * eapply Permutation_NoDup; [| exact Hnd]. apply Permutation_map. exact Hperm.
    + intros Hto. unfold spliceIn, spliceOut.
      rewrite Hrest. rewrite (spliceStart_within (i := toIndex)) by lia.
      assert (Hk : (Z.to_nat toIndex <= List.length rest)%nat) by lia.
      split; [apply inserted_at; exact Hk |]. cbn [snd].
      rewrite length_app, length_firstn, Nat.min_l by exact Hk.
      cbn [List.length]. rewrite length_skipn.
      replace (Z.of_nat (Z.to_nat toIndex + S (List.length rest - Z.to_nat toIndex)))
        with len by (subst len; lia).
      rewrite (spliceStart_within (i := toIndex)) by lia.
      rewrite (spliceStart_within (i := fromIndex)) by (subst len; lia).
      apply inserted_then_removed. exact Hk.
  - intros Hpast. unfold reorderLayers, spliceOut.
    replace (spliceStart _ fromIndex) with len
      by (unfold spliceStart; destruct (Z.ltb_spec fromIndex 0); subst len; lia).
    subst len. rewrite Nat2Z.id.
    rewrite (proj2 (nth_error_None _ _)) by lia. reflexivity.
Qed.

Lemma reorderLayers_moves_one_layer_witness :
  (0 <= 0 < 3)%Z
  /\ exists st' : state,
       reorderLayers 0 2 Sample.threeLayers = Some st'
       /\ map Layer.id (layers st') = ["b"; "c"; "a"].
Proof.
  split; [lia |].
  destruct (reorderLayers_moves_one_layer 0 2 Sample.threeLayers) as [Hmove _].
  destruct (Hmove ltac:(cbn; lia)) as (moved & st' & _ & Hrun & _).
  exists st'. split; [exact Hrun |].
  cbv in Hrun. inversion Hrun. reflexivity.
Defined.

(** X2. Moving a layer from one valid index to another and back gives
    the state it started from. *)
Theorem reorderLayers_round_trip (fromIndex toIndex : Z) (st : state) :
  (0 <= fromIndex < Z.of_nat (List.length (layers st)))%Z ->
  (0 <= toIndex < Z.of_nat (List.length (layers st)))%Z ->
  exists st' : state,
    reorderLayers fromIndex toIndex st = Some st'
    /\ reorderLayers toIndex fromIndex st' = Some st.
Proof.
  intros Hfrom Hto.
  destruct (nth_error (layers st) (Z.to_nat fromIndex)) as [moved |] eqn:Hnth.
  2: { apply nth_error_None in Hnth. lia. }
  eexists. split; [apply reorderLayers_at; [lia | exact Hnth] |].
  set (rest := (firstn _ _ ++ skipn _ _)%list).
  assert (Hrest : List.length rest = (List.length (layers st) - 1)%nat)
    by (apply removed_length; lia).
  assert (Hk : (Z.to_nat toIndex <= List.length rest)%nat) by lia.
  assert (Hin : spliceIn rest toIndex moved
                = (firstn (Z.to_nat toIndex) rest
                   ++ moved :: skipn (Z.to_nat toIndex) rest)%list).
  { unfold spliceIn. rewrite spliceStart_within by lia. reflexivity. }
  rewrite (@reorderLayers_at toIndex fromIndex _ moved);
    cbn [layers activeLayerId expandedLayerIds]; [| lia |].
  2: { rewrite Hin. apply inserted_at. exact Hk. }
  rewrite Hin, inserted_then_removed by exact Hk.
  unfold spliceIn. rewrite Hrest. rewrite spliceStart_within by lia.
  subst rest. rewrite removed_then_inserted by exact Hnth.
  destruct st; reflexivity.
Qed.

Lemma reorderLayers_round_trip_witness :
  (0 <= 2 < Z.of_nat (List.length (layers Sample.threeLayers)))%Z
  /\ (0 <= 0 < Z.of_nat (List.length (layers Sample.threeLayers)))%Z
  /\ exists st' : state,
       reorderLayers 2 0 Sample.threeLayers = Some st'
       /\ reorderLayers 0 2 st' = Some Sample.threeLayers.
Proof.
  assert (H2 : (0 <= 2 < Z.of_nat (List.length (layers Sample.threeLayers)))%Z)
    by (cbn; lia).
  assert (H0 : (0 <= 0 < Z.of_nat (List.length (layers Sample.threeLayers)))%Z)
    by (cbn; lia).
  split; [exact H2 |]. split; [exact H0 |].
  exact (@reorderLayers_round_trip 2 0 Sample.threeLayers H2 H0).
Defined.

End Reordering.

Section Dragging.
Import JS LayerManager LayersSection Design.
Open Scope string_scope.

Lemma findIndex_bounds (A : Type) (p : A -> bool) (arr : list A) :
  (-1 <= findIndex p arr < Z.of_nat (List.length arr))%Z.
Proof.
  induction arr as [| a arr IH]; cbn [findIndex List.length]; [lia |].
  destruct (p a); [lia |].
  destruct (Z.ltb_spec (findIndex p arr) 0); lia.
Qed.

Lemma findIndex_found (A : Type) (p : A -> bool) (arr : list A) :
  (0 <= findIndex p arr)%Z ->
  exists a : A, nth_error arr (Z.to_nat (findIndex p arr)) = Some a /\ p a = true.
Proof.
  induction arr as [| a arr IH]; cbn [findIndex]; [lia |].
  destruct (p a) eqn:Hp; [intros _; exists a; split; [reflexivity | exact Hp] |].
  destruct (Z.ltb_spec (findIndex p arr) 0); [lia |]. intros _.
  destruct (IH ltac:(lia)) as (a' & Hnth & Hp').
  exists a'. split; [| exact Hp'].
  replace (Z.to_nat (findIndex p arr + 1)) with (S (Z.to_nat (findIndex p arr))) by lia.
  exact Hnth.
Qed.

Lemma findIndex_missing (A : Type) (p : A -> bool) (arr : list A) :
  (findIndex p arr < 0)%Z <-> forall a : A, In a arr -> p a = false.
Proof.
  induction arr as [| a arr IH]; cbn [findIndex].
  - split; [intros _ a [] | lia].
  - destruct (p a) eqn:Hp.
    + split; [lia |]. intros Hall. specialize (Hall a (or_introl eq_refl)). congruence.
    + destruct (Z.ltb_spec (findIndex p arr) 0) as [Hneg | Hpos].
      * split; [| lia]. intros _ a' [<- | Hin]; [exact Hp | apply IH; assumption].
      * split; [lia |]. intros Hall.
        assert ((findIndex p arr < 0)%Z); [| lia].
        apply IH. intros a' Hin. apply Hall. right. exact Hin.
Qed.

(** X3. Dropping a dragged layer of the list on the row at a valid
    index puts that layer at the index and keeps all layers; when no
    layer has the dragged identifier, [findIndex] gives -1, which
    [splice] counts from the end: the last layer is moved instead.
    With nothing dragged the drop does nothing. *)
Theorem onDrop_places_dragged_layer (dragged : string) (index : Z) (st : state) :
  let len := Z.of_nat (List.length (layers st)) in
  (In dragged (map Layer.id (layers st)) ->
   (0 <= index < len)%Z ->
   exists (layer : Layer.t) (st' : state),
     onDrop (Some dragged) index st = Some st'
     /\ nth_error (layers st') (Z.to_nat index) = Some layer
     /\ Layer.id layer = dragged
     /\ Permutation (layers st) (layers st'))
  /\ (~ In dragged (map Layer.id (layers st)) ->
      layers st <> [] ->
      onDrop (Some dragged) index st = reorderLayers (len - 1) index st)
  /\ onDrop None index st = Some st.
Proof.
  intros len. unfold onDrop.
  set (p := fun l : Layer.t => Layer.id l =? dragged).
  pose proof (findIndex_bounds p (layers st)) as Hbounds. fold len in Hbounds.
  split; [| split; [| reflexivity]].
  - intros Hin Hindex.
    assert (Hfound : (0 <= findIndex p (layers st))%Z).
    { destruct (Z.ltb_spec (findIndex p (layers st)) 0) as [Hneg | ]; [| assumption].
      exfalso. apply in_map_iff in Hin. destruct Hin as (l & Hid & Hl).
      pose proof (proj1 (findIndex_missing p (layers st)) Hneg l Hl) as Hp.
      unfold p in Hp. rewrite Hid, String.eqb_refl in Hp. discriminate. }
    destruct (findIndex_found p (layers st) Hfound) as (layer & Hnth & Hp).
    exists layer. eexists.
    split; [apply reorderLayers_at; [exact Hfound | exact Hnth] |].
    cbn [layers].
    set (rest := (firstn _ _ ++ skipn _ _)%list).
    assert (Hrest : List.length rest = (List.length (layers st) - 1)%nat)
      by (apply removed_length; lia).
    split.
    { unfold spliceIn. rewrite Hrest, spliceStart_within by lia.
      apply inserted_at. lia. }
    split; [apply String.eqb_eq; exact Hp |].
    etransitivity; [apply removed_Permutation; exact Hnth |].
    apply inserted_Permutation.
  - intros Hnotin Hne.
    assert (Hmiss : findIndex p (layers st) = (-1)%Z).
    { assert ((findIndex p (layers st) < 0)%Z); [| lia].
      apply findIndex_missing. intros l Hl. unfold p.
      apply String.eqb_neq. intros Heq. apply Hnotin, in_map_iff.
      exists l. split; assumption. }
    rewrite Hmiss.
    assert (Hlen : (1 <= len)%Z).
    { subst len. destruct (layers st); [congruence | cbn [List.length]; lia]. }
    unfold reorderLayers, spliceOut. fold len.
    replace (spliceStart len (-1)) with (len - 1)%Z by (unfold spliceStart; cbn; lia).
    rewrite (spliceStart_within (i := (len - 1)%Z)) by lia. reflexivity.
Qed.

Lemma onDrop_places_dragged_layer_witness :
  In "c" (map Layer.id (layers Sample.threeLayers))
  /\ (0 <= 0 < 3)%Z
  /\ exists st' : state,
       onDrop (Some "c") 0 Sample.threeLayers = Some st'
       /\ map Layer.id (layers st') = ["c"; "a"; "b"].
Proof.
  assert (Hin : In "c" (map Layer.id (layers Sample.threeLayers)))
    by (cbn; right; right; left; reflexivity).
  split; [exact Hin |]. split; [lia |].
  destruct (onDrop_places_dragged_layer "c" 0 Sample.threeLayers) as [Hknown _].
  destruct (Hknown Hin ltac:(cbn; lia)) as (layer & st' & Hrun & _).
  exists st'. split; [exact Hrun |].
  cbv in Hrun. inversion Hrun. reflexivity.
Defined.

End Dragging.

Section ShapeOfActiveLayer.
Import JS LayerManager PatternGenerator Design.
Open Scope string_scope.

Lemma updateLayerProperty_layers (layerId : string) (updates : Layer.partial)
    (st : state) :
  layers (updateLayerProperty layerId updates st)
  = map (fun layer => if Layer.id layer =? layerId
                      then Layer.spread layer updates else layer)
        (layers st).
Proof. reflexivity. Qed.

(** X4. Loading a shape sets image and brightness grid on the layers
    with the active identifier and on no other layer; clearing sets
    both back to null together, after which the resolver is neutral (1)
    at every cell of such a layer.  On a state whose active layer had
    no shape, loading a shape and clearing it gives the state back. *)
Theorem clearShape_undoes_shapeLoaded
    (img : Layer.HTMLImageElement) (brightnessMap : list (list Q)) (st : state) :
  (forall layer : Layer.t,
      In layer (layers (clearShape st)) ->
      Layer.id layer = activeLayerId st ->
      Layer.shapeImage layer = None
      /\ Layer.shapeData layer = None
      /\ forall x y cols rows : Z,
           ColorUtils.getShapeBrightnessForLayer x y cols rows layer = Ok 1%Q)
  /\ (forall (i : nat) (layer : Layer.t),
         nth_error (layers st) i = Some layer ->
         exists loaded : Layer.t,
           nth_error (layers (shapeLoaded img brightnessMap st)) i = Some loaded
           /\ (Layer.id layer <> activeLayerId st -> loaded = layer)
           /\ (Layer.id layer = activeLayerId st ->
               Layer.shapeImage loaded = Some img
               /\ Layer.shapeData loaded = Some brightnessMap
               /\ Layer.id loaded = Layer.id layer
               /\ Layer.name loaded = Layer.name layer
               /\ Layer.visible loaded = Layer.visible layer
               /\ Layer.opacity loaded = Layer.opacity layer
               /\ Layer.config loaded = Layer.config layer))
  /\ ((forall layer : Layer.t,
          In layer (layers st) ->
          Layer.id layer = activeLayerId st ->
          Layer.shapeImage layer = None /\ Layer.shapeData layer = None) ->
      clearShape (shapeLoaded img brightnessMap st) = st).
Proof.
  split; [| split].
  - intros layer Hin Hid. unfold clearShape in Hin.
    rewrite updateLayerProperty_layers in Hin. apply in_map_iff in Hin.
    destruct Hin as (old & Hlayer & _).
    destruct (String.eqb_spec (Layer.id old) (activeLayerId st)) as [Hact | Hother].
    + subst layer. cbn. repeat split.
    + subst layer. contradiction.
  - intros i layer Hnth. unfold shapeLoaded.
    rewrite updateLayerProperty_layers, nth_error_map, Hnth. cbn [option_map].
    eexists. split; [reflexivity |].
    destruct (String.eqb_spec (Layer.id layer) (activeLayerId st)) as [Hact | Hother].
    + split; [intros Hne; contradiction |]. intros _. cbn. repeat split.
    + split; [reflexivity | intros Heq; contradiction].
  - intros Hnone. unfold clearShape, shapeLoaded, updateLayerProperty.
    cbn [layers activeLayerId expandedLayerIds].
    destruct st as [ls active expanded]. cbn [layers activeLayerId expandedLayerIds] in *.
    f_equal. rewrite map_map.
    rewrite <- (map_id ls) at 2. apply map_ext_in. intros layer Hin.
    destruct (String.eqb_spec (Layer.id layer) active) as [Hact | Hother].
    + cbn [Layer.spread Layer.id Layer.p_id LayerConfig.pick].
      rewrite Hact, String.eqb_refl.
      destruct (Hnone layer Hin Hact) as [Himg Hdata].
      destruct layer; cbn in *. subst. reflexivity.
    + destruct (String.eqb_spec (Layer.id layer) active); [contradiction | reflexivity].
Qed.

Lemma clearShape_undoes_shapeLoaded_witness :
  (forall layer : Layer.t,
      In layer (layers Sample.threeLayers) ->
      Layer.id layer = activeLayerId Sample.threeLayers ->
      Layer.shapeImage layer = None /\ Layer.shapeData layer = None)
  /\ clearShape (shapeLoaded "data:image/png;base64," [[0.5%Q]] Sample.threeLayers)
     = Sample.threeLayers.
Proof.
  assert (Hnone : forall layer : Layer.t,
             In layer (layers Sample.threeLayers) ->
             Layer.id layer = activeLayerId Sample.threeLayers ->
             Layer.shapeImage layer = None /\ Layer.shapeData layer = None).
  { intros layer [<- | [<- | [<- | []]]] _; split; reflexivity. }
  split; [exact Hnone |].
  apply (clearShape_undoes_shapeLoaded "data:image/png;base64," [[0.5%Q]]
           Sample.threeLayers).
  exact Hnone.
Defined.

End ShapeOfActiveLayer.

Section ActiveLayer.
Import JS LayerManager Design.
Open Scope string_scope.




(** X6. Removing a layer from a list of more than one takes its
    identifier out of the layer list and out of the expanded set; a
    removal by an identifier no layer has leaves the layers and the
    active layer as they are. *)
Theorem removeLayer_forgets_the_identifier (layerId : string) (st : state) :
  wellFormed st ->
  activeExists st ->
  List.length (layers st) <> 1%nat ->
  let st' := snd (removeLayer layerId st) in
  ~ In layerId (map Layer.id (layers st'))
  /\ ~ In layerId (expandedLayerIds st')
  /\ (forall other : string,
         other <> layerId ->
         (In other (expandedLayerIds st') <-> In other (expandedLayerIds st)))
  /\ (~ In layerId (map Layer.id (layers st)) ->
      layers st' = layers st /\ activeLayerId st' = activeLayerId st).
Proof.
  intros ((Hlo & Hhi) & Hnd) Hex Hmore st'.
  assert (Hst' : layers st' = remaining layerId (layers st)
                 /\ expandedLayerIds st' = setDelete (expandedLayerIds st) layerId
                 /\ (activeLayerId st <> layerId -> activeLayerId st' = activeLayerId st)).
  { subst st'. unfold removeLayer. fold (remaining layerId (layers st)).
    destruct (Nat.eqb_spec (List.length (layers st)) 1); [contradiction |].
    pose proof (remaining_length_ge layerId _ Hnd) as Hge.
    destruct (String.eqb_spec (activeLayerId st) layerId) as [Hact | Hother].
    - destruct (remaining layerId (layers st)) as [| first rest] eqn:Hrem.
      + cbn in Hge. lia.
      + cbn. repeat split. intros Hne. contradiction.
    - cbn. repeat split. }
  destruct Hst' as (Hlayers & Hexp & Hactive).
  split.
  { rewrite Hlayers. intros Hin. apply in_map_iff in Hin.
    destruct Hin as (l & Hid & Hl). apply filter_In in Hl. destruct Hl as [_ Hneq].
    rewrite Hid, String.eqb_refl in Hneq. discriminate. }
  split.
  { rewrite Hexp. unfold setDelete. intros Hin. apply filter_In in Hin.
    destruct Hin as [_ Hneq]. rewrite String.eqb_refl in Hneq. discriminate. }
  split.
  { intros other Hne. rewrite Hexp. unfold setDelete. rewrite filter_In.
    split; [tauto |]. intros Hin. split; [exact Hin |].
    apply negb_true_iff, String.eqb_neq. exact Hne. }
  intros Hnotin. split.
  - rewrite Hlayers. apply remaining_all_when_absent. exact Hnotin.
  - apply Hactive. intros Heq. apply Hnotin. rewrite <- Heq. exact Hex.
Qed.

Lemma removeLayer_forgets_the_identifier_witness :
  wellFormed Sample.threeLayers
  /\ activeExists Sample.threeLayers
  /\ List.length (layers Sample.threeLayers) <> 1%nat
  /\ ~ In "a" (expandedLayerIds (snd (removeLayer "a" Sample.threeLayers))).
Proof.
  assert (Hwf : wellFormed Sample.threeLayers).
  { split; [cbn; lia |]. cbn.
    repeat constructor; cbn; intuition discriminate. }
  assert (Hex : activeExists Sample.threeLayers) by (cbn; tauto).
  assert (Hlen : List.length (layers Sample.threeLayers) <> 1%nat) by (cbn; lia).
  split; [exact Hwf |]. split; [exact Hex |]. split; [exact Hlen |].
  exact (proj1 (proj2 (@removeLayer_forgets_the_identifier "a" Sample.threeLayers
                         Hwf Hex Hlen))).
Defined.

(** X7. Toggling the expansion of a layer flips the membership of its
    identifier in the expanded set and of no other, keeps the set free
    of duplicates and leaves the layers and the active layer alone;
    toggling twice gives the same set of identifiers. *)
Theorem toggleLayerExpand_flips_one_member (layerId : string) (st : state) :
  let st' := toggleLayerExpand layerId st in
  (In layerId (expandedLayerIds st') <-> ~ In layerId (expandedLayerIds st))
  /\ (forall other : string,
         other <> layerId ->
         (In other (expandedLayerIds st') <-> In other (expandedLayerIds st)))
  /\ (NoDup (expandedLayerIds st) -> NoDup (expandedLayerIds st'))
  /\ layers st' = layers st
  /\ activeLayerId st' = activeLayerId st
  /\ (forall e : string,
         In e (expandedLayerIds (toggleLayerExpand layerId st'))
         <-> In e (expandedLayerIds st)).
Proof.
  assert (Hflip : forall s : state,
             (In layerId (expandedLayerIds (toggleLayerExpand layerId s))
              <-> ~ In layerId (expandedLayerIds s))
             /\ (forall other : string,
                    other <> layerId ->
                    (In other (expandedLayerIds (toggleLayerExpand layerId s))
                     <-> In other (expandedLayerIds s)))).
  { intros s. unfold toggleLayerExpand. cbn [expandedLayerIds].
    destruct (existsb (String.eqb layerId) (expandedLayerIds s)) eqn:Hhas.
    - apply existsb_exists in Hhas. destruct Hhas as (e & He & Heq).
      apply String.eqb_eq in Heq. subst e. unfold setDelete. split.
      + rewrite filter_In, String.eqb_refl. cbn. split; [intros [_ H]; discriminate | tauto].
      + intros other Hne. rewrite filter_In. split; [tauto |].
        intros Hin. split; [exact Hin |]. apply negb_true_iff, String.eqb_neq. exact Hne.
    - assert (Hnot : ~ In layerId (expandedLayerIds s)).
      { intros Hin. apply not_true_iff_false in Hhas. apply Hhas.
        apply existsb_exists. exists layerId. split; [exact Hin | apply String.eqb_refl]. }
      split.
      + split; [intros _; exact Hnot |]. intros _. apply in_or_app. right. left. reflexivity.
      + intros other Hne. rewrite in_app_iff. cbn. split; [| tauto].
        intros [Hin | [Heq | []]]; [exact Hin | congruence]. }
  intros st'. subst st'. destruct (Hflip st) as [Hself Hothers].
  split; [exact Hself |]. split; [exact Hothers |].
  split.
  { intros Hnd. unfold toggleLayerExpand. cbn [expandedLayerIds].
    destruct (existsb (String.eqb layerId) (expandedLayerIds st)) eqn:Hhas.
    - apply NoDup_filter. exact Hnd.
    - apply NoDup_app; [exact Hnd | repeat constructor; intros [] |].
      intros e He [Heq | []]. subst e. apply not_true_iff_false in Hhas. apply Hhas.
      apply existsb_exists. exists layerId. split; [exact He | apply String.eqb_refl]. }
  split; [reflexivity |]. split; [reflexivity |].
  intros e. destruct (Hflip (toggleLayerExpand layerId st)) as [Hself' Hothers'].
  destruct (String.eqb_spec e layerId) as [-> | Hne].
  - rewrite Hself', Hself. split; [| tauto].
    intros Hnn. destruct (in_dec string_dec layerId (expandedLayerIds st)); tauto.
  - rewrite (Hothers' e Hne). apply Hothers. exact Hne.
Qed.

End ActiveLayer.

Lemma toggleLayerExpand_flips_one_member_witness :
  "c"%string <> "a"%string
  /\ NoDup (LayerManager.expandedLayerIds Sample.threeLayers)
  /\ (In "c"%string
        (LayerManager.expandedLayerIds
           (LayerManager.toggleLayerExpand "a"%string Sample.threeLayers))
      <-> In "c"%string (LayerManager.expandedLayerIds Sample.threeLayers))
  /\ NoDup (LayerManager.expandedLayerIds
              (LayerManager.toggleLayerExpand "a"%string Sample.threeLayers)).
Proof.
  assert (Hne : "c"%string <> "a"%string) by discriminate.
  assert (Hnd : NoDup (LayerManager.expandedLayerIds Sample.threeLayers)).
  { cbn. repeat constructor; cbn; intuition discriminate. }
  split; [exact Hne |]. split; [exact Hnd |].
  destruct (toggleLayerExpand_flips_one_member "a"%string Sample.threeLayers)
    as (_ & Hothers & Hkeep & _).
  split; [exact (Hothers "c"%string Hne) | exact (Hkeep Hnd)].
Defined.

(** ** Frame stepping *)

Section FrameStepping.
Import CanvasAnimation.

(** C9. [stepFrame direction] moves the frame counter by exactly
    [direction], hence by exactly one frame forwards or backwards for
    the two directions the controls pass, and calls the render callback
    exactly once, with the new value of the counter. *)
Theorem stepFrame_moves_one_frame_and_renders_once
    (direction : Z) (st : state) :
  (forall (World : Type) (onRenderFrame : Z -> World -> World) (w : World),
      let (st', w') := stepFrame onRenderFrame direction (st, w) in
      frameCounterRef st' = (frameCounterRef st + direction)%Z
      /\ currentFrame st' = frameCounterRef st'
      /\ isAnimating st' = isAnimating st
      /\ w' = onRenderFrame (frameCounterRef st') w)
  /\ (forall calls : list Z,
      snd (stepFrame Design.recordCall direction (st, calls))
      = calls ++ [(frameCounterRef st + direction)%Z])
  /\ (direction = 1%Z \/ direction = (-1)%Z ->
      Z.abs (frameCounterRef (fst (stepFrame Design.recordCall direction (st, [])))
             - frameCounterRef st) = 1%Z).
Proof.
  split; [| split].
  - intros World onRenderFrame w. cbn. repeat split.
  - intros calls. reflexivity.
  - intros Hdir. cbn. lia.
Qed.

Lemma stepFrame_moves_one_frame_and_renders_once_witness :
  ((-1)%Z = 1%Z \/ (-1)%Z = (-1)%Z)
  /\ Z.abs (frameCounterRef (fst (stepFrame Design.recordCall (-1) (initial false, [])))
            - frameCounterRef (initial false)) = 1%Z.
Proof.
  split; [right; reflexivity |].
  apply (stepFrame_moves_one_frame_and_renders_once (-1) (initial false)).
  right. reflexivity.
Defined.

End FrameStepping.

(** ** Playback *)

Section Playback.
Import CanvasAnimation Design.
Open Scope Q_scope.

Variable animationSpeed : Z.

Lemma geb_ge (a b : Q) : JS.geb a b = true <-> b <= a.
Proof. unfold JS.geb. apply Qle_bool_iff. Qed.

(** One tick, with the callback that records its calls. *)
Lemma animate_tick (timestamp : Q) (st : state) (calls : list Z) :
  let (st', calls') := animate recordCall animationSpeed timestamp (st, calls) in
  (inject_Z animationSpeed <= timestamp - lastFrameTimeRef st ->
   frameCounterRef st' = (frameCounterRef st + 1)%Z
   /\ calls' = (calls ++ [(frameCounterRef st + 1)%Z])%list
   /\ lastFrameTimeRef st' = timestamp)
  /\ (timestamp - lastFrameTimeRef st < inject_Z animationSpeed ->
      st' = st /\ calls' = calls)
  /\ isAnimating st' = isAnimating st.
Proof.
  unfold animate.
  destruct (JS.geb (timestamp - lastFrameTimeRef st) (inject_Z animationSpeed)) eqn:Hacc.
  - apply geb_ge in Hacc. cbn. split; [intros _; repeat split |].
    split; [| reflexivity]. intros Hlt. exfalso. apply (Qlt_not_le _ _ Hlt Hacc).
  - split; [| split; [intros _; split; reflexivity | reflexivity]].
    intros Hge. apply geb_ge in Hge. congruence.
Qed.

(** X8. Whatever the time stamps of the ticks, playback renders
    consecutive frames: the frames rendered are those after the frame
    counter, one at a time and in order, each exactly once, and their
    number is the advance of the counter (at most one per tick); the
    time stamp of the last frame accepted is at least that number of
    intervals after the one it started from. *)
Theorem playback_renders_consecutive_frames
    (timestamps : list Q) (st : state) (calls : list Z) :
  let (st', calls') := animateAt recordCall animationSpeed timestamps (st, calls) in
  exists k : nat,
    (k <= List.length timestamps)%nat
    /\ frameCounterRef st' = (frameCounterRef st + Z.of_nat k)%Z
    /\ calls' = (calls ++ map (fun i => (frameCounterRef st + 1 + Z.of_nat i)%Z) (seq 0 k))%list
    /\ isAnimating st' = isAnimating st
    /\ lastFrameTimeRef st + inject_Z (Z.of_nat k) * inject_Z animationSpeed
       <= lastFrameTimeRef st'.
Proof.
  revert st calls. induction timestamps as [| t later IH]; intros st calls.
  - cbn [animateAt]. exists 0%nat. cbn [List.length seq map].
    rewrite Z.add_0_r, app_nil_r. repeat split; try lia.
    change (inject_Z (Z.of_nat 0)) with 0. lra.
  - cbn [animateAt].
    pose proof (animate_tick t st calls) as Htick.
    destruct (animate recordCall animationSpeed t (st, calls)) as [st1 calls1].
    destruct Htick as (Hacc & Hskip & Hplay).
    specialize (IH st1 calls1).
    destruct (animateAt recordCall animationSpeed later (st1, calls1)) as [st' calls'].
    destruct IH as (k & Hk & Hcounter & Hcalls & Hplay' & Hpace).
    destruct (Qlt_le_dec (t - lastFrameTimeRef st) (inject_Z animationSpeed))
      as [Hlt | Hge].
    + destruct (Hskip Hlt) as [-> ->].
      exists k. cbn [List.length]. repeat split; try assumption. lia.
    + destruct (Hacc Hge) as (Hc1 & Hcalls1 & Hlast1).
      exists (S k). cbn [List.length]. split; [lia |].
      split; [lia |]. split.
      { rewrite Hcalls, Hcalls1, <- app_assoc. f_equal.
        cbn [seq map app]. f_equal; [lia |].
        rewrite <- seq_shift, map_map. apply map_ext. intros i. lia. }
      split; [congruence |].
      rewrite Hlast1 in Hpace.
      replace (inject_Z (Z.of_nat (S k))) with (inject_Z (Z.of_nat k + 1))
        by (f_equal; lia).
      rewrite inject_Z_plus.
      change (inject_Z 1) with 1. lra.
Qed.

(** X9. The frame number shown never runs ahead of the frame counter
    and lags less than ten frames behind it, with no multiple of ten in
    between: this holds at the start, after every single step, and is
    kept by every tick of the playback and by pausing and resuming. *)
Theorem displayed_frame_in_step (st : state) :
  (forall startPlaying : bool, displayInStep (initial startPlaying))
  /\ (forall (World : Type) (onRenderFrame : Z -> World -> World)
             (direction : Z) (w : World),
         displayInStep (fst (stepFrame onRenderFrame direction (st, w))))
  /\ (displayInStep st ->
      (forall (World : Type) (onRenderFrame : Z -> World -> World)
              (timestamp : Q) (w : World),
          displayInStep (fst (animate onRenderFrame animationSpeed timestamp (st, w))))
      /\ displayInStep (toggleAnimation st)
      /\ (frameCounterRef st - currentFrame st < 10)%Z
      /\ (frameCounterRef st mod 10 = 0 -> currentFrame st = frameCounterRef st)%Z).
Proof.
  unfold displayInStep. split; [| split].
  - intros startPlaying. cbn. lia.
  - intros World onRenderFrame direction w. cbn.
    pose proof (Z.mod_pos_bound (frameCounterRef st + direction) 10). lia.
  - intros Hstep. split; [| split; [exact Hstep | split]].
    + intros World onRenderFrame timestamp w. unfold animate.
      destruct (JS.geb _ _); [| exact Hstep]. cbn [fst frameCounterRef currentFrame].
      pose proof (Z.mod_pos_bound (frameCounterRef st) 10 ltac:(lia)) as Hm.
      pose proof (Z.mod_pos_bound (frameCounterRef st + 1) 10 ltac:(lia)) as Hm1.
      destruct (Z.eqb_spec (Z.rem (frameCounterRef st + 1) 10) 0) as [Hz | Hnz].
      * lia.
      * assert (Hmod : ((frameCounterRef st + 1) mod 10 <> 0)%Z).
        { intros Hmod. apply Hnz. apply Z.rem_divide; [lia |].
          apply Z.mod_divide; [lia | exact Hmod]. }
        assert (Hnext : ((frameCounterRef st + 1) mod 10
                         = frameCounterRef st mod 10 + 1)%Z).
        { rewrite Z.add_mod by lia.
          change (1 mod 10)%Z with 1%Z.
          destruct (Z.eq_dec (frameCounterRef st mod 10) 9) as [H9 | H9].
          - exfalso. apply Hmod. rewrite Z.add_mod by lia. rewrite H9. reflexivity.
          - apply Z.mod_small. lia. }
        lia.
    + pose proof (Z.mod_pos_bound (frameCounterRef st) 10 ltac:(lia)). lia.
    + intros Hz. lia.
Qed.

End Playback.

Lemma displayed_frame_in_step_witness :
  Design.displayInStep (CanvasAnimation.initial false)
  /\ Design.displayInStep
       (fst (CanvasAnimation.animate Design.recordCall 50 60
               (CanvasAnimation.initial false, []))).
Proof.
  assert (Hstart : Design.displayInStep (CanvasAnimation.initial false))
    by (unfold Design.displayInStep; cbn; lia).
  split; [exact Hstart |].
  destruct (displayed_frame_in_step 50 (CanvasAnimation.initial false))
    as (_ & _ & Hkeep).
  destruct (Hkeep Hstart) as (Htick & _).
  apply Htick.
Defined.

(** ** Drop state *)

Section DropState.
Import JS Render CanvasRenderer Design.
Open Scope Q_scope.

Lemma floorDiv_nonneg (a b : Z) : (0 <= a)%Z -> (0 < b)%Z -> (0 <= floorDiv a b)%Z.
Proof.
  intros Ha Hb. unfold floorDiv.
  change 0%Z with (Qfloor 0). apply Qfloor_resp_le.
  apply Qle_shift_div_l.
  - change 0 with (inject_Z 0). rewrite <- Zlt_Qlt. exact Hb.
  - rewrite Qmult_0_l. change 0 with (inject_Z 0). rewrite <- Zle_Qle. exact Ha.
Qed.

Variable host : Host.t.
Hypothesis random_range : forall n : nat, 0 <= Host.random host n < 1.

(** One drop: the update never throws, paints nothing and follows the
    mutation rule. *)
Lemma updateDrop_advances (params : UseCanvasRendererParams) (d : Drop.t) (s : state) :
  exists (d' : Drop.t) (s' : state),
    updateDrop host params d s = (Ok d', s')
    /\ ctx s' = ctx s
    /\ drops s' = drops s
    /\ dropAdvanced (floorDiv (height (canvasSize params)) (cellSize params)) d d'.
Proof.
  unfold updateDrop, gtb.
  set (rows := floorDiv _ _).
  destruct (ltb (inject_Z rows + Drop.length d) (Drop.y d + Drop.speed d * 0.3))
    eqn:Hwrap.
  - apply ltb_lt in Hwrap.
    eexists. eexists. split; [reflexivity |]. cbn [ctx drops].
    split; [reflexivity |]. split; [reflexivity |].
    unfold dropAdvanced. cbn [Drop.x Drop.y Drop.speed Drop.length].
    split; [reflexivity |]. split; [reflexivity |]. split.
    + intros _. split; [reflexivity |].
      pose proof (random_range (randomCalls s)). split; lra.
    + intros Hno. lra.
  - apply ltb_ge in Hwrap.
    eexists. eexists. split; [reflexivity |].
    split; [reflexivity |]. split; [reflexivity |].
    unfold dropAdvanced. cbn [Drop.x Drop.y Drop.speed Drop.length].
    split; [reflexivity |]. split; [reflexivity |]. split.
    + intros Hyes. lra.
    + intros _. split; reflexivity.
Qed.

Lemma mapM_updateDrop_advances (params : UseCanvasRendererParams)
    (ds : list Drop.t) (s : state) :
  exists (ds' : list Drop.t) (s' : state),
    mapM (updateDrop host params) ds s = (Ok ds', s')
    /\ ctx s' = ctx s
    /\ drops s' = drops s
    /\ Forall2 (dropAdvanced (floorDiv (height (canvasSize params)) (cellSize params)))
         ds ds'.
Proof.
  revert s. induction ds as [| d ds IH]; intros s.
  - exists [], s. repeat split. constructor.
  - destruct (updateDrop_advances params d s) as (d' & s1 & Hd & Hc1 & Hd1 & Hadv).
    destruct (IH s1) as (ds' & s2 & Hds & Hc2 & Hd2 & Hall).
    exists (d' :: ds'), s2. cbn [mapM]. unfold bind at 1. rewrite Hd.
    unfold bind at 1. rewrite Hds. unfold ret.
    split; [reflexivity |].
    split; [congruence |]. split; [congruence |].
    constructor; assumption.
Qed.

(** The whole pass: it never throws, paints nothing, and replaces the
    drop array by the advanced drops. *)
Lemma updateDrops_advances (params : UseCanvasRendererParams) (s : state) :
  exists s' : state,
    updateDrops host params s = (Ok tt, s')
    /\ ctx s' = ctx s
    /\ Forall2 (dropAdvanced (floorDiv (height (canvasSize params)) (cellSize params)))
         (drops s) (drops s').
Proof.
  destruct (mapM_updateDrop_advances params (drops s) s)
    as (ds' & s1 & Hrun & Hc & _ & Hall).
  unfold updateDrops, getDrops. unfold bind at 1. unfold bind at 1.
  rewrite Hrun. unfold setDrops.
  eexists. split; [reflexivity |]. cbn [ctx drops].
  split; [exact Hc | exact Hall].
Qed.

Lemma dropAdvanced_within (rows : Z) (d d' : Drop.t) :
  (0 <= rows)%Z -> 0 <= Drop.length d ->
  dropAdvanced rows d d' ->
  Drop.y d' <= inject_Z rows + Drop.length d'.
Proof.
  intros Hrows Hlen (_ & Hl & Hwrap & Hstay).
  rewrite Hl.
  assert (Hr : 0 <= inject_Z rows)
    by (change 0 with (inject_Z 0); rewrite <- Zle_Qle; exact Hrows).
  destruct (Qlt_le_dec (inject_Z rows + Drop.length d)
              (Drop.y d + Drop.speed d * 0.3)) as [Hgt | Hle].
  - destruct (Hwrap Hgt) as [Hy _]. rewrite Hy. lra.
  - destruct (Hstay Hle) as [Hy _]. rewrite Hy. exact Hle.
Qed.

(** C5. After a mutation pass over drops of non-negative length on a
    grid of a non-negative number of rows, every drop has
    [y <= rows + length]; each drop moved by [speed * 0.3], or was
    reset to [-length] with a speed in [0.5, 2.0] when that would take
    it past [rows + length].  On 50 rows a drop of length 20 at
    [y = 69.5] is reset to [y = -20] exactly when the step takes it
    past 70. *)
Theorem drop_y_bounded_after_update (params : UseCanvasRendererParams) (s : state) :
  let rows := floorDiv (height (canvasSize params)) (cellSize params) in
  (0 <= height (canvasSize params))%Z ->
  (0 < cellSize params)%Z ->
  Forall (fun d => 0 <= Drop.length d) (drops s) ->
  exists s' : state,
    updateDrops host params s = (Ok tt, s')
    /\ Forall2 (dropAdvanced rows) (drops s) (drops s')
    /\ Forall (fun d' => Drop.y d' <= inject_Z rows + Drop.length d') (drops s')
    /\ (rows = 50%Z ->
        forall (x : Z) (speed : Q),
          let d := {| Drop.x := x; Drop.y := 69.5; Drop.speed := speed;
                      Drop.length := 20 |} in
          exists (d' : Drop.t) (s1 : state),
            updateDrop host params d s = (Ok d', s1)
            /\ (70 < 69.5 + speed * 0.3 -> Drop.y d' = - (20))
            /\ (69.5 + speed * 0.3 <= 70 -> Drop.y d' = 69.5 + speed * 0.3)).
Proof.
  intros rows Hh Hc Hlen.
  destruct (updateDrops_advances params s) as (s' & Hrun & _ & Hall).
  fold rows in Hall.
  exists s'. split; [exact Hrun |]. split; [exact Hall |]. split.
  - pose proof (floorDiv_nonneg Hh Hc) as Hrows. fold rows in Hrows.
    clear Hrun. induction Hall as [| d d' ds ds' Hd Hds IH]; [constructor |].
    inversion Hlen; subst. constructor.
    + eapply dropAdvanced_within; eassumption.
    + apply IH. assumption.
  - intros Hrows50 x speed d.
    destruct (updateDrop_advances params d s) as (d' & s1 & Hd & _ & _ & Hadv).
    fold rows in Hadv. rewrite Hrows50 in Hadv.
    exists d', s1. split; [exact Hd |].
    destruct Hadv as (_ & _ & Hwrap & Hstay). cbn [Drop.y Drop.speed Drop.length d] in *.
    split.
    + intros Hpast. apply Hwrap. unfold d, inject_Z.
      cbn [Drop.y Drop.speed Drop.length]. lra.
    + intros Hnot. apply Hstay. unfold d, inject_Z.
      cbn [Drop.y Drop.speed Drop.length]. lra.
Qed.

End DropState.

(** ** Making the drops and the seed table *)

Section DropsHookProperties.
Import JS DropsHook Design.
Open Scope Q_scope.

Variable host : Host.t.
Hypothesis random_range : forall n : nat, 0 <= Host.random host n < 1.

Lemma newDrop_fresh (rows i : Z) (n : nat) :
  (0 <= rows)%Z ->
  exists d : Drop.t,
    newDrop host rows i n = (d, (n + 3)%nat)
    /\ Drop.x d = i
    /\ freshDrop rows d.
Proof.
  intros Hrows. eexists. split; [| split].
  - unfold newDrop, bind, random, ret.
    replace (n + 3)%nat with (S (S (S n))) by lia. reflexivity.
  - reflexivity.
  - unfold freshDrop. cbn [Drop.y Drop.speed Drop.length].
    pose proof (random_range n). pose proof (random_range (S n)).
    pose proof (random_range (S (S n))).
    assert (Hr : 0 <= inject_Z rows)
      by (change 0 with (inject_Z 0); rewrite <- Zle_Qle; exact Hrows).
    repeat split; nra.
Qed.

Lemma newSeed_unit (i : Z) (n : nat) :
  exists seed : RandomSeed.t,
    newSeed host i n = (seed, (n + 3)%nat) /\ unitSeed seed.
Proof.
  eexists. split.
  - unfold newSeed, bind, random, ret.
    replace (n + 3)%nat with (S (S (S n))) by lia. reflexivity.
  - unfold unitSeed. cbn [RandomSeed.r1 RandomSeed.r2 RandomSeed.r3].
    pose proof (random_range n). pose proof (random_range (S n)).
    pose proof (random_range (S (S n))). tauto.
Qed.

Lemma pushAll_each (A B : Type) (f : A -> R B) (P : A -> B -> Prop) (l : list A) :
  (forall (a : A) (n : nat), exists b : B, f a n = (b, (n + 3)%nat) /\ P a b) ->
  forall n : nat,
    exists bs : list B,
      pushAll f l n = (bs, (n + 3 * List.length l)%nat)
      /\ Forall2 P l bs.
Proof.
  intros Hf. induction l as [| a l IH]; intros n.
  - exists []. split; [| constructor].
    cbn [pushAll List.length]. unfold ret. rewrite Nat.mul_0_r, Nat.add_0_r. reflexivity.
  - destruct (Hf a n) as (b & Hb & HP).
    destruct (IH (n + 3)%nat) as (bs & Hbs & Hall).
    exists (b :: bs). split; [| constructor; assumption].
    cbn [pushAll]. unfold bind at 1. rewrite Hb.
    unfold bind at 1. rewrite Hbs. unfold ret. f_equal. cbn [List.length]. lia.
Qed.

(** X15. With [Math.random] within [0,1), a positive cell size and a
    canvas that is not empty, the effect replaces the drops by one per
    column, the drop of column [i] at [x = i] with [y] within
    [0, rows], a speed within [0.5, 2] and a length within [10, 30], and
    the seeds by [cols * rows] triplets within [0,1); it calls
    [Math.random] three times per drop and per seed.  On a canvas of
    width or height 0 it leaves both refs as they are and calls nothing. *)
Theorem initialise_fills_the_refs
    (width height cellSize : Z) (current : refs) (n : nat) :
  let cols := CanvasRenderer.floorDiv width cellSize in
  let rows := CanvasRenderer.floorDiv height cellSize in
  ((0 < width)%Z -> (0 < height)%Z -> (0 < cellSize)%Z ->
   exists made : refs,
     initialise host width height cellSize current n
     = (made, (n + 3 * Z.to_nat cols + 3 * Z.to_nat (cols * rows))%nat)
     /\ map Drop.x (dropsRef made) = Render.range cols
     /\ Z.of_nat (List.length (dropsRef made)) = cols
     /\ Forall (freshDrop rows) (dropsRef made)
     /\ Z.of_nat (List.length (randomSeedsRef made)) = (cols * rows)%Z
     /\ Forall unitSeed (randomSeedsRef made))
  /\ (width = 0%Z \/ height = 0%Z ->
      initialise host width height cellSize current n = (current, n)).
Proof.
  intros cols rows. split.
  - intros Hw Hh Hc.
    assert (Hcols : (0 <= cols)%Z) by (apply floorDiv_nonneg; lia).
    assert (Hrows : (0 <= rows)%Z) by (apply floorDiv_nonneg; lia).
    unfold initialise.
    destruct (Z.eqb_spec width 0); [lia |].
    destruct (Z.eqb_spec height 0); [lia |]. cbn [orb].
    fold cols rows.
    destruct (@pushAll_each Z Drop.t (newDrop host rows)
                (fun i d => Drop.x d = i /\ freshDrop rows d) (Render.range cols)
                (fun i m => newDrop_fresh i m Hrows) n) as (ds & Hds & Hdrops).
    destruct (@pushAll_each Z RandomSeed.t (newSeed host)
                (fun _ seed => unitSeed seed) (Render.range (cols * rows))
                (fun i m => newSeed_unit i m)
                (n + 3 * List.length (Render.range cols))%nat) as (ss & Hss & Hseeds).
    assert (Hrange : forall m : Z, List.length (Render.range m) = Z.to_nat m).
    { intros m. unfold Render.range. rewrite length_map, length_seq. reflexivity. }
    exists {| dropsRef := ds; randomSeedsRef := ss |}.
    split.
    { unfold bind at 1. rewrite Hds. unfold bind at 1. rewrite Hss.
      unfold ret. rewrite !Hrange. reflexivity. }
    cbn [dropsRef randomSeedsRef].
    assert (Hmade : forall (l : list Z) (made : list Drop.t),
               Forall2 (fun i d => Drop.x d = i /\ freshDrop rows d) l made ->
               map Drop.x made = l /\ Forall (freshDrop rows) made).
    { intros l made Hall. induction Hall as [| i d l l' [Hx Hfresh] _ [IHx IHf]].
      - split; [reflexivity | constructor].
      - split; [cbn [map]; rewrite Hx, IHx; reflexivity | constructor; assumption]. }
    destruct (Hmade _ _ Hdrops) as [Hxs Hfresh].
    split; [exact Hxs |].
    split.
    { rewrite <- (length_map Drop.x), Hxs, Hrange. lia. }
    split; [exact Hfresh |].
    split.
    { rewrite <- (Forall2_length Hseeds), Hrange.
      assert (0 <= cols * rows)%Z by (apply Z.mul_nonneg_nonneg; assumption).
      lia. }
    clear Hss. generalize dependent (Render.range (cols * rows)).
    intros l Hseeds. induction Hseeds; constructor; assumption.
  - intros Hzero. unfold initialise.
    destruct Hzero as [-> | ->]; [reflexivity |].
    rewrite Z.eqb_refl, orb_true_r. reflexivity.
Qed.

End DropsHookProperties.

Lemma initialise_fills_the_refs_witness :
  (forall n : nat, 0 <= Host.random Sample.host n < 1)%Q
  /\ (0 < 24)%Z
  /\ (0 < 12)%Z
  /\ exists made : DropsHook.refs,
       fst (DropsHook.initialise Sample.host 24 24 12
              {| DropsHook.dropsRef := []; DropsHook.randomSeedsRef := [] |} 0%nat)
       = made
       /\ map Drop.x (DropsHook.dropsRef made) = [0; 1]%Z
       /\ Z.of_nat (List.length (DropsHook.randomSeedsRef made)) = 4%Z.
Proof.
  split; [exact sample_random_range |].
  assert (H24 : (0 < 24)%Z) by lia.
  assert (H12 : (0 < 12)%Z) by lia.
  split; [exact H24 |]. split; [exact H12 |].
  destruct (@initialise_fills_the_refs Sample.host sample_random_range 24 24 12
              {| DropsHook.dropsRef := []; DropsHook.randomSeedsRef := [] |} 0%nat)
    as [Hfill _].
  destruct (Hfill H24 H24 H12) as (made & Hrun & Hxs & _ & _ & Hseeds & _).
  exists made. split; [rewrite Hrun; reflexivity |].
  split; [exact Hxs | exact Hseeds].
Defined.

(** ** Pattern renderers *)

Section PatternRenderers.
Import JS Render ColorUtils RenderPatterns Design.
Open Scope Q_scope.
Open Scope render_scope.

Variable host : Host.t.
Variable params : RenderPatternParams.

(** *** No renderer touches the drops *)

Lemma keepsDrops_setColorAndGlow (c : LayerConfig.t) (b : Q) (blur : Z) :
  keepsDrops (setColorAndGlow c b blur).
Proof.
  unfold setColorAndGlow. apply keepsDrops_bind; [auto with frame |]. intros _.
  destruct (_ =? _)%Z; [auto with frame |].
  apply keepsDrops_bind; auto with frame.
Qed.

Lemma keepsDrops_fillSymbol (syms : list string) (r px py : Q) :
  keepsDrops (fillSymbol syms r px py).
Proof. unfold fillSymbol. auto with frame. Qed.

Lemma keepsDrops_setShadowColor (c : LayerConfig.t) : keepsDrops (setShadowColor c).
Proof. unfold setShadowColor. destruct (LayerConfig.glowEffect c); auto with frame. Qed.

Ltac frame_step :=
  first
    [ apply keepsDrops_setColorAndGlow
    | apply keepsDrops_fillSymbol
    | apply keepsDrops_setShadowColor
    | apply keepsDrops_forEach; intros
    | apply keepsDrops_bind; [| intros]
    | solve [auto with frame]
    | match goal with
      | |- keepsDrops (if ?c then _ else _) => destruct c
      | |- keepsDrops (let (_, _) := ?p in _) => destruct p
      end ].

Ltac frame := repeat frame_step.

Lemma keepsDrops_rainCell (drop : Drop.t) (j blur : Z) :
  keepsDrops (rainCell params drop j blur).
Proof. unfold rainCell. frame. Qed.

Lemma keepsDrops_waveCell (i j blur : Z) : keepsDrops (waveCell host params i j blur).
Proof. unfold waveCell. frame. Qed.

Lemma keepsDrops_staticCell (off : option Z) (i j blur : Z) :
  keepsDrops (staticCell params off i j blur).
Proof. unfold staticCell. frame. Qed.

Lemma keepsDrops_glitchOffsets (idx : option Z) :
  keepsDrops (glitchOffsets host params idx).
Proof. unfold glitchOffsets. frame. Qed.

Lemma keepsDrops_glitchCell (i j blur : Z) : keepsDrops (glitchCell host params i j blur).
Proof.
  unfold glitchCell. apply keepsDrops_bind; [frame |]. intros sb.
  apply keepsDrops_bind; [apply keepsDrops_glitchOffsets |]. intros offs. frame.
Qed.

Lemma keepsDrops_pulseCell (p cx cy md : Q) (i j blur : Z) :
  keepsDrops (pulseCell host params p cx cy md i j blur).
Proof. unfold pulseCell. frame. Qed.

Lemma keepsDrops_forEachCell (cell : Z -> Z -> Z -> M Z) :
  (forall i j blur : Z, keepsDrops (cell i j blur)) ->
  keepsDrops (forEachCell params cell).
Proof.
  intros Hcell. unfold forEachCell.
  apply keepsDrops_bind; [| intros; apply keepsDrops_ret].
  apply keepsDrops_forEach. intros i blur.
  apply keepsDrops_forEach. intros j blur'. apply Hcell.
Qed.

Lemma keepsDrops_renderRainPattern : keepsDrops (renderRainPattern params).
Proof.
  unfold renderRainPattern.
  apply keepsDrops_bind; [apply keepsDrops_setShadowColor | intros _].
  apply keepsDrops_bind; [apply keepsDrops_getDrops | intros ds].
  apply keepsDrops_bind; [| intros; apply keepsDrops_ret].
  apply keepsDrops_forEach. intros drop blur.
  apply keepsDrops_forEach. intros j blur'. apply keepsDrops_rainCell.
Qed.

Lemma keepsDrops_renderWavePattern : keepsDrops (renderWavePattern host params).
Proof.
  unfold renderWavePattern.
  apply keepsDrops_bind; [apply keepsDrops_setShadowColor | intros _].
  apply keepsDrops_forEachCell. intros. apply keepsDrops_waveCell.
Qed.

Lemma keepsDrops_renderStaticPattern : keepsDrops (renderStaticPattern params).
Proof.
  unfold renderStaticPattern.
  apply keepsDrops_bind; [apply keepsDrops_setShadowColor | intros _].
  apply keepsDrops_forEachCell. intros. apply keepsDrops_staticCell.
Qed.

Lemma keepsDrops_renderGlitchPattern : keepsDrops (renderGlitchPattern host params).
Proof.
  unfold renderGlitchPattern.
  apply keepsDrops_bind; [apply keepsDrops_setShadowColor | intros _].
  apply keepsDrops_forEachCell. intros. apply keepsDrops_glitchCell.
Qed.

Lemma keepsDrops_renderPulsePattern : keepsDrops (renderPulsePattern host params).
Proof.
  unfold renderPulsePattern.
  apply keepsDrops_bind; [apply keepsDrops_setShadowColor | intros _].
  apply keepsDrops_forEachCell. intros. apply keepsDrops_pulseCell.
Qed.

(** *** Glitch: jitter only in the burst windows *)

Lemma paintsOnly_setColorAndGlow (P : Canvas.op -> Prop) (c : LayerConfig.t)
    (b : Q) (blur : Z) :
  (forall style : string, P (Canvas.SetFillStyle style)) ->
  (forall r : Z, P (Canvas.SetShadowBlur r)) ->
  paintsOnly P (setColorAndGlow c b blur).
Proof.
  intros Hstyle Hblur. unfold setColorAndGlow.
  apply paintsOnly_bind; [apply paintsOnly_emit, Hstyle | intros _].
  destruct (_ =? _)%Z; [apply paintsOnly_ret |].
  apply paintsOnly_bind; [apply paintsOnly_emit, Hblur | intros _; apply paintsOnly_ret].
Qed.

Lemma paintsOnly_setShadowColor (P : Canvas.op -> Prop) (c : LayerConfig.t) :
  (forall color : string, P (Canvas.SetShadowColor color)) ->
  paintsOnly P (setShadowColor c).
Proof.
  intros Hcolor. unfold setShadowColor.
  destruct (LayerConfig.glowEffect c); [apply paintsOnly_emit, Hcolor | apply paintsOnly_ret].
Qed.

Lemma paintsOnly_forEachCell (P : Canvas.op -> Prop) (cell : Z -> Z -> Z -> M Z) :
  (forall i j blur : Z,
      (0 <= i < cols params)%Z -> (0 <= j < rows params)%Z ->
      paintsOnly P (cell i j blur)) ->
  paintsOnly P (forEachCell params cell).
Proof.
  intros Hcell. unfold forEachCell.
  apply paintsOnly_bind; [| intros; apply paintsOnly_ret].
  apply paintsOnly_forEach. intros i blur Hi.
  apply paintsOnly_forEach. intros j blur' Hj.
  apply Hcell; apply range_In; assumption.
Qed.

Lemma isGlitching_false :
  (5 <= glitchCycle params <= 30)%Z \/ (35 <= glitchCycle params < 80)%Z ->
  isGlitching params = false.
Proof.
  intros Hcycle. unfold isGlitching.
  destruct (Z.ltb_spec (glitchCycle params) 5); [lia |].
  destruct (Z.gtb_spec (glitchCycle params) 30); [| reflexivity].
  destruct (Z.ltb_spec (glitchCycle params) 35); [lia | reflexivity].
Qed.

Lemma isGlitching_true :
  isGlitching params = true ->
  (glitchCycle params < 5)%Z \/ (30 < glitchCycle params < 35)%Z.
Proof.
  unfold isGlitching. intros Hg.
  destruct (Z.ltb_spec (glitchCycle params) 5); [left; assumption |].
  destruct (Z.gtb_spec (glitchCycle params) 30); [| discriminate].
  destruct (Z.ltb_spec (glitchCycle params) 35); [right; lia | discriminate].
Qed.

(** C7. In a frame with [frame % 80] in [5,30] or in [35,80) the glitch
    renderer gives every cell the offsets (0, 0), so every text it draws
    sits at the centre of its cell; offsets other than 0 only arise when
    [frame % 80 < 5] or [30 < frame % 80 < 35].  [frame % 80] is the
    remainder of the source, which is [frame mod 80] on the frames of a
    playback (those that are not negative). *)
Theorem glitch_jitter_only_in_burst_windows :
  let glitchCycle := Z.rem (frame params) 80 in
  ((5 <= glitchCycle <= 30)%Z \/ (35 <= glitchCycle < 80)%Z ->
   (forall (seedIndex : option Z) (s : state),
       glitchOffsets host params seedIndex s = (Ok (0, 0), s))
   /\ paintsOnly (atCellCentre params) (renderGlitchPattern host params))
  /\ (forall (seedIndex : option Z) (s s' : state) (offsetX offsetY : Q),
         glitchOffsets host params seedIndex s = (Ok (offsetX, offsetY), s') ->
         ~ offsetX == 0 \/ ~ offsetY == 0 ->
         (glitchCycle < 5)%Z \/ (30 < glitchCycle < 35)%Z)
  /\ ((0 <= frame params)%Z -> glitchCycle = (frame params mod 80)%Z).
Proof.
  intros cycle. split; [| split]; [| | intros Hframe; apply Z.rem_mod_nonneg; lia].
  - intros Hcycle. pose proof (isGlitching_false Hcycle) as Hquiet.
    assert (Hoff : forall seedIndex s,
               glitchOffsets host params seedIndex s = (Ok (0, 0), s)).
    { intros seedIndex s. unfold glitchOffsets. rewrite Hquiet. reflexivity. }
    split; [exact Hoff |].
    unfold renderGlitchPattern.
    apply paintsOnly_bind;
      [apply paintsOnly_setShadowColor; intros; exact I | intros _].
    apply paintsOnly_forEachCell. intros i j blur Hi Hj.
    unfold glitchCell.
    apply paintsOnly_bind; [apply paintsOnly_lift | intros sb].
    apply paintsOnly_bind_val with (R := fun offsets => offsets = (0, 0)).
    { intros s s' offsets Hrun. rewrite Hoff in Hrun. congruence. }
    { intros s. rewrite Hoff. exists []. split; [symmetry; apply app_nil_r | constructor]. }
    intros offsets ->.
    apply paintsOnly_bind; [apply paintsOnly_seedAt | intros seed].
    destruct (ltb _ _); [| apply paintsOnly_ret].
    apply paintsOnly_bind;
      [apply paintsOnly_setColorAndGlow; intros; exact I | intros blur'].
    apply paintsOnly_bind; [| intros; apply paintsOnly_ret].
    intros s. unfold fillSymbol, emit. cbn [snd ctx]. eexists. split; [reflexivity |].
    constructor; [| constructor]. cbn [atCellCentre].
    exists i, j. split; [exact Hi |]. split; [exact Hj |].
    split; reflexivity.
  - intros seedIndex s s' offsetX offsetY Hrun Hnonzero.
    apply isGlitching_true. destruct (isGlitching params) eqn:Hg; [reflexivity |].
    exfalso. unfold glitchOffsets in Hrun. rewrite Hg in Hrun.
    inversion Hrun; subst. destruct Hnonzero as [Hx | Hy]; [apply Hx | apply Hy]; reflexivity.
Qed.

(** *** Wave: draw decision and brightness *)

(** With the gradient on, the brightness the wave renderer gives a
    drawn cell carries the shape influence in both terms. *)
Lemma waveBrightness_gradient (waveAlpha shapeInfluence : Q) :
  LayerConfig.gradient (Layer.config (layer params)) = true ->
  waveBrightness params waveAlpha shapeInfluence
  == waveAlpha * shapeInfluence
       * LayerConfig.gradientStrength (Layer.config (layer params))
     + (1 - LayerConfig.gradientStrength (Layer.config (layer params)))
       * shapeInfluence.
Proof.
  intros Hgrad. unfold waveBrightness. rewrite Hgrad. reflexivity.
Qed.

(** It differs from the brightness of the table whenever the wave term,
    the gradient strength and the dimming by the shape are all present. *)
Lemma waveBrightness_not_as_stated (waveAlpha shapeInfluence : Q) :
  LayerConfig.gradient (Layer.config (layer params)) = true ->
  ~ waveAlpha == 0 ->
  ~ LayerConfig.gradientStrength (Layer.config (layer params)) == 0 ->
  ~ shapeInfluence == 1 ->
  ~ waveBrightness params waveAlpha shapeInfluence
    == waveBrightnessAsStated waveAlpha shapeInfluence
         (LayerConfig.gradientStrength (Layer.config (layer params))).
Proof.
  intros Hgrad Hwave Hstrength Hshape Heq.
  rewrite (waveBrightness_gradient _ _ Hgrad) in Heq.
  unfold waveBrightnessAsStated in Heq.
  set (g := LayerConfig.gradientStrength _) in *.
  assert (Hprod : waveAlpha * g * (shapeInfluence - 1) == 0) by lra.
  apply Qmult_integral in Hprod. destruct Hprod as [Hprod | Hprod].
  - apply Qmult_integral in Hprod. tauto.
  - apply Hshape. lra.
Qed.

(** C6, as the code has it. With the gradient on, a cell whose shape
    influence and seed are available is drawn exactly when
    [seed.r1 < density * waveAlpha * shapeInfluence]; a drawn cell gets
    the brightness
    [waveAlpha * shapeInfluence * gradientStrength
     + (1 - gradientStrength) * shapeInfluence]
    as the alpha of its fill style and one text at its cell centre; a
    cell that is not drawn leaves the context untouched. *)
Theorem wave_cell_draw_and_brightness
    (i j blur : Z) (s : state) (shapeInfluence : Q) (seed : RandomSeed.t) :
  let layerConfig := Layer.config (layer params) in
  let waveAlpha := waveAlpha host params i j in
  let brightness := waveBrightness params waveAlpha shapeInfluence in
  LayerConfig.gradient layerConfig = true ->
  getShapeBrightnessForLayer i j (cols params) (rows params) (layer params)
  = Ok shapeInfluence ->
  index (randomSeeds params)
    (rem (Some (i * rows params + j)%Z) (Z.of_nat (List.length (randomSeeds params))))
  = Some seed ->
  brightness
  == waveAlpha * shapeInfluence * LayerConfig.gradientStrength layerConfig
     + (1 - LayerConfig.gradientStrength layerConfig) * shapeInfluence
  /\ (RandomSeed.r1 seed < LayerConfig.density layerConfig * waveAlpha * shapeInfluence ->
      exists (blur' : Z) (s' : state) (blurWrite : Canvas.log) (text : string),
        waveCell host params i j blur s = (Ok blur', s')
        /\ ctx s'
           = (ctx s
              ++ Canvas.SetFillStyle
                   (LayerConfig.color layerConfig ++ brightnessToHex brightness)%string
                 :: blurWrite
              ++ [Canvas.FillText text
                    (inject_Z (i * cellSize params + cellSize params / 2))
                    (inject_Z (j * cellSize params + cellSize params / 2))])%list
        /\ (blurWrite = [] \/ exists r : Z, blurWrite = [Canvas.SetShadowBlur r]))
  /\ (~ RandomSeed.r1 seed < LayerConfig.density layerConfig * waveAlpha * shapeInfluence ->
      waveCell host params i j blur s = (Ok blur, s)).
Proof.
  intros layerConfig wA brightness Hgrad Hshape Hseed.
  split; [apply waveBrightness_gradient; exact Hgrad |].
  assert (Hcond : ltb (RandomSeed.r1 seed) (LayerConfig.density layerConfig * (wA * shapeInfluence)) = true
                  <-> RandomSeed.r1 seed < LayerConfig.density layerConfig * wA * shapeInfluence).
  { rewrite ltb_lt. rewrite Qmult_assoc. reflexivity. }
  assert (Hrun : waveCell host params i j blur s
                 = (if ltb (RandomSeed.r1 seed)
                         (LayerConfig.density layerConfig * (wA * shapeInfluence))
                    then (b' <- setColorAndGlow layerConfig brightness blur ;;
                          fillSymbol (split (LayerConfig.symbolSet layerConfig))
                            (RandomSeed.r2 seed)
                            (inject_Z (i * cellSize params + cellSize params / 2))
                            (inject_Z (j * cellSize params + cellSize params / 2)) ;;
                          ret b')
                    else ret blur) s).
  { unfold waveCell. unfold bind at 1. unfold lift. rewrite Hshape.
    unfold bind at 1. unfold seedAt. rewrite Hseed. unfold ret at 1.
    reflexivity. }
  split.
  - intros Hdraw. apply Hcond in Hdraw. rewrite Hrun, Hdraw.
    unfold setColorAndGlow, fillSymbol.
    destruct (blur =? _)%Z.
    + eexists. eexists. exists []. eexists. split; [reflexivity |].
      cbn [ctx app]. split; [| left; reflexivity].
      rewrite <- app_assoc. reflexivity.
    + eexists. eexists. eexists [_]. eexists. split; [reflexivity |].
      cbn [ctx app]. split; [| right; eexists; reflexivity].
      rewrite <- !app_assoc. reflexivity.
  - intros Hskip. rewrite Hrun.
    destruct (ltb _ _); [| reflexivity].
    exfalso. apply Hskip, Hcond. reflexivity.
Qed.

(** *** No renderer throws on renderable inputs *)

Section Completion.
Hypothesis seeds_not_empty : randomSeeds params <> [].
Hypothesis frame_not_negative : (0 <= frame params)%Z.
Hypothesis shape_ok : shapeOk (layer params).

Lemma completes_setColorAndGlow (c : LayerConfig.t) (b : Q) (blur : Z) :
  completes (setColorAndGlow c b blur).
Proof.
  unfold setColorAndGlow. apply completes_bind; [apply completes_emit | intros _].
  destruct (_ =? _)%Z; [apply completes_ret |].
  apply completes_bind; [apply completes_emit | intros _; apply completes_ret].
Qed.

Lemma completes_setShadowColor (c : LayerConfig.t) : completes (setShadowColor c).
Proof.
  unfold setShadowColor.
  destruct (LayerConfig.glowEffect c); [apply completes_emit | apply completes_ret].
Qed.

Lemma completes_shape (x y : Z) :
  completes (lift (getShapeBrightnessForLayer x y (cols params) (rows params)
                     (layer params))).
Proof.
  intros s. unfold lift.
  rewrite (@getShapeBrightnessForLayer_refines x y (cols params) (rows params) _ shape_ok).
  eexists. eexists. reflexivity.
Qed.

(** The tail every cell renderer shares once it has decided to draw. *)
Lemma completes_draw (c : LayerConfig.t) (b : Q) (blur : Z)
    (syms : list string) (r px py : Q) :
  completes (blur' <- setColorAndGlow c b blur ;;
             fillSymbol syms r px py ;; ret blur').
Proof.
  apply completes_bind; [apply completes_setColorAndGlow | intros blur'].
  apply completes_bind; [apply completes_emit | intros _; apply completes_ret].
Qed.

Lemma completes_cellSeed (B : Type) (i j : Z) (k : RandomSeed.t -> M B) :
  (0 <= i)%Z -> (0 <= j < rows params)%Z ->
  (forall seed : RandomSeed.t, completes (k seed)) ->
  completes (seed <- seedAt (randomSeeds params)
                       (rem (Some (i * rows params + j)%Z)
                          (Z.of_nat (List.length (randomSeeds params)))) ;;
             k seed).
Proof.
  intros Hi Hj Hk.
  destruct (@rem_in_table _ (randomSeeds params) (i * rows params + j) seeds_not_empty)
    as (r & Hr & Hrange); [nia |].
  rewrite Hr. apply completes_bind; [apply completes_seedAt; exact Hrange | exact Hk].
Qed.

Lemma completes_waveCell (i j blur : Z) :
  (0 <= i)%Z -> (0 <= j < rows params)%Z ->
  completes (waveCell host params i j blur).
Proof.
  intros Hi Hj. unfold waveCell.
  apply completes_bind; [apply completes_shape | intros sb].
  apply completes_cellSeed; [assumption | assumption | intros seed].
  destruct (ltb _ _); [apply completes_draw | apply completes_ret].
Qed.

Lemma completes_pulseCell (p cx cy md : Q) (i j blur : Z) :
  (0 <= i)%Z -> (0 <= j < rows params)%Z ->
  completes (pulseCell host params p cx cy md i j blur).
Proof.
  intros Hi Hj. unfold pulseCell.
  apply completes_bind; [apply completes_shape | intros sb].
  apply completes_cellSeed; [assumption | assumption | intros seed].
  destruct (ltb _ _); [apply completes_draw | apply completes_ret].
Qed.

Lemma completes_staticCell (i j blur : Z) :
  (0 <= i)%Z -> (0 <= j < rows params)%Z ->
  completes
    (staticCell params
       (rem (Some (frame params * 17)%Z) (Z.of_nat (List.length (randomSeeds params))))
       i j blur).
Proof.
  intros Hi Hj. unfold staticCell.
  apply completes_bind; [apply completes_shape | intros sb].
  destruct (@rem_in_table _ (randomSeeds params) (i * rows params + j) seeds_not_empty)
    as (base & Hbase & Hbrange); [nia |].
  destruct (@rem_in_table _ (randomSeeds params) (frame params * 17) seeds_not_empty)
    as (off & Hoff & Horange); [lia |].
  rewrite Hbase, Hoff. cbn [add].
  destruct (@rem_in_table _ (randomSeeds params) (base + off) seeds_not_empty)
    as (r & Hr & Hrange); [lia |].
  rewrite Hr. apply completes_bind; [apply completes_seedAt; exact Hrange | intros seed].
  destruct (ltb _ _); [apply completes_draw | apply completes_ret].
Qed.

Lemma completes_glitchCell (i j blur : Z) :
  (0 <= i)%Z -> (0 <= j < rows params)%Z ->
  completes (glitchCell host params i j blur).
Proof.
  intros Hi Hj. unfold glitchCell.
  apply completes_bind; [apply completes_shape | intros sb].
  destruct (@rem_in_table _ (randomSeeds params) (i * rows params + j) seeds_not_empty)
    as (base & Hbase & Hbrange); [nia |].
  rewrite Hbase.
  apply completes_bind.
  { unfold glitchOffsets. destruct (isGlitching params); [| apply completes_ret].
    cbn [add].
    destruct (@rem_in_table _ (randomSeeds params) (base + frame params) seeds_not_empty)
      as (r & Hr & Hrange); [lia |].
    rewrite Hr. apply completes_bind; [apply completes_seedAt; exact Hrange | intros seed].
    destruct (ltb _ _); apply completes_ret. }
  intros offsets.
  apply completes_bind; [apply completes_seedAt; exact Hbrange | intros seed].
  destruct (ltb _ _); [apply completes_draw | apply completes_ret].
Qed.

Lemma Qfloor_nonneg (q : Q) : 0 <= q -> (0 <= Qfloor q)%Z.
Proof.
  intros Hq. change 0%Z with (Qfloor 0). apply Qfloor_resp_le. exact Hq.
Qed.

Lemma completes_rainCell (drop : Drop.t) (j blur : Z) :
  (0 <= Drop.x drop)%Z -> completes (rainCell params drop j blur).
Proof.
  intros Hx. unfold rainCell.
  destruct (ltb (Drop.y drop - inject_Z j) 0) eqn:Hneg; cbn [orb];
    [apply completes_ret |].
  destruct (geb _ _); [apply completes_ret |].
  apply ltb_ge in Hneg. apply Qfloor_nonneg in Hneg.
  apply completes_bind; [apply completes_shape | intros sb].
  destruct (gtb _ _); [| apply completes_ret].
  apply completes_bind; [apply completes_setColorAndGlow | intros blur'].
  destruct (@rem_in_table _ (randomSeeds params)
              (Drop.x drop + Qfloor (Drop.y drop - inject_Z j)) seeds_not_empty)
    as (r & Hr & Hrange); [lia |].
  rewrite Hr. apply completes_bind; [apply completes_seedAt; exact Hrange | intros seed].
  apply completes_bind; [apply completes_emit | intros _; apply completes_ret].
Qed.

Lemma completes_forEachCell (cell : Z -> Z -> Z -> M Z) :
  (forall i j blur : Z,
      (0 <= i)%Z -> (0 <= j < rows params)%Z -> completes (cell i j blur)) ->
  completes (forEachCell params cell).
Proof.
  intros Hcell. unfold forEachCell.
  apply completes_bind; [| intros; apply completes_ret].
  apply completes_forEach. intros i blur Hi. apply range_In in Hi.
  apply completes_forEach. intros j blur' Hj. apply range_In in Hj.
  apply Hcell; lia.
Qed.

Lemma completes_renderWavePattern : completes (renderWavePattern host params).
Proof.
  unfold renderWavePattern.
  apply completes_bind; [apply completes_setShadowColor | intros _].
  apply completes_forEachCell. intros. apply completes_waveCell; assumption.
Qed.

Lemma completes_renderStaticPattern : completes (renderStaticPattern params).
Proof.
  unfold renderStaticPattern.
  apply completes_bind; [apply completes_setShadowColor | intros _].
  apply completes_forEachCell. intros. apply completes_staticCell; assumption.
Qed.

Lemma completes_renderGlitchPattern : completes (renderGlitchPattern host params).
Proof.
  unfold renderGlitchPattern.
  apply completes_bind; [apply completes_setShadowColor | intros _].
  apply completes_forEachCell. intros. apply completes_glitchCell; assumption.
Qed.

Lemma completes_renderPulsePattern : completes (renderPulsePattern host params).
Proof.
  unfold renderPulsePattern.
  apply completes_bind; [apply completes_setShadowColor | intros _].
  apply completes_forEachCell. intros. apply completes_pulseCell; assumption.
Qed.

(** The rain renderer reads the shared drops; it returns normally when
    their columns are not negative. *)
Lemma renderRainPattern_returns (s : state) :
  Forall (fun d => (0 <= Drop.x d)%Z) (drops s) ->
  exists s' : state, renderRainPattern params s = (Ok tt, s').
Proof.
  intros Hdrops. unfold renderRainPattern.
  destruct (completes_setShadowColor (Layer.config (layer params)) s)
    as (u & s1 & Hshadow).
  rewrite (@bind_Ok _ _ _ _ _ _ _ Hshadow).
  pose proof (keepsDrops_setShadowColor (Layer.config (layer params)) s) as [Hkeep _].
  rewrite Hshadow in Hkeep. cbn [snd] in Hkeep.
  unfold getDrops at 1. unfold bind at 1. rewrite Hkeep.
  assert (Hloop : completes
            (forEach (drops s)
               (fun drop blur =>
                  forEach (range (Qceiling (Drop.length drop)))
                    (rainCell params drop) blur) (-1)%Z)).
  { apply completes_forEach. intros drop blur Hin.
    apply completes_forEach. intros j blur' _.
    apply completes_rainCell. rewrite Forall_forall in Hdrops. exact (Hdrops _ Hin). }
  destruct (Hloop s1) as (blur & s2 & Hrun).
  rewrite (@bind_Ok _ _ _ _ _ _ _ Hrun). exists s2. reflexivity.
Qed.

End Completion.

End PatternRenderers.

(** ** Symbols *)

Section Symbols.
Import JS Render RenderPatterns Design.
Open Scope Q_scope.






End Symbols.

(** ** What the renderers draw, and where *)

Section Counting.
Import JS Render Design.
Open Scope render_scope.

Lemma texts_app (l1 l2 : Canvas.log) : texts (l1 ++ l2) = (texts l1 + texts l2)%nat.
Proof. unfold texts. rewrite filter_app, length_app. reflexivity. Qed.

Lemma paintsAtMost_weaken (A : Type) (n n' : nat) (m : M A) :
  (n <= n')%nat -> paintsAtMost n m -> paintsAtMost n' m.
Proof.
  intros Hle Hm s. destruct (Hm s) as (p & Hc & Hp). exists p. split; [exact Hc | lia].
Qed.

Lemma paintsAtMost_silent (A : Type) (m : M A) :
  (forall s : state, ctx (snd (m s)) = ctx s) -> paintsAtMost 0 m.
Proof.
  intros Hm s. exists []. rewrite app_nil_r. split; [apply Hm | cbn; lia].
Qed.

Lemma paintsAtMost_emit (o : Canvas.op) :
  paintsAtMost (if isText o then 1 else 0) (emit o).
Proof.
  intros s. exists [o]. split; [reflexivity |].
  unfold texts. cbn. destruct (isText o); cbn; lia.
Qed.

Lemma paintsAtMost_bind (A B : Type) (n k : nat) (m : M A) (f : A -> M B) :
  paintsAtMost n m -> (forall a : A, paintsAtMost k (f a)) ->
  paintsAtMost (n + k) (bind m f).
Proof.
  intros Hm Hf s. unfold bind. destruct (Hm s) as (p1 & Hc1 & Hp1).
  destruct (m s) as [[a | e] s1]; cbn [snd] in *.
  - destruct (Hf a s1) as (p2 & Hc2 & Hp2).
    exists (p1 ++ p2). split; [rewrite Hc2, Hc1, app_assoc; reflexivity |].
    rewrite texts_app. lia.
  - exists p1. split; [exact Hc1 | lia].
Qed.

Lemma paintsAtMost_forEach (A B : Type) (c : nat) (l : list A) (body : A -> B -> M B) :
  (forall (a : A) (b : B), paintsAtMost c (body a b)) ->
  forall acc : B, paintsAtMost (c * List.length l) (forEach l body acc).
Proof.
  intros Hbody. induction l as [| a l IH]; intros acc; cbn [forEach List.length].
  - rewrite Nat.mul_0_r. apply paintsAtMost_silent. reflexivity.
  - eapply paintsAtMost_weaken; [| apply paintsAtMost_bind; [apply Hbody | apply IH]].
    lia.
Qed.

Lemma paintsExactly_ret (A : Type) (P : Canvas.op -> Prop) (a : A) :
  paintsExactly 0 P (ret a).
Proof.
  intros s. exists a, []. rewrite app_nil_r. destruct s. repeat split. constructor.
Qed.

Lemma paintsExactly_emit (P : Canvas.op -> Prop) (o : Canvas.op) :
  P o -> paintsExactly (if isText o then 1 else 0) P (emit o).
Proof.
  intros Ho s. exists tt, [o]. split; [reflexivity |]. split.
  - unfold texts. cbn. destruct (isText o); reflexivity.
  - constructor; [exact Ho | constructor].
Qed.

Lemma paintsExactly_bind (A B : Type) (n k : nat) (P : Canvas.op -> Prop)
    (m : M A) (f : A -> M B) :
  paintsExactly n P m -> (forall a : A, paintsExactly k P (f a)) ->
  paintsExactly (n + k) P (bind m f).
Proof.
  intros Hm Hf s. destruct (Hm s) as (a & p1 & Hrun & Hn & Hp1).
  unfold bind. rewrite Hrun.
  destruct (Hf a {| ctx := ctx s ++ p1; drops := drops s; randomCalls := randomCalls s |})
    as (b & p2 & Hrun2 & Hk & Hp2).
  exists b, (p1 ++ p2). rewrite Hrun2. cbn [ctx drops randomCalls].
  rewrite app_assoc. split; [reflexivity |].
  split; [rewrite texts_app; lia | apply Forall_app; split; assumption].
Qed.

Lemma paintsExactly_forEach (A B : Type) (c : nat) (P : Canvas.op -> Prop)
    (l : list A) (body : A -> B -> M B) :
  (forall (a : A) (b : B), In a l -> paintsExactly c P (body a b)) ->
  forall acc : B, paintsExactly (c * List.length l) P (forEach l body acc).
Proof.
  induction l as [| a l IH]; intros Hbody acc; cbn [forEach List.length].
  - rewrite Nat.mul_0_r. apply paintsExactly_ret.
  - replace (c * S (List.length l))%nat with (c + c * List.length l)%nat by lia.
    apply paintsExactly_bind; [apply Hbody; left; reflexivity |].
    apply IH. intros a' b Hin. apply Hbody. right. exact Hin.
Qed.

End Counting.

Section GridRenderers.
Import JS Render ColorUtils RenderPatterns Design.
Open Scope Q_scope.
Open Scope render_scope.

Variable host : Host.t.
Variable params : RenderPatternParams.

Lemma gtb_gt (a b : Q) : gtb a b = true <-> b < a.
Proof. unfold gtb. apply ltb_lt. Qed.

Lemma paintsOnly_setColorAndGlow_style (P : Canvas.op -> Prop) (c : LayerConfig.t)
    (b : Q) (blur : Z) :
  P (Canvas.SetFillStyle (LayerConfig.color c ++ brightnessToHex b)) ->
  (forall r : Z, P (Canvas.SetShadowBlur r)) ->
  paintsOnly P (setColorAndGlow c b blur).
Proof.
  intros Hstyle Hblur. unfold setColorAndGlow.
  apply paintsOnly_bind; [apply paintsOnly_emit, Hstyle | intros _].
  destruct (_ =? _)%Z; [apply paintsOnly_ret |].
  apply paintsOnly_bind; [apply paintsOnly_emit, Hblur | intros _; apply paintsOnly_ret].
Qed.

(** The tail of a cell renderer that has decided to draw cell [(i, j)]. *)
Lemma paintsOnly_cell_draw (c : LayerConfig.t) (b : Q) (blur : Z)
    (syms : list string) (r : Q) (i j : Z) :
  (0 <= i < cols params)%Z -> (0 <= j < rows params)%Z ->
  paintsOnly (cellText params)
    (blur' <- setColorAndGlow c b blur ;;
     fillSymbol syms r
       (inject_Z (i * cellSize params + cellSize params / 2))
       (inject_Z (j * cellSize params + cellSize params / 2)) ;;
     ret blur').
Proof.
  intros Hi Hj.
  apply paintsOnly_bind;
    [apply paintsOnly_setColorAndGlow; intros; exact I | intros blur'].
  apply paintsOnly_bind; [| intros; apply paintsOnly_ret].
  unfold fillSymbol. apply paintsOnly_emit. cbn [cellText].
  exists i, j. repeat split; try assumption; apply Hi || apply Hj.
Qed.

(** X16. The wave, static and pulse renderers only write the fill
    style, the shadow colour and the shadow blur and draw texts, and
    every text sits at the centre of a cell of the grid; they never
    clear, fill a rectangle, draw an image or change the font or the
    global alpha. *)
Theorem grid_renderers_draw_at_cell_centres :
  paintsOnly (cellText params) (renderWavePattern host params)
  /\ paintsOnly (cellText params) (renderStaticPattern params)
  /\ paintsOnly (cellText params) (renderPulsePattern host params).
Proof.
  split; [| split].
  - unfold renderWavePattern.
    apply paintsOnly_bind;
      [apply paintsOnly_setShadowColor; intros; exact I | intros _].
    apply paintsOnly_forEachCell. intros i j blur Hi Hj. unfold waveCell.
    apply paintsOnly_bind; [apply paintsOnly_lift | intros sb].
    apply paintsOnly_bind; [apply paintsOnly_seedAt | intros seed].
    destruct (ltb _ _); [| apply paintsOnly_ret].
    apply paintsOnly_cell_draw; assumption.
  - unfold renderStaticPattern.
    apply paintsOnly_bind;
      [apply paintsOnly_setShadowColor; intros; exact I | intros _].
    apply paintsOnly_forEachCell. intros i j blur Hi Hj. unfold staticCell.
    apply paintsOnly_bind; [apply paintsOnly_lift | intros sb].
    apply paintsOnly_bind; [apply paintsOnly_seedAt | intros seed].
    destruct (ltb _ _); [| apply paintsOnly_ret].
    apply paintsOnly_cell_draw; assumption.
  - unfold renderPulsePattern.
    apply paintsOnly_bind;
      [apply paintsOnly_setShadowColor; intros; exact I | intros _].
    apply paintsOnly_forEachCell. intros i j blur Hi Hj. unfold pulseCell.
    apply paintsOnly_bind; [apply paintsOnly_lift | intros sb].
    apply paintsOnly_bind; [apply paintsOnly_seedAt | intros seed].
    destruct (ltb _ _); [| apply paintsOnly_ret].
    apply paintsOnly_cell_draw; assumption.
Qed.

(** *** At most one symbol per cell *)

Lemma paintsAtMost_lift (A : Type) (r : result A) : paintsAtMost 0 (lift r).
Proof. apply paintsAtMost_silent. reflexivity. Qed.

Lemma paintsAtMost_ret (A : Type) (a : A) : paintsAtMost 0 (ret a).
Proof. apply paintsAtMost_silent. reflexivity. Qed.

Lemma paintsAtMost_seedAt (seeds : list RandomSeed.t) (i : option Z) :
  paintsAtMost 0 (seedAt seeds i).
Proof.
  apply paintsAtMost_silent. intros s. unfold seedAt.
  destruct (index seeds i); reflexivity.
Qed.

Lemma paintsAtMost_setShadowColor (c : LayerConfig.t) :
  paintsAtMost 0 (setShadowColor c).
Proof.
  unfold setShadowColor. destruct (LayerConfig.glowEffect c).
  - apply (paintsAtMost_emit (Canvas.SetShadowColor (LayerConfig.color c))).
  - apply paintsAtMost_ret.
Qed.

Lemma paintsAtMost_setColorAndGlow (c : LayerConfig.t) (b : Q) (blur : Z) :
  paintsAtMost 0 (setColorAndGlow c b blur).
Proof.
  unfold setColorAndGlow.
  apply (@paintsAtMost_bind _ _ 0 0);
    [apply (paintsAtMost_emit (Canvas.SetFillStyle _)) | intros _].
  destruct (_ =? _)%Z; [apply paintsAtMost_ret |].
  apply (@paintsAtMost_bind _ _ 0 0);
    [apply (paintsAtMost_emit (Canvas.SetShadowBlur _)) | intros _; apply paintsAtMost_ret].
Qed.

Lemma paintsAtMost_draw (c : LayerConfig.t) (b : Q) (blur : Z)
    (syms : list string) (r px py : Q) :
  paintsAtMost 1 (blur' <- setColorAndGlow c b blur ;;
                  fillSymbol syms r px py ;; ret blur').
Proof.
  apply (@paintsAtMost_bind _ _ 0 1); [apply paintsAtMost_setColorAndGlow | intros blur'].
  apply (@paintsAtMost_bind _ _ 1 0); [| intros _; apply paintsAtMost_ret].
  unfold fillSymbol. apply (paintsAtMost_emit (Canvas.FillText _ _ _)).
Qed.

Lemma paintsAtMost_forEachCell (cell : Z -> Z -> Z -> M Z) :
  (forall i j blur : Z, paintsAtMost 1 (cell i j blur)) ->
  paintsAtMost (Z.to_nat (cols params) * Z.to_nat (rows params))
    (forEachCell params cell).
Proof.
  intros Hcell. unfold forEachCell.
  eapply paintsAtMost_weaken;
    [| apply (@paintsAtMost_bind _ _
                (Z.to_nat (rows params) * Z.to_nat (cols params)) 0);
       [| intros; apply paintsAtMost_ret]].
  { lia. }
  replace (Z.to_nat (cols params)) with (List.length (range (cols params)))
    by (unfold range; rewrite length_map, length_seq; reflexivity).
  apply paintsAtMost_forEach. intros i blur.
  eapply paintsAtMost_weaken; [| apply (@paintsAtMost_forEach _ _ 1)].
  - unfold range. rewrite length_map, length_seq. lia.
  - intros j blur'. apply Hcell.
Qed.

(** X17. A pass of a grid renderer (wave, static, glitch, pulse) draws
    at most as many symbols as the grid has cells. *)
Theorem grid_renderers_draw_at_most_one_symbol_per_cell :
  let cells := (Z.to_nat (cols params) * Z.to_nat (rows params))%nat in
  paintsAtMost cells (renderWavePattern host params)
  /\ paintsAtMost cells (renderStaticPattern params)
  /\ paintsAtMost cells (renderGlitchPattern host params)
  /\ paintsAtMost cells (renderPulsePattern host params).
Proof.
  intros cells. unfold cells. repeat split.
  - unfold renderWavePattern.
    apply (@paintsAtMost_bind _ _ 0); [apply paintsAtMost_setShadowColor | intros _].
    apply paintsAtMost_forEachCell. intros i j blur. unfold waveCell.
    apply (@paintsAtMost_bind _ _ 0 1); [apply paintsAtMost_lift | intros sb].
    apply (@paintsAtMost_bind _ _ 0 1); [apply paintsAtMost_seedAt | intros seed].
    destruct (ltb _ _); [apply paintsAtMost_draw |].
    eapply paintsAtMost_weaken; [| apply paintsAtMost_ret]. lia.
  - unfold renderStaticPattern.
    apply (@paintsAtMost_bind _ _ 0); [apply paintsAtMost_setShadowColor | intros _].
    apply paintsAtMost_forEachCell. intros i j blur. unfold staticCell.
    apply (@paintsAtMost_bind _ _ 0 1); [apply paintsAtMost_lift | intros sb].
    apply (@paintsAtMost_bind _ _ 0 1); [apply paintsAtMost_seedAt | intros seed].
    destruct (ltb _ _); [apply paintsAtMost_draw |].
    eapply paintsAtMost_weaken; [| apply paintsAtMost_ret]. lia.
  - unfold renderGlitchPattern.
    apply (@paintsAtMost_bind _ _ 0); [apply paintsAtMost_setShadowColor | intros _].
    apply paintsAtMost_forEachCell. intros i j blur. unfold glitchCell.
    apply (@paintsAtMost_bind _ _ 0 1); [apply paintsAtMost_lift | intros sb].
    apply (@paintsAtMost_bind _ _ 0 1).
    { unfold glitchOffsets. destruct (isGlitching params); [| apply paintsAtMost_ret].
      apply (@paintsAtMost_bind _ _ 0 0); [apply paintsAtMost_seedAt | intros seed].
      destruct (ltb _ _); apply paintsAtMost_ret. }
    intros offsets.
    apply (@paintsAtMost_bind _ _ 0 1); [apply paintsAtMost_seedAt | intros seed].
    destruct (ltb _ _); [apply paintsAtMost_draw |].
    eapply paintsAtMost_weaken; [| apply paintsAtMost_ret]. lia.
  - unfold renderPulsePattern.
    apply (@paintsAtMost_bind _ _ 0); [apply paintsAtMost_setShadowColor | intros _].
    apply paintsAtMost_forEachCell. intros i j blur. unfold pulseCell.
    apply (@paintsAtMost_bind _ _ 0 1); [apply paintsAtMost_lift | intros sb].
    apply (@paintsAtMost_bind _ _ 0 1); [apply paintsAtMost_seedAt | intros seed].
    destruct (ltb _ _); [apply paintsAtMost_draw |].
    eapply paintsAtMost_weaken; [| apply paintsAtMost_ret]. lia.
Qed.

End GridRenderers.

Section RainAndStatic.
Import JS Render ColorUtils RenderPatterns Design.
Open Scope Q_scope.
Open Scope render_scope.

Variable params : RenderPatternParams.

(** *** Rain *)

Lemma Qfloor_below (q : Q) (n : Z) : q < inject_Z n -> (Qfloor q < n)%Z.
Proof.
  intros Hq. destruct (Z.lt_ge_cases (Qfloor q) n) as [Hlt | Hge]; [exact Hlt |].
  exfalso. pose proof (Qfloor_le q) as Hfloor.
  assert (Hn : inject_Z n <= inject_Z (Qfloor q)) by (rewrite <- Zle_Qle; exact Hge).
  lra.
Qed.

Lemma paintsOnly_rainCell (ds : list Drop.t) (drop : Drop.t) (j blur : Z) :
  In drop ds -> paintsOnly (rainText params ds) (rainCell params drop j blur).
Proof.
  intros Hin. unfold rainCell.
  destruct (ltb (Drop.y drop - inject_Z j) 0) eqn:Hneg; cbn [orb];
    [apply paintsOnly_ret |].
  destruct (geb (Drop.y drop - inject_Z j) (inject_Z (rows params))) eqn:Hbig;
    [apply paintsOnly_ret |].
  apply ltb_ge in Hneg.
  assert (Hrow : (0 <= Qfloor (Drop.y drop - inject_Z j) < rows params)%Z).
  { split; [apply Qfloor_nonneg; exact Hneg |].
    apply Qfloor_below. unfold geb in Hbig.
    apply not_true_iff_false in Hbig. rewrite Qle_bool_iff in Hbig.
    apply Qnot_le_lt. exact Hbig. }
  apply paintsOnly_bind; [apply paintsOnly_lift | intros sb].
  match goal with |- context [gtb ?b 0.1] => destruct (gtb b 0.1) eqn:Hbright end;
    [| apply paintsOnly_ret].
  apply gtb_gt in Hbright.
  apply paintsOnly_bind.
  { apply paintsOnly_setColorAndGlow_style; [| intros; exact I].
    cbn [rainText]. eexists. split; [exact Hbright | reflexivity]. }
  intros blur'.
  apply paintsOnly_bind; [apply paintsOnly_seedAt | intros seed].
  apply paintsOnly_bind; [| intros; apply paintsOnly_ret].
  unfold fillSymbol. apply paintsOnly_emit. cbn [rainText].
  exists drop, (Qfloor (Drop.y drop - inject_Z j)).
  split; [exact Hin |]. split; [exact Hrow |]. split; reflexivity.
Qed.

Lemma bind_agree (A B : Type) (m : M A) (k k' : A -> M B) (s : state) :
  (forall (a : A) (s' : state), m s = (Ok a, s') -> k a s' = k' a s') ->
  bind m k s = bind m k' s.
Proof.
  intros Hk. unfold bind. destruct (m s) as [[a | e] s1]; [| reflexivity].
  apply Hk. reflexivity.
Qed.

(** The rain renderer reads the drop array once, as it is when the
    renderer starts. *)
Lemma renderRainPattern_reads_drops (s : state) :
  renderRainPattern params s
  = (setShadowColor (Layer.config (layer params)) ;;
     (forEach (drops s)
        (fun drop blur =>
           forEach (range (Qceiling (Drop.length drop)))
             (rainCell params drop) blur) (-1)%Z ;;
      ret tt)) s.
Proof.
  unfold renderRainPattern. apply bind_agree. intros u s1 Hrun.
  pose proof (keepsDrops_setShadowColor (Layer.config (layer params)) s) as [Hkeep _].
  rewrite Hrun in Hkeep. cbn [snd] in Hkeep.
  unfold bind at 1, getDrops. cbv beta iota. rewrite Hkeep. reflexivity.
Qed.

(** X18. The rain renderer leaves the drops as they are and draws only
    in the columns of the drops and in rows of the grid, and only with
    a brightness above 0.1; it never clears, fills a rectangle, draws
    an image or changes the font or the global alpha. *)
Theorem rain_draws_in_drop_columns (s : state) :
  exists painted : Canvas.log,
    ctx (snd (renderRainPattern params s)) = (ctx s ++ painted)%list
    /\ Forall (rainText params (drops s)) painted
    /\ drops (snd (renderRainPattern params s)) = drops s.
Proof.
  assert (Hpaint : paintsOnly (rainText params (drops s))
            (setShadowColor (Layer.config (layer params)) ;;
             (forEach (drops s)
                (fun drop blur =>
                   forEach (range (Qceiling (Drop.length drop)))
                     (rainCell params drop) blur) (-1)%Z ;;
              ret tt))).
  { apply paintsOnly_bind;
      [apply paintsOnly_setShadowColor; intros; exact I | intros _].
    apply paintsOnly_bind; [| intros; apply paintsOnly_ret].
    apply paintsOnly_forEach. intros drop blur Hin.
    apply paintsOnly_forEach. intros j blur' _.
    apply paintsOnly_rainCell. exact Hin. }
  pose proof (renderRainPattern_reads_drops s) as Hsame.
  destruct (Hpaint s) as (painted & Hctx & Hall).
  exists painted. rewrite Hsame. split; [exact Hctx |]. split; [exact Hall |].
  rewrite <- Hsame. apply keepsDrops_renderRainPattern.
Qed.

(** *** Static *)

Lemma rem_period (a n len : Z) :
  (0 <= a)%Z -> (0 <= n)%Z -> (0 <= len)%Z ->
  rem (Some (a + n * len)%Z) len = rem (Some a) len.
Proof.
  intros Ha Hn Hpos. unfold rem.
  destruct (Z.eqb_spec len 0) as [| Hlen]; [reflexivity |].
  f_equal. rewrite !Z.rem_mod_nonneg by nia. apply Z.mod_add. lia.
Qed.

(** X19. The static pattern repeats: a whole number of seed table
    lengths later, the static renderer does exactly what it does at
    the frame itself. *)
Theorem static_pattern_repeats (periods : Z) (s : state) :
  (0 <= frame params)%Z -> (0 <= periods)%Z ->
  renderStaticPattern
    (atFrame params
       (frame params + periods * Z.of_nat (List.length (randomSeeds params)))) s
  = renderStaticPattern params s.
Proof.
  intros Hframe Hperiods. unfold renderStaticPattern.
  cbn [atFrame frame randomSeeds layer].
  replace ((frame params + periods * Z.of_nat (List.length (randomSeeds params))) * 17)%Z
    with (frame params * 17
          + (periods * 17) * Z.of_nat (List.length (randomSeeds params)))%Z by lia.
  rewrite rem_period by lia. reflexivity.
Qed.

Lemma paintsExactly_ret_bind (A B : Type) (n : nat) (P : Canvas.op -> Prop)
    (a : A) (k : A -> M B) :
  paintsExactly n P (k a) -> paintsExactly n P (bind (ret a) k).
Proof. intros Hk s. exact (Hk s). Qed.

Lemma seedAt_in_table (seeds : list RandomSeed.t) (r : Z) :
  (0 <= r < Z.of_nat (List.length seeds))%Z ->
  exists seed : RandomSeed.t, In seed seeds /\ seedAt seeds (Some r) = ret seed.
Proof.
  intros Hr. unfold seedAt, index.
  destruct (Z.ltb_spec r 0); [lia |].
  destruct (nth_error seeds (Z.to_nat r)) as [seed |] eqn:Hnth.
  - exists seed. split; [apply nth_error_In in Hnth; exact Hnth | reflexivity].
  - apply nth_error_None in Hnth. lia.
Qed.

Lemma paintsExactly_setColorAndGlow (P : Canvas.op -> Prop) (c : LayerConfig.t)
    (b : Q) (blur : Z) :
  P (Canvas.SetFillStyle (LayerConfig.color c ++ brightnessToHex b)) ->
  (forall r : Z, P (Canvas.SetShadowBlur r)) ->
  paintsExactly 0 P (setColorAndGlow c b blur).
Proof.
  intros Hstyle Hblur. unfold setColorAndGlow.
  apply (@paintsExactly_bind _ _ 0 0);
    [apply (@paintsExactly_emit P (Canvas.SetFillStyle _)), Hstyle | intros _].
  destruct (_ =? _)%Z; [apply paintsExactly_ret |].
  apply (@paintsExactly_bind _ _ 0 0);
    [apply (@paintsExactly_emit P (Canvas.SetShadowBlur _)), Hblur
    | intros _; apply paintsExactly_ret].
Qed.

(** X20. At density 1 or more, without shape and without gradient, the
    static renderer returns normally and draws every cell of the grid,
    each at full brightness (alpha ff). *)
Theorem static_full_density_fills_grid :
  randomSeeds params <> [] ->
  Forall unitSeed (randomSeeds params) ->
  (0 <= frame params)%Z ->
  Layer.shapeData (layer params) = None ->
  LayerConfig.gradient (Layer.config (layer params)) = false ->
  1 <= LayerConfig.density (Layer.config (layer params)) ->
  paintsExactly (Z.to_nat (cols params) * Z.to_nat (rows params))
    (litText params) (renderStaticPattern params).
Proof.
  intros Hseeds Hunit Hframe Hshape Hgradient Hdensity.
  unfold renderStaticPattern.
  replace (Z.to_nat (cols params) * Z.to_nat (rows params))%nat
    with (0 + (Z.to_nat (rows params) * Z.to_nat (cols params) + 0))%nat by lia.
  apply (@paintsExactly_bind _ _ 0 (Z.to_nat (rows params) * Z.to_nat (cols params) + 0)).
  { unfold setShadowColor. destruct (LayerConfig.glowEffect _).
    - apply (@paintsExactly_emit _ (Canvas.SetShadowColor _)). split; exact I.
    - apply paintsExactly_ret. }
  intros _. unfold forEachCell.
  apply (@paintsExactly_bind _ _ (Z.to_nat (rows params) * Z.to_nat (cols params)) 0);
    [| intros; apply paintsExactly_ret].
  replace (Z.to_nat (cols params)) with (List.length (range (cols params)))
    by (unfold range; rewrite length_map, length_seq; reflexivity).
  apply paintsExactly_forEach. intros i blur Hi. apply range_In in Hi.
  replace (Z.to_nat (rows params)) with (1 * List.length (range (rows params)))%nat
    by (unfold range; rewrite length_map, length_seq; lia).
  apply paintsExactly_forEach. intros j blur' Hj. apply range_In in Hj.
  unfold staticCell, getShapeBrightnessForLayer. rewrite Hshape.
  change (lift (Ok 1)) with (@ret Q 1). apply paintsExactly_ret_bind.
  destruct (@rem_in_table _ (randomSeeds params) (i * rows params + j) Hseeds)
    as (base & Hbase & Hbrange); [nia |].
  destruct (@rem_in_table _ (randomSeeds params) (frame params * 17) Hseeds)
    as (off & Hoff & Horange); [lia |].
  rewrite Hbase, Hoff. cbn [add].
  destruct (@rem_in_table _ (randomSeeds params) (base + off) Hseeds)
    as (r & Hr & Hrange); [lia |].
  rewrite Hr. destruct (@seedAt_in_table _ _ Hrange) as (seed & Hin & ->).
  apply paintsExactly_ret_bind.
  rewrite Forall_forall in Hunit. destruct (Hunit seed Hin) as ((_ & Hr1) & _).
  assert (Hdraw : ltb (RandomSeed.r1 seed)
                    (LayerConfig.density (Layer.config (layer params)) * 1) = true)
    by (apply ltb_lt; lra).
  rewrite Hdraw, Hgradient.
  apply (@paintsExactly_bind _ _ 0 1).
  { apply paintsExactly_setColorAndGlow; [| intros; split; exact I].
    split; [exact I | reflexivity]. }
  intros blur''.
  apply (@paintsExactly_bind _ _ 1 0); [| intros; apply paintsExactly_ret].
  unfold fillSymbol. apply (@paintsExactly_emit _ (Canvas.FillText _ _ _)).
  split; [| exact I]. cbn [cellText]. exists i, j. repeat split; lia.
Qed.

End RainAndStatic.

Section EmptySeedTable.
Import JS Render ColorUtils RenderPatterns Design.
Open Scope Q_scope.
Open Scope render_scope.

Variable host : Host.t.
Variable params : RenderPatternParams.

Lemma throwsTypeError_bind_first (A B : Type) (m : M A) (k : A -> M B) :
  throwsTypeError m -> throwsTypeError (bind m k).
Proof.
  intros Hm s. specialize (Hm s). unfold bind.
  destruct (m s) as [[a | e] s1]; cbn [fst] in *; [discriminate | congruence].
Qed.

Lemma throwsTypeError_bind_then (A B : Type) (m : M A) (k : A -> M B) :
  completes m -> (forall a : A, throwsTypeError (k a)) -> throwsTypeError (bind m k).
Proof.
  intros Hm Hk s. destruct (Hm s) as (a & s1 & Hrun).
  unfold bind. rewrite Hrun. apply Hk.
Qed.

Lemma range_first (n : Z) : (1 <= n)%Z -> exists rest : list Z, range n = 0%Z :: rest.
Proof.
  intros Hn. unfold range.
  destruct (Z.to_nat n) as [| k] eqn:Hk; [lia |].
  cbn [seq map]. eexists. reflexivity.
Qed.

Lemma throwsTypeError_forEachCell (cell : Z -> Z -> Z -> M Z) :
  (1 <= cols params)%Z -> (1 <= rows params)%Z ->
  (forall blur : Z, throwsTypeError (cell 0%Z 0%Z blur)) ->
  throwsTypeError (forEachCell params cell).
Proof.
  intros Hcols Hrows Hcell. unfold forEachCell.
  destruct (range_first Hcols) as (is' & ->).
  destruct (range_first Hrows) as (js' & ->).
  apply throwsTypeError_bind_first. cbn [forEach].
  apply throwsTypeError_bind_first. apply throwsTypeError_bind_first. apply Hcell.
Qed.

Lemma throwsTypeError_seedAt_nan (seeds : list RandomSeed.t) :
  throwsTypeError (seedAt seeds None).
Proof. intros s. reflexivity. Qed.

(** X26. With an empty seed table, a grid renderer (wave, static,
    glitch, pulse) on a grid of at least one cell throws a [TypeError]
    at its first cell: the seed index is NaN and the seed read is
    [undefined]. *)
Theorem empty_seed_table_throws :
  randomSeeds params = [] ->
  (1 <= cols params)%Z -> (1 <= rows params)%Z ->
  shapeOk (layer params) ->
  throwsTypeError (renderWavePattern host params)
  /\ throwsTypeError (renderStaticPattern params)
  /\ throwsTypeError (renderGlitchPattern host params)
  /\ throwsTypeError (renderPulsePattern host params).
Proof.
  intros Hempty Hcols Hrows Hshape.
  assert (Hshadow : completes (setShadowColor (Layer.config (layer params)))).
  { unfold setShadowColor.
    destruct (LayerConfig.glowEffect _); [apply completes_emit | apply completes_ret]. }
  assert (Hlift : forall x y : Z,
             completes (lift (getShapeBrightnessForLayer x y (cols params) (rows params)
                                (layer params)))).
  { intros x y s. unfold lift.
    rewrite (@getShapeBrightnessForLayer_refines x y (cols params) (rows params) _ Hshape).
    eexists. eexists. reflexivity. }
  repeat split.
  - unfold renderWavePattern. apply throwsTypeError_bind_then; [exact Hshadow | intros _].
    apply throwsTypeError_forEachCell; try assumption. intros blur. unfold waveCell.
    apply throwsTypeError_bind_then; [apply Hlift | intros sb].
    rewrite Hempty. apply throwsTypeError_bind_first. apply throwsTypeError_seedAt_nan.
  - unfold renderStaticPattern. apply throwsTypeError_bind_then; [exact Hshadow | intros _].
    apply throwsTypeError_forEachCell; try assumption. intros blur. unfold staticCell.
    apply throwsTypeError_bind_then; [apply Hlift | intros sb].
    rewrite Hempty. apply throwsTypeError_bind_first. apply throwsTypeError_seedAt_nan.
  - unfold renderGlitchPattern. apply throwsTypeError_bind_then; [exact Hshadow | intros _].
    apply throwsTypeError_forEachCell; try assumption. intros blur. unfold glitchCell.
    apply throwsTypeError_bind_then; [apply Hlift | intros sb].
    unfold glitchOffsets. rewrite Hempty. destruct (isGlitching params).
    + apply throwsTypeError_bind_first. apply throwsTypeError_bind_first.
      apply throwsTypeError_seedAt_nan.
    + apply throwsTypeError_bind_then; [apply completes_ret | intros offsets].
      apply throwsTypeError_bind_first. apply throwsTypeError_seedAt_nan.
  - unfold renderPulsePattern. apply throwsTypeError_bind_then; [exact Hshadow | intros _].
    apply throwsTypeError_forEachCell; try assumption. intros blur. unfold pulseCell.
    apply throwsTypeError_bind_then; [apply Hlift | intros sb].
    rewrite Hempty. apply throwsTypeError_bind_first. apply throwsTypeError_seedAt_nan.
Qed.

End EmptySeedTable.

(** ** The alpha of every colour written *)

Section Brightness.
Import JS Render ColorUtils RenderPatterns Design.
Open Scope Q_scope.
Open Scope list_scope.
Open Scope render_scope.

Variable host : Host.t.
Variable params : RenderPatternParams.

Hypothesis sin_range : forall x : Q, -1 <= Host.sin host x <= 1.
Hypothesis cos_range : forall x : Q, -1 <= Host.cos host x <= 1.
Hypothesis sqrt_monotone :
  forall x y : Q, 0 <= x -> x <= y -> 0 <= Host.sqrt host x <= Host.sqrt host y.
Hypothesis sqrt_positive : forall x : Q, 0 < x -> 0 < Host.sqrt host x.
Hypothesis shape_ok : shapeOk (layer params).
Hypothesis influence_range :
  0 <= LayerConfig.shapeInfluence (Layer.config (layer params)) <= 1.
Hypothesis strength_range :
  0 <= LayerConfig.gradientStrength (Layer.config (layer params)) <= 1.
Hypothesis seeds_unit : Forall unitSeed (randomSeeds params).

Lemma shapeInfluenceResolver_range (x y : Z) :
  0 <= shapeInfluenceResolver x y (cols params) (rows params) (layer params) <= 1.
Proof.
  unfold shapeInfluenceResolver. pose proof shape_ok as Hok. unfold shapeOk in Hok.
  destruct (Layer.shapeData (layer params)) as [g |]; [| lra].
  destruct (centredBrightness g x y (cols params) (rows params)) as [b |] eqn:Hb; [| lra].
  pose proof (centredBrightness_range _ _ _ _ Hok Hb) as Hrange.
  split; nra.
Qed.

Lemma mix_range (a shapeBrightness strength : Q) :
  0 <= a <= 1 -> 0 <= shapeBrightness <= 1 -> 0 <= strength <= 1 ->
  0 <= a * strength + (1 - strength) * shapeBrightness <= 1.
Proof. intros Ha Hs Hg. split; nra. Qed.

Lemma product_range (a b : Q) : 0 <= a <= 1 -> 0 <= b <= 1 -> 0 <= a * b <= 1.
Proof. intros Ha Hb. split; nra. Qed.

(** The shape brightness a cell renderer reads is within [0,1]. *)
Lemma paintsOnly_with_shape (B : Type) (P : Canvas.op -> Prop) (x y : Z)
    (k : Q -> M B) :
  (forall shapeBrightness : Q,
      0 <= shapeBrightness <= 1 -> paintsOnly P (k shapeBrightness)) ->
  paintsOnly P
    (shapeBrightness <-
       lift (getShapeBrightnessForLayer x y (cols params) (rows params) (layer params)) ;;
     k shapeBrightness).
Proof.
  intros Hk.
  apply paintsOnly_bind_val with (R := fun sb => 0 <= sb <= 1);
    [| apply paintsOnly_lift | exact Hk].
  intros s s' sb Hrun. unfold lift in Hrun.
  rewrite (@getShapeBrightnessForLayer_refines x y (cols params) (rows params) _ shape_ok)
    in Hrun.
  inversion Hrun; subst. apply shapeInfluenceResolver_range.
Qed.

(** The seed a cell renderer reads is one of the table. *)
Lemma paintsOnly_with_seed (B : Type) (P : Canvas.op -> Prop) (i : option Z)
    (k : RandomSeed.t -> M B) :
  (forall seed : RandomSeed.t, unitSeed seed -> paintsOnly P (k seed)) ->
  paintsOnly P (seed <- seedAt (randomSeeds params) i ;; k seed).
Proof.
  intros Hk.
  apply paintsOnly_bind_val with (R := unitSeed);
    [| apply paintsOnly_seedAt | exact Hk].
  intros s s' seed Hrun. unfold seedAt, index in Hrun.
  destruct i as [i |]; [| discriminate].
  destruct (i <? 0)%Z; [discriminate |].
  destruct (nth_error (randomSeeds params) (Z.to_nat i)) as [seed' |] eqn:Hnth;
    [| discriminate].
  inversion Hrun; subst. apply nth_error_In in Hnth.
  rewrite Forall_forall in seeds_unit. exact (seeds_unit _ Hnth).
Qed.

(** The tail of a cell renderer that draws with brightness [b]. *)
Lemma paintsOnly_alpha_draw (b : Q) (blur : Z) (syms : list string) (r px py : Q) :
  0 <= b <= 1 ->
  paintsOnly (alphaStyle params)
    (blur' <- setColorAndGlow (Layer.config (layer params)) b blur ;;
     fillSymbol syms r px py ;; ret blur').
Proof.
  intros Hb.
  apply paintsOnly_bind.
  { apply paintsOnly_setColorAndGlow_style; [| intros; exact I].
    exists b. split; [exact Hb | reflexivity]. }
  intros blur'. apply paintsOnly_bind; [| intros; apply paintsOnly_ret].
  unfold fillSymbol. apply paintsOnly_emit. exact I.
Qed.

Lemma waveAlpha_range (i j : Z) : 0 <= waveAlpha host params i j <= 1.
Proof.
  unfold waveAlpha.
  set (a := Host.sin host _). set (b := Host.cos host _).
  pose proof (sin_range ((inject_Z i + inject_Z (frame params) * 0.1) * 0.3)) as Ha.
  pose proof (cos_range ((inject_Z j + inject_Z (frame params) * 0.1) * 0.3)) as Hb.
  fold a in Ha. fold b in Hb.
  assert (Hab : -1 <= a * b <= 1) by (split; nra).
  split.
  - apply Qle_shift_div_l; lra.
  - apply Qle_shift_div_r; lra.
Qed.

Lemma pulse_range (x : Q) : 0 <= (Host.sin host x + 1) / 2 <= 1.
Proof.
  pose proof (sin_range x). split.
  - apply Qle_shift_div_l; lra.
  - apply Qle_shift_div_r; lra.
Qed.

(** Inside the grid a cell is not further from the centre than the
    corner is. *)
Lemma normalizedDist_range (i j : Z) :
  (0 <= i < cols params)%Z -> (0 <= j < rows params)%Z ->
  let centerX := inject_Z (cols params) / 2 in
  let centerY := inject_Z (rows params) / 2 in
  let dx := inject_Z i - centerX in
  let dy := inject_Z j - centerY in
  0 <= Host.sqrt host (dx * dx + dy * dy)
       / Host.sqrt host (centerX * centerX + centerY * centerY) <= 1.
Proof.
  intros Hi Hj centerX centerY dx dy.
  assert (Hi0 : 0 <= inject_Z i)
    by (change 0 with (inject_Z 0); rewrite <- Zle_Qle; lia).
  assert (Hi1 : inject_Z i + 1 <= inject_Z (cols params)).
  { change 1 with (inject_Z 1). rewrite <- inject_Z_plus, <- Zle_Qle. lia. }
  assert (Hj0 : 0 <= inject_Z j)
    by (change 0 with (inject_Z 0); rewrite <- Zle_Qle; lia).
  assert (Hj1 : inject_Z j + 1 <= inject_Z (rows params)).
  { change 1 with (inject_Z 1). rewrite <- inject_Z_plus, <- Zle_Qle. lia. }
  assert (Hcx : centerX * 2 == inject_Z (cols params))
    by (unfold centerX; field).
  assert (Hcy : centerY * 2 == inject_Z (rows params))
    by (unfold centerY; field).
  assert (Hdx : dx * dx <= centerX * centerX) by (unfold dx; nra).
  assert (Hdy : dy * dy <= centerY * centerY) by (unfold dy; nra).
  assert (Hpos : 0 < centerX * centerX + centerY * centerY) by nra.
  assert (Hnonneg : 0 <= dx * dx + dy * dy) by nra.
  destruct (@sqrt_monotone (dx * dx + dy * dy) (centerX * centerX + centerY * centerY)
              Hnonneg ltac:(lra)) as [Hlo Hhi].
  pose proof (sqrt_positive Hpos) as Hmax.
  split.
  - apply Qle_shift_div_l; [exact Hmax | lra].
  - apply Qle_shift_div_r; [exact Hmax | lra].
Qed.

Lemma alphaStyle_wave : paintsOnly (alphaStyle params) (renderWavePattern host params).
Proof.
  unfold renderWavePattern.
  apply paintsOnly_bind; [apply paintsOnly_setShadowColor; intros; exact I | intros _].
  apply paintsOnly_forEachCell. intros i j blur Hi Hj. unfold waveCell.
  apply paintsOnly_with_shape. intros sb Hsb.
  apply paintsOnly_with_seed. intros seed Hseed.
  destruct (ltb _ _); [| apply paintsOnly_ret].
  apply paintsOnly_alpha_draw. unfold waveBrightness.
  pose proof (waveAlpha_range i j) as Hwave.
  destruct (LayerConfig.gradient _); [| exact Hsb].
  apply mix_range; [apply product_range; assumption | exact Hsb | exact strength_range].
Qed.

Lemma alphaStyle_static : paintsOnly (alphaStyle params) (renderStaticPattern params).
Proof.
  unfold renderStaticPattern.
  apply paintsOnly_bind; [apply paintsOnly_setShadowColor; intros; exact I | intros _].
  apply paintsOnly_forEachCell. intros i j blur Hi Hj. unfold staticCell.
  apply paintsOnly_with_shape. intros sb Hsb.
  apply paintsOnly_with_seed. intros seed (_ & (Hr2 & Hr2') & _).
  destruct (ltb _ _); [| apply paintsOnly_ret].
  apply paintsOnly_alpha_draw.
  destruct (LayerConfig.gradient _); [| exact Hsb].
  apply mix_range; [apply product_range; [lra | exact Hsb] | exact Hsb | exact strength_range].
Qed.

Lemma alphaStyle_glitch : paintsOnly (alphaStyle params) (renderGlitchPattern host params).
Proof.
  unfold renderGlitchPattern.
  apply paintsOnly_bind; [apply paintsOnly_setShadowColor; intros; exact I | intros _].
  apply paintsOnly_forEachCell. intros i j blur Hi Hj. unfold glitchCell.
  apply paintsOnly_with_shape. intros sb Hsb.
  apply paintsOnly_bind.
  { unfold glitchOffsets. destruct (isGlitching params); [| apply paintsOnly_ret].
    apply paintsOnly_bind; [apply paintsOnly_seedAt | intros glitchSeed].
    destruct (ltb _ _); apply paintsOnly_ret. }
  intros offsets.
  apply paintsOnly_with_seed. intros seed (_ & _ & (Hr3 & Hr3')).
  destruct (ltb _ _); [| apply paintsOnly_ret].
  apply paintsOnly_alpha_draw.
  destruct (LayerConfig.gradient _); [| exact Hsb].
  apply mix_range; [apply product_range; [lra | exact Hsb] | exact Hsb | exact strength_range].
Qed.

Lemma alphaStyle_pulse : paintsOnly (alphaStyle params) (renderPulsePattern host params).
Proof.
  unfold renderPulsePattern.
  apply paintsOnly_bind; [apply paintsOnly_setShadowColor; intros; exact I | intros _].
  apply paintsOnly_forEachCell. intros i j blur Hi Hj. unfold pulseCell.
  apply paintsOnly_with_shape. intros sb Hsb.
  apply paintsOnly_with_seed. intros seed Hseed.
  destruct (ltb _ _); [| apply paintsOnly_ret].
  apply paintsOnly_alpha_draw.
  destruct (LayerConfig.gradient _); [| exact Hsb].
  pose proof strength_range as Hg.
  pose proof (normalizedDist_range Hi Hj) as Hnd. cbv zeta in Hnd.
  pose proof (pulse_range (inject_Z (frame params) * 0.05)) as Hp.
  apply mix_range; [| exact Hsb | exact strength_range].
  apply product_range; [| exact Hsb].
  apply product_range; [lra | exact Hp].
Qed.

Lemma alphaStyle_rainCell (drop : Drop.t) (j blur : Z) :
  0 < Drop.length drop -> (0 <= j)%Z ->
  paintsOnly (alphaStyle params) (rainCell params drop j blur).
Proof.
  intros Hlen Hj. unfold rainCell.
  destruct (_ || _)%bool; [apply paintsOnly_ret |].
  apply paintsOnly_with_shape. intros sb Hsb.
  match goal with |- context [gtb ?b 0.1] => destruct (gtb b 0.1) eqn:Hbright end;
    [| apply paintsOnly_ret].
  apply gtb_gt in Hbright.
  apply paintsOnly_bind.
  { apply paintsOnly_setColorAndGlow_style; [| intros; exact I].
    eexists. split; [| reflexivity].
    destruct (LayerConfig.gradient _); [| exact Hsb].
    pose proof strength_range as Hg.
    set (gs := LayerConfig.gradientStrength _) in *.
    assert (Hj0 : 0 <= inject_Z j)
      by (change 0 with (inject_Z 0); rewrite <- Zle_Qle; lia).
    assert (Hq : 0 <= inject_Z j / Drop.length drop)
      by (apply Qle_shift_div_l; lra).
    set (q := inject_Z j / Drop.length drop) in *.
    assert (Ha : (1 - q) * sb <= 1) by nra.
    set (a := (1 - q) * sb) in *.
    split; [lra | nra]. }
  intros blur'. apply paintsOnly_bind; [apply paintsOnly_seedAt | intros seed].
  apply paintsOnly_bind; [| intros; apply paintsOnly_ret].
  unfold fillSymbol. apply paintsOnly_emit. exact I.
Qed.

(** X27. Every fill style a renderer writes is the layer colour
    followed by the alpha of a brightness within [0,1], hence a byte of
    two hexadecimal digits.  This needs a sine and a cosine within
    [-1,1], a square root that is monotone and positive on positive
    numbers, shape data that is absent or a brightness grid, shape
    influence and gradient strength within [0,1], seeds within [0,1)
    and, for the rain, drops of positive length. *)
Theorem fill_styles_carry_a_unit_brightness :
  paintsOnly (alphaStyle params) (renderWavePattern host params)
  /\ paintsOnly (alphaStyle params) (renderStaticPattern params)
  /\ paintsOnly (alphaStyle params) (renderGlitchPattern host params)
  /\ paintsOnly (alphaStyle params) (renderPulsePattern host params)
  /\ forall s : state,
       Forall (fun drop => 0 < Drop.length drop) (drops s) ->
       exists painted : Canvas.log,
         ctx (snd (renderRainPattern params s)) = ctx s ++ painted
         /\ Forall (alphaStyle params) painted.
Proof.
  split; [exact alphaStyle_wave |]. split; [exact alphaStyle_static |].
  split; [exact alphaStyle_glitch |]. split; [exact alphaStyle_pulse |].
  intros s Hlen.
  assert (Hpaint : paintsOnly (alphaStyle params)
            (setShadowColor (Layer.config (layer params)) ;;
             (forEach (drops s)
                (fun drop blur =>
                   forEach (range (Qceiling (Drop.length drop)))
                     (rainCell params drop) blur) (-1)%Z ;;
              ret tt))).
  { apply paintsOnly_bind;
      [apply paintsOnly_setShadowColor; intros; exact I | intros _].
    apply paintsOnly_bind; [| intros; apply paintsOnly_ret].
    apply paintsOnly_forEach. intros drop blur Hin.
    apply paintsOnly_forEach. intros j blur' Hj. apply range_In in Hj.
    rewrite Forall_forall in Hlen.
    apply alphaStyle_rainCell; [exact (Hlen _ Hin) | lia]. }
  destruct (Hpaint s) as (painted & Hctx & Hall).
  exists painted. split; [| exact Hall]. rewrite <- Hctx. f_equal. f_equal.
  apply renderRainPattern_reads_drops.
Qed.

End Brightness.

(** ** How far the glitch moves a symbol *)

Section GlitchJitter.
Import JS Render ColorUtils RenderPatterns Design.
Open Scope Q_scope.
Open Scope list_scope.
Open Scope render_scope.

Variable host : Host.t.
Variable params : RenderPatternParams.

Hypothesis sin_range : forall x : Q, -1 <= Host.sin host x <= 1.
Hypothesis seeds_unit : Forall unitSeed (randomSeeds params).

Lemma glitchIntensity_range : 0 <= glitchIntensity host params <= 1.
Proof.
  unfold glitchIntensity. destruct (isGlitching params); [| lra].
  pose proof (sin_range (inject_Z (frame params) * 0.5)). split.
  - apply Qle_shift_div_l; lra.
  - apply Qle_shift_div_r; lra.
Qed.

Lemma seedAt_unit (i : option Z) (s s' : state) (seed : RandomSeed.t) :
  seedAt (randomSeeds params) i s = (Ok seed, s') -> unitSeed seed.
Proof.
  intros Hrun. unfold seedAt, index in Hrun.
  destruct i as [i |]; [| discriminate].
  destruct (i <? 0)%Z; [discriminate |].
  destruct (nth_error (randomSeeds params) (Z.to_nat i)) as [seed' |] eqn:Hnth;
    [| discriminate].
  inversion Hrun; subst. apply nth_error_In in Hnth.
  rewrite Forall_forall in seeds_unit. exact (seeds_unit _ Hnth).
Qed.

Lemma glitchOffsets_range (seedIndex : option Z) (s s' : state) (offsets : Q * Q) :
  glitchOffsets host params seedIndex s = (Ok offsets, s') ->
  -15 <= fst offsets <= 15 /\ -5 <= snd offsets <= 5.
Proof.
  unfold glitchOffsets. pose proof glitchIntensity_range as Hgi.
  destruct (isGlitching params).
  - unfold bind.
    destruct (seedAt (randomSeeds params) _ s) as [[glitchSeed | e] s1] eqn:Hseed;
      [| discriminate].
    apply seedAt_unit in Hseed. destruct Hseed as (_ & (Hr2 & Hr2') & (Hr3 & Hr3')).
    destruct (ltb _ _); unfold ret; intros Hrun; inversion Hrun; subst; cbn [fst snd].
    + set (gi := glitchIntensity host params) in *.
      set (r2 := RandomSeed.r2 glitchSeed) in *.
      set (r3 := RandomSeed.r3 glitchSeed) in *.
      repeat split; nra.
    + repeat split; lra.
  - unfold ret. intros Hrun. inversion Hrun; subst. cbn [fst snd]. repeat split; lra.
Qed.

(** X28. Whatever the frame, the glitch renderer draws every symbol
    within 15 pixels horizontally and 5 pixels vertically of the centre
    of a cell of the grid, and an offset it computes is within those
    bounds, given a sine within [-1,1] and seeds within [0,1). *)
Theorem glitch_jitter_is_bounded :
  (forall (seedIndex : option Z) (s s' : state) (offsetX offsetY : Q),
      glitchOffsets host params seedIndex s = (Ok (offsetX, offsetY), s') ->
      -15 <= offsetX <= 15 /\ -5 <= offsetY <= 5)
  /\ paintsOnly (nearCellCentre params) (renderGlitchPattern host params).
Proof.
  split.
  { intros seedIndex s s' offsetX offsetY Hrun.
    exact (glitchOffsets_range _ _ Hrun). }
  unfold renderGlitchPattern.
  apply paintsOnly_bind; [apply paintsOnly_setShadowColor; intros; exact I | intros _].
  apply paintsOnly_forEachCell. intros i j blur Hi Hj. unfold glitchCell.
  apply paintsOnly_bind; [apply paintsOnly_lift | intros sb].
  apply paintsOnly_bind_val
    with (R := fun offsets => -15 <= fst offsets <= 15 /\ -5 <= snd offsets <= 5).
  { intros s s' offsets Hrun. exact (glitchOffsets_range _ _ Hrun). }
  { unfold glitchOffsets. destruct (isGlitching params); [| apply paintsOnly_ret].
    apply paintsOnly_bind; [apply paintsOnly_seedAt | intros glitchSeed].
    destruct (ltb _ _); apply paintsOnly_ret. }
  intros offsets [Hx Hy].
  apply paintsOnly_bind; [apply paintsOnly_seedAt | intros seed].
  destruct (ltb _ _); [| apply paintsOnly_ret].
  apply paintsOnly_bind; [apply paintsOnly_setColorAndGlow; intros; exact I | intros blur'].
  apply paintsOnly_bind; [| intros; apply paintsOnly_ret].
  unfold fillSymbol. apply paintsOnly_emit. cbn [nearCellCentre].
  exists i, j. split; [exact Hi |]. split; [exact Hj |].
  split; lra.
Qed.

End GlitchJitter.

(** *** The renderers on a grid of one cell *)

Section OneCell.
Import JS Render ColorUtils RenderPatterns Design.
Open Scope Q_scope.
Open Scope string_scope.

(** Frame 10 is outside the burst windows: the cell is drawn at its
    centre. *)
Lemma glitch_jitter_only_in_burst_windows_witness :
  ((5 <= Z.rem 10 80 <= 30)%Z \/ (35 <= Z.rem 10 80 < 80)%Z)
  /\ glitchOffsets Sample.host (Sample.oneCell "glitch" 10) (Some 0%Z) Sample.blank
     = (Ok (0, 0), Sample.blank)
  /\ paintsOnly (atCellCentre (Sample.oneCell "glitch" 10))
       (renderGlitchPattern Sample.host (Sample.oneCell "glitch" 10)).
Proof.
  assert (Hcycle : (5 <= Z.rem 10 80 <= 30)%Z \/ (35 <= Z.rem 10 80 < 80)%Z)
    by (left; cbn; lia).
  split; [exact Hcycle |].
  destruct (glitch_jitter_only_in_burst_windows Sample.host (Sample.oneCell "glitch" 10))
    as (Hquiet & _ & _).
  destruct (Hquiet Hcycle) as [Hoffsets Hpaint].
  split; [apply Hoffsets | exact Hpaint].
Defined.

(** Frame 2 is inside the first burst window: the same cell is drawn
    away from its centre. *)
Example glitch_jitter_in_burst :
  exists offsetX offsetY : Q,
    fst (glitchOffsets Sample.host (Sample.oneCell "glitch" 2) (Some 0%Z) Sample.blank)
    = Ok (offsetX, offsetY)
    /\ ~ offsetX == 0.
Proof.
  eexists. eexists. split; [reflexivity |]. vm_compute. discriminate.
Qed.

Lemma wave_cell_draw_and_brightness_witness :
  LayerConfig.gradient (Layer.config (layer (Sample.oneCell "wave" 0))) = true
  /\ getShapeBrightnessForLayer 0 0 1 1 (Sample.dimmed "wave") = Ok (0.5 * 1 + (1 - 1))
  /\ index Sample.seeds (rem (Some (0 * 1 + 0)%Z) 1)
     = Some {| RandomSeed.r1 := 0; RandomSeed.r2 := 0.25; RandomSeed.r3 := 0.5 |}
  /\ 0 < 1 * waveAlpha Sample.host (Sample.oneCell "wave" 0) 0 0 * (0.5 * 1 + (1 - 1))
  /\ exists (blur' : Z) (s' : state),
       waveCell Sample.host (Sample.oneCell "wave" 0) 0 0 (-1) Sample.blank
       = (Ok blur', s').
Proof.
  split; [reflexivity |]. split; [reflexivity |]. split; [reflexivity |].
  assert (Hdraw : 0 < 1 * waveAlpha Sample.host (Sample.oneCell "wave" 0) 0 0
                      * (0.5 * 1 + (1 - 1))) by (vm_compute; reflexivity).
  split; [exact Hdraw |].
  destruct (wave_cell_draw_and_brightness Sample.host (Sample.oneCell "wave" 0)
              0 0 (-1) Sample.blank
              (shapeInfluence := 0.5 * 1 + (1 - 1))
              (seed := {| RandomSeed.r1 := 0; RandomSeed.r2 := 0.25;
                          RandomSeed.r3 := 0.5 |})
              eq_refl eq_refl eq_refl) as (_ & Hdrawn & _).
  destruct (Hdrawn Hdraw) as (blur' & s' & _ & _ & Hrun & _).
  exists blur', s'. exact Hrun.
Defined.

(** C6 as the table states it fails: on a grid of one cell whose shape
    brightness is one half, with shape influence, density and gradient
    strength 1 and [seed.r1 = 0], the wave cell of frame 0 has
    [waveAlpha = 1/2] and is drawn with brightness 1/4 (alpha "3f"),
    where [waveAlpha * gradientStrength
    + (1 - gradientStrength) * shapeInfluence] is 1/2 (alpha "7f"). *)
Lemma wave_brightness_as_stated_counterexample :
  LayerConfig.gradient (Layer.config (layer (Sample.oneCell "wave" 0))) = true
  /\ getShapeBrightnessForLayer 0 0 1 1 (Sample.dimmed "wave") = Ok (0.5 * 1 + (1 - 1))
  /\ waveAlpha Sample.host (Sample.oneCell "wave" 0) 0 0 == 1 # 2
  /\ waveCell Sample.host (Sample.oneCell "wave" 0) 0 0 (-1) Sample.blank
     = (Ok 2%Z,
        {| ctx := [Canvas.SetFillStyle "#00ff9f3f"; Canvas.SetShadowBlur 2;
                   Canvas.FillText "0" (inject_Z 6) (inject_Z 6)];
           drops := [];
           randomCalls := 0 |})
  /\ waveBrightness (Sample.oneCell "wave" 0)
       (waveAlpha Sample.host (Sample.oneCell "wave" 0) 0 0) (0.5 * 1 + (1 - 1))
     == 1 # 4
  /\ waveBrightnessAsStated
       (waveAlpha Sample.host (Sample.oneCell "wave" 0) 0 0) (0.5 * 1 + (1 - 1)) 1
     == 1 # 2
  /\ ~ waveBrightness (Sample.oneCell "wave" 0)
         (waveAlpha Sample.host (Sample.oneCell "wave" 0) 0 0) (0.5 * 1 + (1 - 1))
       == waveBrightnessAsStated
            (waveAlpha Sample.host (Sample.oneCell "wave" 0) 0 0)
            (0.5 * 1 + (1 - 1)) 1.
Proof.
  split; [reflexivity |]. split; [reflexivity |].
  split; [vm_compute; reflexivity |].
  split; [vm_compute; reflexivity |].
  split; [vm_compute; reflexivity |].
  split; [vm_compute; reflexivity |].
  vm_compute. discriminate.
Qed.

End OneCell.

(** *** The static renderer on a grid of two by two cells *)

Section StaticGrid.
Import JS Render ColorUtils RenderPatterns Design.
Open Scope Q_scope.
Open Scope string_scope.

(** Four seeds: frame 3 and frame 11 give the same picture. *)
Lemma static_pattern_repeats_witness :
  (0 <= 3)%Z
  /\ (0 <= 2)%Z
  /\ renderStaticPattern (atFrame (Sample.twoByTwo 3) (3 + 2 * 4)) Sample.blank
     = renderStaticPattern (Sample.twoByTwo 3) Sample.blank.
Proof.
  assert (H3 : (0 <= 3)%Z) by lia.
  assert (H2 : (0 <= 2)%Z) by lia.
  split; [exact H3 |]. split; [exact H2 |].
  exact (@static_pattern_repeats (Sample.twoByTwo 3) 2 Sample.blank H3 H2).
Defined.

Lemma static_full_density_fills_grid_witness :
  Sample.fourSeeds <> []
  /\ Forall unitSeed Sample.fourSeeds
  /\ paintsExactly 4 (litText (Sample.twoByTwo 0))
       (renderStaticPattern (Sample.twoByTwo 0)).
Proof.
  assert (Hseeds : Sample.fourSeeds <> []) by discriminate.
  assert (Hunit : Forall unitSeed Sample.fourSeeds).
  { repeat constructor; cbn; discriminate || reflexivity. }
  split; [exact Hseeds |]. split; [exact Hunit |].
  apply (@static_full_density_fills_grid (Sample.twoByTwo 0) Hseeds Hunit).
  - cbn. lia.
  - reflexivity.
  - reflexivity.
  - cbn. discriminate.
Defined.

(** One cell, no seed: every grid renderer throws. *)
Lemma empty_seed_table_throws_witness :
  shapeOk (Sample.dimmed "wave")
  /\ throwsTypeError (renderWavePattern Sample.host (Sample.noSeeds "wave"))
  /\ fst (renderWavePattern Sample.host (Sample.noSeeds "wave") Sample.blank)
     = Throw TypeError.
Proof.
  assert (Hshape : shapeOk (Sample.dimmed "wave")).
  { cbv [shapeOk Sample.dimmed Layer.shapeData brightnessGrid].
    split; [discriminate |]. split; [repeat constructor |].
    repeat constructor; cbn; discriminate. }
  split; [exact Hshape |].
  destruct (@empty_seed_table_throws Sample.host (Sample.noSeeds "wave") eq_refl
              ltac:(cbn; lia) ltac:(cbn; lia) Hshape) as (Hwave & _).
  split; [exact Hwave | apply Hwave].
Defined.

End StaticGrid.

(** *** A host with bounded sine and cosine *)

Section BoundedHost.
Import JS Render ColorUtils RenderPatterns Design.
Open Scope Q_scope.
Open Scope string_scope.

Lemma square_nonneg (y : Q) : 0 <= y * y.
Proof. destruct (Qlt_le_dec y 0); nra. Qed.

Lemma bounded_sin_range (x : Q) : -1 <= Host.sin Sample.bounded x <= 1.
Proof.
  cbn [Host.sin Sample.bounded].
  assert (Hpos : 0 < 1 + x * x) by (pose proof (square_nonneg x); lra).
  pose proof (square_nonneg (x + 1)). pose proof (square_nonneg (x - 1)).
  split.
  - apply Qle_shift_div_l; [exact Hpos | lra].
  - apply Qle_shift_div_r; [exact Hpos | lra].
Qed.

Lemma bounded_cos_range (x : Q) : -1 <= Host.cos Sample.bounded x <= 1.
Proof.
  cbn [Host.cos Sample.bounded].
  assert (Hpos : 0 < 1 + x * x) by (pose proof (square_nonneg x); lra).
  pose proof (square_nonneg x).
  split.
  - apply Qle_shift_div_l; [exact Hpos | lra].
  - apply Qle_shift_div_r; [exact Hpos | lra].
Qed.

Lemma fill_styles_carry_a_unit_brightness_witness :
  (forall x : Q, -1 <= Host.sin Sample.bounded x <= 1)
  /\ (forall x : Q, -1 <= Host.cos Sample.bounded x <= 1)
  /\ shapeOk (Sample.dimmed "wave")
  /\ Forall unitSeed Sample.seeds
  /\ paintsOnly (alphaStyle (Sample.oneCell "wave" 0))
       (renderWavePattern Sample.bounded (Sample.oneCell "wave" 0)).
Proof.
  assert (Hshape : shapeOk (Sample.dimmed "wave")).
  { cbv [shapeOk Sample.dimmed Layer.shapeData brightnessGrid].
    split; [discriminate |]. split; [repeat constructor |].
    repeat constructor; cbn; discriminate. }
  assert (Hseeds : Forall unitSeed Sample.seeds).
  { repeat constructor; cbn; discriminate || reflexivity. }
  split; [exact bounded_sin_range |]. split; [exact bounded_cos_range |].
  split; [exact Hshape |]. split; [exact Hseeds |].
  refine (proj1 (@fill_styles_carry_a_unit_brightness Sample.bounded
                   (Sample.oneCell "wave" 0)
                   bounded_sin_range bounded_cos_range _ _ Hshape _ _ Hseeds)).
  - intros x y Hx Hxy. cbn [Host.sqrt Sample.bounded]. split; assumption.
  - intros x Hx. exact Hx.
  - cbn. split; discriminate.
  - cbn. split; discriminate.
Defined.

End BoundedHost.

(** Frame 2 is inside a burst window; the symbol stays near its cell. *)
Lemma glitch_jitter_is_bounded_witness :
  (forall x : Q, -1 <= Host.sin Sample.bounded x <= 1)%Q
  /\ Forall Design.unitSeed Sample.seeds
  /\ Design.paintsOnly (Design.nearCellCentre (Sample.oneCell "glitch" 2))
       (RenderPatterns.renderGlitchPattern Sample.bounded (Sample.oneCell "glitch" 2)).
Proof.
  assert (Hseeds : Forall Design.unitSeed Sample.seeds).
  { repeat constructor; cbn; discriminate || reflexivity. }
  split; [exact bounded_sin_range |]. split; [exact Hseeds |].
  exact (proj2 (@glitch_jitter_is_bounded Sample.bounded (Sample.oneCell "glitch" 2)
                  bounded_sin_range Hseeds)).
Defined.

(** ** Layer compositor *)

Section Compositor.
Import JS Render CanvasRenderer Design.
Open Scope Q_scope.
Open Scope render_scope.

Variable host : Host.t.

Lemma keepsDrops_renderLayerToCanvas (params : UseCanvasRendererParams)
    (layer : Layer.t) (frame : Z) :
  keepsDrops (renderLayerToCanvas host params layer frame).
Proof.
  unfold renderLayerToCanvas.
  destruct (_ || _)%bool; [apply keepsDrops_ret |].
  repeat (apply keepsDrops_bind; [apply keepsDrops_emit | intros _]).
  repeat match goal with
         | |- keepsDrops (if ?c then _ else _) => destruct c
         end.
  - apply keepsDrops_renderRainPattern.
  - apply keepsDrops_renderWavePattern.
  - apply keepsDrops_renderStaticPattern.
  - apply keepsDrops_renderGlitchPattern.
  - apply keepsDrops_renderPulsePattern.
  - apply keepsDrops_ret.
Qed.

Lemma keepsDrops_compositeLayer (params : UseCanvasRendererParams)
    (frame : Z) (layer : Layer.t) :
  keepsDrops (compositeLayer host params frame layer).
Proof.
  unfold compositeLayer.
  apply keepsDrops_bind;
    [apply keepsDrops_onNewCanvas, keepsDrops_renderLayerToCanvas | intros off].
  repeat (apply keepsDrops_bind; [apply keepsDrops_emit | intros _]).
  apply keepsDrops_emit.
Qed.

(** Clearing the canvas and merging the visible layers leaves the drops
    as they are, however many of the layers rain. *)
Lemma keepsDrops_paintLayers (params : UseCanvasRendererParams) (frame : Z) :
  keepsDrops (paintLayers host params frame).
Proof.
  unfold paintLayers.
  repeat (apply keepsDrops_bind; [apply keepsDrops_emit | intros _]).
  apply keepsDrops_forEach. intros layer u. apply keepsDrops_compositeLayer.
Qed.

(** *** No throw on renderable inputs *)

Lemma renderLayerToCanvas_returns (params : UseCanvasRendererParams)
    (layer : Layer.t) (frame : Z) (s : state) :
  randomSeeds params <> [] -> (0 <= frame)%Z -> shapeOk layer ->
  Forall (fun d => (0 <= Drop.x d)%Z) (drops s) ->
  exists s' : state, renderLayerToCanvas host params layer frame s = (Ok tt, s').
Proof.
  intros Hseeds Hframe Hshape Hdrops. unfold renderLayerToCanvas.
  destruct (_ || _)%bool; [exists s; reflexivity |].
  unfold bind at 1. unfold emit at 1.
  unfold bind at 1. unfold emit at 1.
  unfold bind at 1. unfold emit at 1.
  unfold bind at 1. unfold emit at 1.
  cbn [ctx drops randomCalls].
  set (rp := {| RenderPatterns.layer := layer |}).
  set (s4 := {| ctx := _ |}).
  assert (Hcompletes : forall m : M unit, completes m -> exists s', m s4 = (Ok tt, s')).
  { intros m Hm. destruct (Hm s4) as ([] & s' & Hrun). exists s'. exact Hrun. }
  destruct (String.eqb _ "rain").
  { apply (@renderRainPattern_returns rp Hseeds Hshape s4). exact Hdrops. }
  destruct (String.eqb _ "wave").
  { apply Hcompletes, completes_renderWavePattern; assumption. }
  destruct (String.eqb _ "static").
  { apply Hcompletes, completes_renderStaticPattern; assumption. }
  destruct (String.eqb _ "glitch").
  { apply Hcompletes, completes_renderGlitchPattern; assumption. }
  destruct (String.eqb _ "pulse").
  { apply Hcompletes, completes_renderPulsePattern; assumption. }
  exists s4. reflexivity.
Qed.

Lemma compositeLayer_returns (params : UseCanvasRendererParams)
    (frame : Z) (layer : Layer.t) (s : state) :
  randomSeeds params <> [] -> (0 <= frame)%Z -> shapeOk layer ->
  Forall (fun d => (0 <= Drop.x d)%Z) (drops s) ->
  exists s' : state, compositeLayer host params frame layer s = (Ok tt, s').
Proof.
  intros Hseeds Hframe Hshape Hdrops. unfold compositeLayer.
  destruct (@renderLayerToCanvas_returns params layer frame
              {| ctx := []; drops := drops s; randomCalls := randomCalls s |}
              Hseeds Hframe Hshape Hdrops) as (s1 & Hrun).
  unfold bind at 1. unfold onNewCanvas. rewrite Hrun.
  eexists. reflexivity.
Qed.

Lemma paintLayers_returns (params : UseCanvasRendererParams) (frame : Z) (s : state) :
  renderable params frame s ->
  exists painted : state, paintLayers host params frame s = (Ok tt, painted).
Proof.
  intros (Hseeds & Hframe & Hshapes & Hdrops). unfold paintLayers.
  unfold bind at 1. unfold emit at 1.
  unfold bind at 1. unfold emit at 1.
  set (s2 := {| ctx := _ |}).
  assert (Hdrops2 : Forall (fun d => (0 <= Drop.x d)%Z) (drops s2)) by exact Hdrops.
  clearbody s2. clear Hdrops.
  assert (Hvisible : Forall shapeOk (filter Layer.visible (layers params))).
  { rewrite Forall_forall in *. intros l Hl. apply filter_In in Hl. apply Hshapes, Hl. }
  revert s2 Hdrops2.
  induction Hvisible as [| layer ls Hlayer _ IH]; intros s2 Hdrops2; cbn [forEach].
  - exists s2. reflexivity.
  - destruct (@compositeLayer_returns params frame layer s2 Hseeds Hframe Hlayer Hdrops2)
      as (s3 & Hrun).
    rewrite (@bind_Ok _ _ _ _ _ _ _ Hrun). apply IH.
    pose proof (keepsDrops_compositeLayer params frame layer s2) as [Hkeep _].
    rewrite Hrun in Hkeep. cbn [snd] in Hkeep. rewrite Hkeep. exact Hdrops2.
Qed.

(** *** Hidden layers *)

Lemma visible_hideAt_removeAt (i : nat) (ls : list Layer.t) :
  filter Layer.visible (hideAt i ls) = filter Layer.visible (removeAt i ls).
Proof.
  revert i. induction ls as [| l ls IH]; intros [| i]; cbn; try reflexivity.
  destruct (Layer.visible l); [f_equal |]; apply IH.
Qed.

(** Hiding or removing a layer other than the first leaves the colour
    the canvas is cleared with as it is. *)
Lemma backgroundOf_above_bottom (i : nat) (ls : list Layer.t) :
  (0 < i)%nat -> backgroundOf (hideAt i ls) = backgroundOf (removeAt i ls).
Proof.
  intros Hi. destruct i as [| i]; [lia |].
  destruct ls as [| l ls]; reflexivity.
Qed.

(** C2, as the code has it. For every layer list, frame and state of
    the drops and the random source, hiding the layer at index [i] and
    removing it give the same composite pass (same canvas, same drops)
    provided the layer is not the first of the list, or the colour the
    canvas is cleared with, which is the background colour of the first
    layer whether visible or not, is the same in both lists. *)
Theorem hidden_layer_composites_as_removed
    (params : UseCanvasRendererParams) (i : nat) (frame : Z) (s : state) :
  (0 < i)%nat
  \/ backgroundOf (hideAt i (layers params)) = backgroundOf (removeAt i (layers params)) ->
  renderFrame host (withLayers params (hideAt i (layers params))) frame s
  = renderFrame host (withLayers params (removeAt i (layers params))) frame s.
Proof.
  intros Hbg.
  assert (Hsame : backgroundOf (hideAt i (layers params))
                  = backgroundOf (removeAt i (layers params))).
  { destruct Hbg as [Hi | Heq]; [apply backgroundOf_above_bottom; exact Hi | exact Heq]. }
  unfold renderFrame, paintLayers.
  cbn [withLayers canvasReady canvasSize layers].
  rewrite Hsame, visible_hideAt_removeAt. reflexivity.
Qed.

(** *** One drop update per pass *)

Hypothesis random_range : forall n : nat, 0 <= Host.random host n < 1.


End Compositor.

(** ** A composite pass, step by step *)

Section Passes.
Import JS Render CanvasRenderer Design.
Open Scope Q_scope.
Open Scope list_scope.
Open Scope render_scope.

Variable host : Host.t.
Variable params : UseCanvasRendererParams.

Let rows : Z := floorDiv (height (canvasSize params)) (cellSize params).

(** *** The drop update *)

Lemma mapM_updateDrop_runs (ds : list Drop.t) (s : state) :
  exists (ds' : list Drop.t) (s' : state),
    mapM (updateDrop host params) ds s = (Ok ds', s')
    /\ ctx s' = ctx s
    /\ drops s' = drops s
    /\ randomCalls s' = (randomCalls s + List.length (filter (wraps rows) ds))%nat
    /\ map Drop.x ds' = map Drop.x ds
    /\ map Drop.length ds' = map Drop.length ds.
Proof.
  revert s. induction ds as [| d ds IH]; intros s.
  - exists [], s. cbn. rewrite Nat.add_0_r. repeat split.
  - cbn [mapM filter]. unfold bind at 1. unfold updateDrop at 1. fold rows.
    change (gtb (Drop.y d + Drop.speed d * 0.3) (inject_Z rows + Drop.length d))
      with (wraps rows d).
    destruct (wraps rows d).
    + unfold bind at 1. unfold random at 1. unfold ret at 1.
      destruct (IH {| ctx := ctx s; drops := drops s; randomCalls := S (randomCalls s) |})
        as (ds' & s' & Hrun & Hc & Hd & Hn & Hx & Hl).
      unfold bind at 1. rewrite Hrun. unfold ret.
      eexists. eexists. split; [reflexivity |].
      cbn [ctx drops randomCalls List.length map Drop.x Drop.length] in *.
      repeat split; try assumption; try congruence. lia.
    + unfold ret at 1.
      destruct (IH s) as (ds' & s' & Hrun & Hc & Hd & Hn & Hx & Hl).
      unfold bind at 1. rewrite Hrun. unfold ret.
      eexists. eexists. split; [reflexivity |].
      cbn [map Drop.x Drop.length].
      repeat split; try assumption; congruence.
Qed.

Lemma updateDrops_runs (s : state) :
  exists s' : state,
    updateDrops host params s = (Ok tt, s')
    /\ ctx s' = ctx s
    /\ randomCalls s' = (randomCalls s + List.length (filter (wraps rows) (drops s)))%nat
    /\ map Drop.x (drops s') = map Drop.x (drops s)
    /\ map Drop.length (drops s') = map Drop.length (drops s).
Proof.
  destruct (mapM_updateDrop_runs (drops s) s)
    as (ds' & s1 & Hrun & Hc & _ & Hn & Hx & Hl).
  unfold updateDrops, getDrops. unfold bind at 1. unfold bind at 1.
  rewrite Hrun. unfold setDrops.
  eexists. split; [reflexivity |]. cbn [ctx drops randomCalls].
  repeat split; assumption.
Qed.

Lemma renderFrame_steps (frame : Z) :
  canvasReady params = true ->
  width (canvasSize params) <> 0%Z ->
  height (canvasSize params) <> 0%Z ->
  renderFrame host params frame
  = (paintLayers host params frame ;; updateDrops host params).
Proof.
  intros Hready Hw Hh. unfold renderFrame. rewrite Hready. cbn [negb].
  destruct (Z.eqb_spec (width (canvasSize params)) 0); [contradiction |].
  destruct (Z.eqb_spec (height (canvasSize params)) 0); [contradiction |].
  reflexivity.
Qed.

(** X24. [Math.random] is called once for every drop that wraps and
    by nothing else in a pass: painting the layers calls it never, and
    after a pass on renderable inputs the number of calls has grown by
    the number of drops whose next step takes them past
    [rows + length].  Cell sizes are taken positive, where the division
    of the source is the one modelled. *)
Theorem random_called_once_per_wrapped_drop (frame : Z) (s : state) :
  canvasReady params = true ->
  width (canvasSize params) <> 0%Z ->
  height (canvasSize params) <> 0%Z ->
  cellSizesPositive params ->
  renderable params frame s ->
  randomCalls (snd (paintLayers host params frame s)) = randomCalls s
  /\ exists s' : state,
       renderFrame host params frame s = (Ok tt, s')
       /\ randomCalls s'
          = (randomCalls s
             + List.length
                 (filter (wraps (floorDiv (height (canvasSize params)) (cellSize params)))
                    (drops s)))%nat.
Proof.
  intros Hready Hw Hh _ Hok.
  pose proof (keepsDrops_paintLayers host params frame s) as [Hdrops Hcalls].
  split; [exact Hcalls |].
  rewrite (renderFrame_steps frame Hready Hw Hh).
  destruct (@paintLayers_returns host params frame s Hok) as (s1 & Hpaint).
  rewrite Hpaint in Hdrops, Hcalls. cbn [snd] in Hdrops, Hcalls.
  destruct (updateDrops_runs s1) as (s' & Hrun & _ & Hn & _).
  exists s'. unfold bind. rewrite Hpaint. split; [exact Hrun |].
  rewrite Hn, Hcalls, Hdrops. reflexivity.
Qed.

(** *** A canvas without size *)

Lemma paintsOnly_onNewCanvas (P : Canvas.op -> Prop) (m : M unit) :
  paintsOnly P (onNewCanvas m).
Proof.
  intros s. exists []. rewrite app_nil_r. split; [| constructor].
  unfold onNewCanvas. destruct (m _) as [[u | e] s1]; reflexivity.
Qed.

Lemma paintsOnly_paintLayers_tail (frame : Z) :
  paintsOnly (fun _ => True)
    (forEach (filter Layer.visible (layers params))
       (fun layer _ => compositeLayer host params frame layer) tt).
Proof.
  apply paintsOnly_forEach. intros layer u _. unfold compositeLayer.
  apply paintsOnly_bind; [apply paintsOnly_onNewCanvas | intros image].
  repeat (apply paintsOnly_bind; [apply paintsOnly_emit; exact I | intros _]).
  apply paintsOnly_emit. exact I.
Qed.

(** X23. A pass without a canvas, or on a canvas of width or height 0,
    does nothing at all: no drawing, no drop moved, no random number
    drawn, and painting a layer on such a canvas does nothing either.
    Any other pass starts by filling the main canvas with the
    background colour. *)
Theorem pass_without_canvas_does_nothing (frame : Z) (s : state) :
  (canvasReady params = false
   \/ width (canvasSize params) = 0%Z \/ height (canvasSize params) = 0%Z ->
   renderFrame host params frame s = (Ok tt, s))
  /\ (width (canvasSize params) = 0%Z \/ height (canvasSize params) = 0%Z ->
      forall layer : Layer.t,
        renderLayerToCanvas host params layer frame s = (Ok tt, s))
  /\ (canvasReady params = true ->
      width (canvasSize params) <> 0%Z ->
      height (canvasSize params) <> 0%Z ->
      exists painted : Canvas.log,
        ctx (snd (renderFrame host params frame s))
        = ctx s
          ++ Canvas.SetFillStyle (backgroundOf (layers params))
             :: Canvas.FillRect 0 0 (width (canvasSize params))
                  (height (canvasSize params))
             :: painted).
Proof.
  assert (Hzero : width (canvasSize params) = 0%Z \/ height (canvasSize params) = 0%Z ->
                  ((width (canvasSize params) =? 0)%Z
                   || (height (canvasSize params) =? 0)%Z)%bool = true).
  { intros [-> | ->]; [reflexivity | rewrite Z.eqb_refl; apply orb_true_r]. }
  split; [| split].
  - intros [Hready | Hsize]; unfold renderFrame.
    + rewrite Hready. reflexivity.
    + destruct (canvasReady params); cbn [negb]; [| reflexivity].
      rewrite (Hzero Hsize). reflexivity.
  - intros Hsize layer. unfold renderLayerToCanvas. rewrite (Hzero Hsize). reflexivity.
  - intros Hready Hw Hh. rewrite (renderFrame_steps frame Hready Hw Hh).
    unfold paintLayers. unfold bind at 1.
    unfold bind at 1. unfold emit at 1.
    unfold bind at 1. unfold emit at 1.
    set (s2 := {| ctx := _ |}).
    destruct (paintsOnly_paintLayers_tail frame s2) as (p1 & Hc1 & _).
    destruct (forEach _ _ tt s2) as [[u | e] s3]; cbn [snd] in *.
    + destruct (updateDrops_runs s3) as (s' & Hrun & Hc & _).
      rewrite Hrun. cbn [snd]. exists p1. rewrite Hc, Hc1. unfold s2. cbn [ctx].
      rewrite <- !app_assoc. reflexivity.
    + exists p1. rewrite Hc1. unfold s2. cbn [ctx].
      rewrite <- !app_assoc. reflexivity.
Qed.

(** *** Merging the layers *)

Lemma compositeLayer_merges (frame : Z) (layer : Layer.t) (s s0 : state) :
  randomSeeds params <> [] -> (0 <= frame)%Z -> shapeOk layer ->
  Forall (fun d => (0 <= Drop.x d)%Z) (drops s0) ->
  drops s = drops s0 -> randomCalls s = randomCalls s0 ->
  compositeLayer host params frame layer s
  = (Ok tt, {| ctx := ctx s ++ merged host params frame s0 layer;
               drops := drops s0;
               randomCalls := randomCalls s0 |}).
Proof.
  intros Hseeds Hframe Hshape Hdrops Hd Hn. unfold compositeLayer.
  unfold bind at 1. unfold onNewCanvas. rewrite Hd, Hn.
  destruct (@renderLayerToCanvas_returns host params layer frame
              {| ctx := []; drops := drops s0; randomCalls := randomCalls s0 |}
              Hseeds Hframe Hshape Hdrops) as (s1 & Hrun).
  pose proof (keepsDrops_renderLayerToCanvas host params layer frame
                {| ctx := []; drops := drops s0; randomCalls := randomCalls s0 |})
    as [Hkd Hkn].
  unfold merged, offscreen. rewrite Hrun in *. cbn [snd drops randomCalls] in *.
  unfold bind, emit. cbn [ctx drops randomCalls]. rewrite Hkd, Hkn.
  rewrite <- !app_assoc. reflexivity.
Qed.

(** X22. On renderable inputs, painting the layers fills the main
    canvas with the background colour and then merges the visible
    layers in list order, bottom first: for each one the global alpha
    is set to the layer's opacity, the layer's own surface is drawn at
    the origin, and the global alpha is set back to 1.  What is on a
    layer's surface does not depend on the other layers.  Cell sizes
    are taken positive, where the division of the source is the one
    modelled. *)
Theorem paintLayers_merges_visible_layers_in_order (frame : Z) (s : state) :
  cellSizesPositive params ->
  renderable params frame s ->
  paintLayers host params frame s
  = (Ok tt,
     {| ctx := ctx s
               ++ Canvas.SetFillStyle (backgroundOf (layers params))
                  :: Canvas.FillRect 0 0 (width (canvasSize params))
                       (height (canvasSize params))
                  :: flat_map (merged host params frame s)
                       (filter Layer.visible (layers params));
        drops := drops s;
        randomCalls := randomCalls s |}).
Proof.
  intros _ (Hseeds & Hframe & Hshapes & Hdrops). unfold paintLayers.
  unfold bind at 1. unfold emit at 1.
  unfold bind at 1. unfold emit at 1.
  cbn [ctx drops randomCalls].
  assert (Hvisible : Forall shapeOk (filter Layer.visible (layers params))).
  { rewrite Forall_forall in *. intros l Hl. apply filter_In in Hl. apply Hshapes, Hl. }
  assert (Hloop : forall (ls : list Layer.t) (s2 : state),
             Forall shapeOk ls ->
             drops s2 = drops s -> randomCalls s2 = randomCalls s ->
             forEach ls (fun layer _ => compositeLayer host params frame layer) tt s2
             = (Ok tt, {| ctx := ctx s2 ++ flat_map (merged host params frame s) ls;
                          drops := drops s;
                          randomCalls := randomCalls s |})).
  { induction ls as [| layer ls IH]; intros s2 Hls Hd Hn; cbn [forEach flat_map].
    - unfold ret. rewrite app_nil_r. destruct s2. cbn in *. subst. reflexivity.
    - inversion Hls as [| layer' ls' Hlayer Hrest]; subst.
      unfold bind at 1.
      rewrite (@compositeLayer_merges frame layer s2 s Hseeds Hframe Hlayer Hdrops Hd Hn).
      cbv beta iota.
      erewrite IH; [| exact Hrest | reflexivity | reflexivity]. cbn [ctx].
      rewrite <- app_assoc. reflexivity. }
  erewrite Hloop; [| exact Hvisible | reflexivity | reflexivity]. cbn [ctx].
  rewrite <- !app_assoc. reflexivity.
Qed.

(** *** The frame loop *)

Lemma renderFrame_returns (frame : Z) (s : state) :
  renderable params frame s ->
  exists s' : state,
    renderFrame host params frame s = (Ok tt, s')
    /\ map Drop.x (drops s') = map Drop.x (drops s)
    /\ map Drop.length (drops s') = map Drop.length (drops s).
Proof.
  intros Hok. unfold renderFrame.
  destruct (negb (canvasReady params)); [exists s; repeat split |].
  destruct (_ || _)%bool; [exists s; repeat split |].
  destruct (@paintLayers_returns host params frame s Hok) as (s1 & Hpaint).
  pose proof (keepsDrops_paintLayers host params frame s) as [Hdrops _].
  rewrite Hpaint in Hdrops. cbn [snd] in Hdrops.
  destruct (updateDrops_runs s1) as (s' & Hrun & _ & _ & Hx & Hl).
  exists s'. unfold bind. rewrite Hpaint. split; [exact Hrun |].
  rewrite <- Hdrops. split; assumption.
Qed.

(** X21. The frame loop never stops on a throw: with a seed table that
    is not empty, shape data that is absent or a brightness grid, and
    drops in columns that are not negative, any run of passes at frames
    that are not negative returns normally, and the drops keep their
    columns and their lengths throughout.  Cell sizes are taken
    positive, where the division of the source is the one modelled. *)
Theorem frame_loop_never_stops (frames : list Z) (s : state) :
  cellSizesPositive params ->
  randomSeeds params <> [] ->
  Forall shapeOk (layers params) ->
  Forall (fun d => (0 <= Drop.x d)%Z) (drops s) ->
  Forall (fun frame => (0 <= frame)%Z) frames ->
  exists s' : state,
    renderFrames host params frames s = (Ok tt, s')
    /\ map Drop.x (drops s') = map Drop.x (drops s)
    /\ map Drop.length (drops s') = map Drop.length (drops s).
Proof.
  intros _ Hseeds Hshapes Hdrops Hframes. revert s Hdrops.
  induction Hframes as [| frame frames Hframe _ IH]; intros s Hdrops;
    cbn [renderFrames].
  - exists s. repeat split.
  - destruct (@renderFrame_returns frame s) as (s1 & Hrun & Hx & Hl).
    { repeat split; assumption. }
    destruct (IH s1) as (s' & Hrest & Hx' & Hl').
    { rewrite <- Forall_map with (f := Drop.x) (P := fun x => (0 <= x)%Z) in *.
      rewrite Hx. exact Hdrops. }
    exists s'. unfold bind. rewrite Hrun. split; [exact Hrest |].
    split; congruence.
Qed.

End Passes.

(** ** From the drops hook to the first pass *)

Section FirstPass.
Import JS DropsHook Design.
Open Scope Q_scope.
Open Scope list_scope.

Variable host : Host.t.

Lemma floorDiv_div (a b : Z) : CanvasRenderer.floorDiv a b = (a / b)%Z.
Proof. unfold CanvasRenderer.floorDiv. symmetry. apply Zdiv_Qdiv. Qed.

Lemma pushAll_Forall2 (A B : Type) (f : A -> R B) (P : A -> B -> Prop) (l : list A) :
  (forall (a : A) (n : nat), P a (fst (f a n))) ->
  forall n : nat, Forall2 P l (fst (pushAll f l n)).
Proof.
  intros Hf. induction l as [| a l IH]; intros n; cbn [pushAll].
  - constructor.
  - unfold bind at 1. pose proof (Hf a n) as Ha.
    destruct (f a n) as [b n1]. unfold bind at 1. pose proof (IH n1) as Hl.
    destruct (pushAll f l n1) as [bs n2]. cbn [fst ret] in *.
    constructor; assumption.
Qed.

Lemma initialise_made (width height cellSize : Z) (current : refs) (n : nat) :
  (0 < width)%Z -> (0 < height)%Z ->
  let cols := CanvasRenderer.floorDiv width cellSize in
  let rows := CanvasRenderer.floorDiv height cellSize in
  let made := fst (initialise host width height cellSize current n) in
  map Drop.x (dropsRef made) = Render.range cols
  /\ List.length (randomSeedsRef made) = Z.to_nat (cols * rows).
Proof.
  intros Hw Hh cols rows made.
  assert (Hrun : exists (ds : list Drop.t) (ss : list RandomSeed.t),
             made = {| dropsRef := ds; randomSeedsRef := ss |}
             /\ Forall2 (fun i d => Drop.x d = i) (Render.range cols) ds
             /\ Forall2 (fun _ _ => True) (Render.range (cols * rows)) ss).
  { unfold made, initialise.
    destruct (Z.eqb_spec width 0); [lia |].
    destruct (Z.eqb_spec height 0); [lia |]. cbn [orb]. fold cols rows.
    unfold bind at 1.
    pose proof (@pushAll_Forall2 Z Drop.t (newDrop host rows)
                  (fun i d => Drop.x d = i) (Render.range cols)
                  (fun i m => eq_refl) n) as Hdrops.
    destruct (pushAll (newDrop host rows) (Render.range cols) n) as [ds k1].
    unfold bind at 1.
    pose proof (@pushAll_Forall2 Z RandomSeed.t (newSeed host)
                  (fun _ _ => True) (Render.range (cols * rows))
                  (fun i m => I) k1) as Hseeds.
    destruct (pushAll (newSeed host) (Render.range (cols * rows)) k1) as [ss k2].
    exists ds, ss. cbn [fst ret] in *. repeat split; assumption. }
  destruct Hrun as (ds & ss & -> & Hdrops & Hseeds).
  cbn [dropsRef randomSeedsRef]. split.
  - clear Hseeds. induction Hdrops as [| i d l l' Hx _ IH]; [reflexivity |].
    cbn [map]. rewrite Hx, IH. reflexivity.
  - apply Forall2_length in Hseeds. rewrite <- Hseeds.
    unfold Render.range. rewrite length_map, length_seq. reflexivity.
Qed.

(** X25. What the drops hook makes is what the compositor needs.  On a
    canvas of at least one cell, the refs the effect fills, handed to
    the renderer, are renderable inputs whatever the layers' shapes
    (absent or brightness grids): the seed table is not empty and the
    drops sit in columns that are not negative.  On a canvas smaller
    than one cell the seed table it makes is empty. *)
Theorem initialised_refs_are_renderable
    (width height cellSize : Z) (current : refs) (n : nat)
    (layers : list Layer.t) (frame : Z) (log : Canvas.log) :
  (0 < cellSize)%Z -> (0 < width)%Z -> (0 < height)%Z ->
  let made := fst (initialise host width height cellSize current n) in
  let calls := snd (initialise host width height cellSize current n) in
  let params :=
    {| CanvasRenderer.canvasReady := true;
       CanvasRenderer.canvasSize :=
         {| CanvasRenderer.width := width; CanvasRenderer.height := height |};
       CanvasRenderer.layers := layers;
       CanvasRenderer.randomSeeds := randomSeedsRef made;
       CanvasRenderer.cellSize := cellSize |} in
  ((cellSize <= width)%Z -> (cellSize <= height)%Z ->
   Forall shapeOk layers -> (0 <= frame)%Z ->
   renderable params frame
     {| Render.ctx := log; Render.drops := dropsRef made; Render.randomCalls := calls |})
  /\ ((width < cellSize)%Z \/ (height < cellSize)%Z -> randomSeedsRef made = []).
Proof.
  intros Hc Hw Hh made calls params.
  destruct (@initialise_made width height cellSize current n Hw Hh) as [Hxs Hlen].
  fold made in Hxs, Hlen.
  rewrite (floorDiv_div width cellSize) in Hxs, Hlen.
  rewrite (floorDiv_div height cellSize) in Hlen.
  split.
  - intros Hcw Hch Hshapes Hframe.
    assert (Hcols : (1 <= width / cellSize)%Z)
      by (apply Z.div_le_lower_bound; lia).
    assert (Hrows : (1 <= height / cellSize)%Z)
      by (apply Z.div_le_lower_bound; lia).
    unfold renderable, params.
    cbn [CanvasRenderer.randomSeeds CanvasRenderer.layers Render.drops].
    split.
    { intros Hnil. rewrite Hnil in Hlen. cbn [List.length] in Hlen.
      assert (1 <= width / cellSize * (height / cellSize))%Z by nia. lia. }
    split; [exact Hframe |]. split; [exact Hshapes |].
    rewrite <- Forall_map with (f := Drop.x) (P := fun x => (0 <= x)%Z).
    rewrite Hxs. apply Forall_forall. intros i Hi. apply range_In in Hi. lia.
  - intros Hsmall.
    assert (Hzero : (width / cellSize * (height / cellSize))%Z = 0%Z).
    { destruct Hsmall as [Hsmall | Hsmall].
      - rewrite (Z.div_small width cellSize) by lia. reflexivity.
      - rewrite (Z.div_small height cellSize) by lia. lia. }
    rewrite Hzero in Hlen. apply length_zero_iff_nil. exact Hlen.
Qed.

End FirstPass.

(** *** The compositor on a canvas of two by two cells *)

Section TwoByTwo.
Import JS Render CanvasRenderer Design.
Open Scope Q_scope.
Open Scope string_scope.

(** Hiding the upper of two layers is the same as removing it. *)
Lemma hidden_layer_composites_as_removed_witness :
  ((0 < 1)%nat
   \/ backgroundOf
        (hideAt 1 [Sample.coloured "a" true "#ff0000"; Sample.coloured "b" true "#0000ff"])
      = backgroundOf
          (removeAt 1 [Sample.coloured "a" true "#ff0000";
                       Sample.coloured "b" true "#0000ff"]))
  /\ renderFrame Sample.host
       (Sample.canvas [Sample.coloured "a" true "#ff0000";
                       Sample.coloured "b" false "#0000ff"]) 3 Sample.raining
     = renderFrame Sample.host
         (Sample.canvas [Sample.coloured "a" true "#ff0000"]) 3 Sample.raining.
Proof.
  split; [left; lia |].
  apply (@hidden_layer_composites_as_removed Sample.host
           (Sample.canvas [Sample.coloured "a" true "#ff0000";
                           Sample.coloured "b" true "#0000ff"])
           1 3 Sample.raining).
  left. lia.
Defined.

(** C2 as stated fails for the bottom layer: with layer "a" (red
    background) below a hidden layer "b" (blue background), hiding "a"
    leaves a canvas that is red all over, removing "a" one that is blue
    all over. *)
Lemma hidden_bottom_layer_counterexample :
  Canvas.uniformFill 24 24 None None
    (ctx (snd (renderFrame Sample.host
                 (Sample.canvas
                    (hideAt 0 [Sample.coloured "a" true "#ff0000";
                               Sample.coloured "b" false "#0000ff"]))
                 0 Sample.raining)))
  = Some "#ff0000"
  /\ Canvas.uniformFill 24 24 None None
       (ctx (snd (renderFrame Sample.host
                    (Sample.canvas
                       (removeAt 0 [Sample.coloured "a" true "#ff0000";
                                    Sample.coloured "b" false "#0000ff"]))
                    0 Sample.raining)))
     = Some "#0000ff"
  /\ renderFrame Sample.host
       (Sample.canvas
          (hideAt 0 [Sample.coloured "a" true "#ff0000";
                     Sample.coloured "b" false "#0000ff"]))
       0 Sample.raining
     <> renderFrame Sample.host
          (Sample.canvas
             (removeAt 0 [Sample.coloured "a" true "#ff0000";
                          Sample.coloured "b" false "#0000ff"]))
          0 Sample.raining.
Proof.
  split; [vm_compute; reflexivity |].
  split; [vm_compute; reflexivity |].
  intros Heq.
  apply (f_equal (fun r => Canvas.uniformFill 24 24 None None (ctx (snd r)))) in Heq.
  vm_compute in Heq. discriminate Heq.
Qed.


Lemma drop_y_bounded_after_update_witness :
  (forall n : nat, 0 <= Host.random Sample.host n < 1)
  /\ (0 <= 24)%Z
  /\ (0 < 12)%Z
  /\ Forall (fun d => 0 <= Drop.length d) (drops Sample.raining)
  /\ exists s' : state,
       updateDrops Sample.host (Sample.canvas []) Sample.raining = (Ok tt, s')
       /\ Forall (fun d' => Drop.y d' <= inject_Z 2 + Drop.length d') (drops s').
Proof.
  assert (Hlen : Forall (fun d => 0 <= Drop.length d) (drops Sample.raining))
    by (repeat constructor; discriminate).
  split; [exact sample_random_range |].
  split; [lia |]. split; [lia |]. split; [exact Hlen |].
  destruct (@drop_y_bounded_after_update Sample.host sample_random_range
              (Sample.canvas []) Sample.raining
              ltac:(cbn; lia) ltac:(cbn; lia) Hlen)
    as (s' & Hrun & _ & Hbound & _).
  exists s'. split; [exact Hrun | exact Hbound].
Defined.

End TwoByTwo.

(** *** Passes on the canvas of two by two cells *)

Section TwoByTwoPasses.
Import JS Render CanvasRenderer Design.
Open Scope Q_scope.
Open Scope string_scope.
Open Scope list_scope.

Lemma sample_cellSizesPositive :
  cellSizesPositive (Sample.canvas [Sample.coloured "a" true "#ff0000";
                                    Sample.coloured "b" false "#0000ff"]).
Proof. split; [cbn; lia | repeat constructor; cbn; lia]. Defined.

Lemma sample_renderable (frame : Z) :
  (0 <= frame)%Z ->
  renderable (Sample.canvas [Sample.coloured "a" true "#ff0000";
                             Sample.coloured "b" false "#0000ff"])
    frame Sample.raining.
Proof.
  intros Hframe. split; [discriminate |]. split; [exact Hframe |].
  split; repeat constructor; cbn; lia.
Defined.

(** Of the two drops, the second one wraps: one call. *)
Lemma random_called_once_per_wrapped_drop_witness :
  (24 <> 0)%Z
  /\ exists s' : state,
       renderFrame Sample.host
         (Sample.canvas [Sample.coloured "a" true "#ff0000";
                         Sample.coloured "b" false "#0000ff"]) 0 Sample.raining
       = (Ok tt, s')
       /\ randomCalls s' = 1%nat.
Proof.
  assert (Hsize : (24 <> 0)%Z) by discriminate.
  split; [exact Hsize |].
  destruct (@random_called_once_per_wrapped_drop Sample.host
              (Sample.canvas [Sample.coloured "a" true "#ff0000";
                              Sample.coloured "b" false "#0000ff"])
              0 Sample.raining eq_refl Hsize Hsize sample_cellSizesPositive
              (sample_renderable (Z.le_refl 0))) as (_ & s' & Hrun & Hcalls).
  exists s'. split; [exact Hrun | exact Hcalls].
Defined.

(** Without a canvas the drops stay where they are. *)
Lemma pass_without_canvas_does_nothing_witness :
  renderFrame Sample.host
    {| canvasReady := false;
       canvasSize := {| width := 24; height := 24 |};
       layers := [Sample.layer1];
       randomSeeds := Sample.fourSeeds;
       cellSize := 12 |} 0 Sample.raining
  = (Ok tt, Sample.raining).
Proof.
  destruct (@pass_without_canvas_does_nothing Sample.host
              {| canvasReady := false;
                 canvasSize := {| width := 24; height := 24 |};
                 layers := [Sample.layer1];
                 randomSeeds := Sample.fourSeeds;
                 cellSize := 12 |} 0 Sample.raining) as (Hnothing & _).
  apply Hnothing. left. reflexivity.
Defined.

(** The hidden layer "b" is not merged. *)
Lemma paintLayers_merges_visible_layers_in_order_witness :
  exists image : Canvas.log,
    ctx (snd (paintLayers Sample.host
                (Sample.canvas [Sample.coloured "a" true "#ff0000";
                                Sample.coloured "b" false "#0000ff"])
                0 Sample.raining))
    = [ Canvas.SetFillStyle "#ff0000"; Canvas.FillRect 0 0 24 24;
        Canvas.SetGlobalAlpha 1; Canvas.DrawImage image 0 0; Canvas.SetGlobalAlpha 1 ].
Proof.
  eexists.
  rewrite (@paintLayers_merges_visible_layers_in_order Sample.host
             (Sample.canvas [Sample.coloured "a" true "#ff0000";
                             Sample.coloured "b" false "#0000ff"])
             0 Sample.raining sample_cellSizesPositive
             (sample_renderable (Z.le_refl 0))).
  reflexivity.
Defined.

Lemma frame_loop_never_stops_witness :
  exists s' : state,
    renderFrames Sample.host
      (Sample.canvas [Sample.coloured "a" true "#ff0000";
                      Sample.coloured "b" false "#0000ff"])
      [1; 2; 3]%Z Sample.raining
    = (Ok tt, s')
    /\ map Drop.x (drops s') = [0; 1]%Z.
Proof.
  destruct (@frame_loop_never_stops Sample.host
              (Sample.canvas [Sample.coloured "a" true "#ff0000";
                              Sample.coloured "b" false "#0000ff"])
              [1; 2; 3]%Z Sample.raining sample_cellSizesPositive)
    as (s' & Hrun & Hx & _).
  - discriminate.
  - repeat constructor.
  - repeat constructor; cbn; lia.
  - repeat constructor; lia.
  - exists s'. split; [exact Hrun | exact Hx].
Defined.

(** The refs made for the canvas of 24 by 24 pixels and cells of 12. *)
Lemma initialised_refs_are_renderable_witness :
  (0 < 12)%Z
  /\ (12 <= 24)%Z
  /\ renderable
       {| canvasReady := true;
          canvasSize := {| width := 24; height := 24 |};
          layers := [Sample.layer1; Sample.layer2];
          randomSeeds :=
            DropsHook.randomSeedsRef
              (fst (DropsHook.initialise Sample.host 24 24 12
                      {| DropsHook.dropsRef := []; DropsHook.randomSeedsRef := [] |}
                      0%nat));
          cellSize := 12 |}
       0
       {| ctx := [];
          drops :=
            DropsHook.dropsRef
              (fst (DropsHook.initialise Sample.host 24 24 12
                      {| DropsHook.dropsRef := []; DropsHook.randomSeedsRef := [] |}
                      0%nat));
          randomCalls :=
            snd (DropsHook.initialise Sample.host 24 24 12
                   {| DropsHook.dropsRef := []; DropsHook.randomSeedsRef := [] |}
                   0%nat) |}.
Proof.
  assert (H12 : (0 < 12)%Z) by lia.
  assert (H24 : (0 < 24)%Z) by lia.
  assert (Hfit : (12 <= 24)%Z) by lia.
  split; [exact H12 |]. split; [exact Hfit |].
  destruct (@initialised_refs_are_renderable Sample.host 24 24 12
              {| DropsHook.dropsRef := []; DropsHook.randomSeedsRef := [] |} 0%nat
              [Sample.layer1; Sample.layer2] 0 [] H12 H24 H24) as [Hok _].
  apply Hok; [exact Hfit | exact Hfit | | lia].
  constructor; [exact I |]. constructor; [| constructor].
  cbv [shapeOk Sample.layer2 Layer.shapeData brightnessGrid].
  split; [discriminate |]. split; [repeat constructor |].
  repeat constructor; cbn; discriminate.
Defined.

End TwoByTwoPasses.
